(** * pplan: SCD type 2 version chains and the audit ledger

    A shallow embedding of the helpers of [audit-logger.ts]
    ([createNewVersion], [getEntityHistory], [getCurrentVersion],
    [getOrganizationAuditLogs], [updateAssignmentStatus],
    [formatAssignmentHistory], [getEntityType]) over an explicit model of
    the relational store they talk to, and the properties of the
    specification that concern them.

    Column names are the ones of the schema ([valid_from], [is_current],
    [previous_version_id], ...), and a row is read by them. What the code
    writes out as literal text (the keys of the snapshots and the changed
    fields of a status change, the messages of the errors it throws) is the
    text of [audit-logger.ts]. *)

From Stdlib Require Import ZArith String Ascii List Sorted Permutation.
From stdpp Require Import gmap strings list fin_maps sorting.

Open Scope string_scope.
Open Scope list_scope.
Open Scope Z_scope.

(** ** Values, rows and objects *)

(** What a column or a JSON property holds. Timestamps are milliseconds
    since the epoch, the number [Date.getTime()] returns. *)
Inductive value :=
  | VNull
  | VBool (b : bool)
  | VStr (s : string)
  | VTime (t : Z).

#[global] Instance value_eq_dec : EqDecision value.
Proof. solve_decision. Defined.

(** A row as the query API hands it over: property name to value. *)
Abbreviation row := (gmap string value).

(** An object built in memory, whose properties may hold [undefined]
    ([None]); a property that is absent is absent from the map. *)
Abbreviation jsobj := (gmap string (option value)).

(** An object whose key order is observed ([Object.keys]): its entries in
    insertion order. An object has each key once; the functions below let the
    last binding win, as successive assignments do. *)
Abbreviation entries := (list (string * value)).

(** JavaScript truthiness of a property read; [None] is [undefined]. *)
Definition truthy (v : option value) : bool :=
  match v with
  | None | Some VNull => false
  | Some (VBool b) => b
  | Some (VStr s) => negb (String.eqb s "")
  | Some (VTime _) => true
  end.

(** [v || null] *)
Definition or_null (v : option value) : value :=
  if truthy v then default VNull v else VNull.

(** [{...o, ...es}] on rows and [.set(es)] on a row: the entries are
    assigned in order. *)
Definition assign (es : entries) (o : row) : row :=
  foldl (fun acc kv => <[kv.1 := kv.2]> acc) o es.

(** [{...o, ...es}] on an object in memory. *)
Definition assign_obj (es : entries) (o : jsobj) : jsobj :=
  foldl (fun acc kv => <[kv.1 := Some kv.2]> acc) o es.

(** [es[k]] *)
Definition get (es : entries) (k : string) : option value :=
  assign es ∅ !! k.

(** [Object.keys(es)] *)
Definition keys (es : entries) : list string := es.*1.

(** The SQL predicate [eq(column, v)]. *)
Definition col_eq (k : string) (v : value) (r : row) : bool :=
  bool_decide (r !! k = Some v).

(** [r.id] of a row read back from a table whose key is a uuid. *)
Definition row_id (r : row) : string :=
  match r !! "id" with
  | Some (VStr s) => s
  | _ => ""
  end.

(** ** The audit ledger and the assignment status log *)

Inductive audit_action := ACreate | AUpdate | ADelete | AStatusChange.

(** What the code hands over as the entity type of an entry: a string, or,
    out of the registry of [getEntityType], the member every object inherits
    from [Object.prototype] under the name given (a function, or the
    prototype itself under [__proto__]). *)
Inductive entity_type_value :=
  | Text (t : string)
  | Inherited (name : string).

Coercion Text : string >-> entity_type_value.

#[global] Instance entity_type_value_eq_dec : EqDecision entity_type_value.
Proof. solve_decision. Defined.

#[global] Instance audit_action_eq_dec : EqDecision audit_action.
Proof. solve_decision. Defined.

(** What is passed to [insert(auditLogs).values(...)]. An optional argument
    left out is [None] and is stored as null. *)
Record audit_values := {
  organization_id : value;
  entity_type : entity_type_value;
  entity_id : string;
  action : audit_action;
  performed_by : option string;
  performed_by_staff : option string;
  old_values : option jsobj;
  new_values : option jsobj;
  changed_fields : option (list string);
  ip_address : option string;
  user_agent : option string;
  metadata : option jsobj
}.

#[global] Instance audit_values_eq_dec : EqDecision audit_values.
Proof. solve_decision. Defined.

(** A row of [audit_logs]: the inserted values and the [created_at] the
    store stamps on it ([defaultNow]). The surrogate key of a ledger row is
    read by none of the operations and is left out. *)
Record audit_entry := {
  audit_data : audit_values;
  audit_created_at : Z
}.

#[global] Instance audit_entry_eq_dec : EqDecision audit_entry.
Proof. solve_decision. Defined.

Inductive response_status := Pending | Accepted | Declined.

#[global] Instance response_status_eq_dec : EqDecision response_status.
Proof. solve_decision. Defined.

Definition status_name (st : response_status) : string :=
  match st with
  | Pending => "pending"
  | Accepted => "accepted"
  | Declined => "declined"
  end.

(** A row of [shift_assignments], column by column. *)
Record assignment := {
  a_id : string;
  a_shift_id : string;
  a_staff_id : string;
  a_role_id : option string;
  a_response_status : response_status;
  a_response_message : option string;
  a_invited_at : Z;
  a_responded_at : option Z;
  a_email_sent_at : option Z;
  a_created_at : Z;
  a_updated_at : Z
}.

#[global] Instance assignment_eq_dec : EqDecision assignment.
Proof. solve_decision. Defined.

(** What is passed to [insert(shiftAssignmentLogs).values(...)]. *)
Record assignment_log_values := {
  log_assignment_id : string;
  log_previous_status : option response_status;
  log_new_status : response_status;
  log_changed_by : option string;
  log_changed_by_staff : option string;
  log_message : option string;
  log_metadata : option jsobj
}.

#[global] Instance assignment_log_values_eq_dec
  : EqDecision assignment_log_values.
Proof. solve_decision. Defined.

Record assignment_log := {
  log_data : assignment_log_values;
  log_created_at : Z
}.

#[global] Instance assignment_log_eq_dec : EqDecision assignment_log.
Proof. solve_decision. Defined.

(** ** The store *)

(** The versioned entity tables by name, each a sequence of rows in insertion
    order, the assignments, and the two append-only logs. [tx_opened] is a
    ghost counter of the transactions begun so far. *)
Record store := {
  tables : gmap string (list row);
  shift_assignments : list assignment;
  shift_assignment_logs : list assignment_log;
  audit_logs : list audit_entry;
  tx_opened : nat
}.

Definition get_table (s : store) (t : string) : list row :=
  default [] (tables s !! t).

Definition set_table (t : string) (rows : list row) (s : store) : store :=
  {| tables := <[t := rows]> (tables s);
     shift_assignments := shift_assignments s;
     shift_assignment_logs := shift_assignment_logs s;
     audit_logs := audit_logs s;
     tx_opened := tx_opened s |}.

Definition set_assignments (rows : list assignment) (s : store) : store :=
  {| tables := tables s;
     shift_assignments := rows;
     shift_assignment_logs := shift_assignment_logs s;
     audit_logs := audit_logs s;
     tx_opened := tx_opened s |}.

Definition push_audit (e : audit_entry) (s : store) : store :=
  {| tables := tables s;
     shift_assignments := shift_assignments s;
     shift_assignment_logs := shift_assignment_logs s;
     audit_logs := audit_logs s ++ [e];
     tx_opened := tx_opened s |}.

Definition push_assignment_log (e : assignment_log) (s : store) : store :=
  {| tables := tables s;
     shift_assignments := shift_assignments s;
     shift_assignment_logs := shift_assignment_logs s ++ [e];
     audit_logs := audit_logs s;
     tx_opened := tx_opened s |}.

Definition begin_tx (s : store) : store :=
  {| tables := tables s;
     shift_assignments := shift_assignments s;
     shift_assignment_logs := shift_assignment_logs s;
     audit_logs := audit_logs s;
     tx_opened := S (tx_opened s) |}.

(** ** Operations on the store: state and exceptions *)

Inductive error :=
  | JsError (message : string)
  | TypeError (message : string)
  | UniqueViolation (table : string) (key : string)
  | NotNullViolation (table : string) (column : string).

#[global] Instance error_eq_dec : EqDecision error.
Proof. solve_decision. Defined.

Inductive result (A : Type) :=
  | Ok (a : A)
  | Err (e : error).
Arguments Ok {A} a.
Arguments Err {A} e.

#[global] Instance result_eq_dec {A} `{EqDecision A} : EqDecision (result A).
Proof. solve_decision. Defined.

(** A computation against the store. When it throws, the second component
    is the store as the statements before the throw left it. *)
Definition op (A : Type) : Type := store -> result A * store.

Definition ret {A} (a : A) : op A := fun s => (Ok a, s).

Definition throw {A} (e : error) : op A := fun s => (Err e, s).

Definition bind {A B} (m : op A) (k : A -> op B) : op B :=
  fun s =>
    match m s with
    | (Ok a, s') => k a s'
    | (Err e, s') => (Err e, s')
    end.

Notation "'let*' x ':=' m 'in' k" := (bind m (fun x => k))
  (at level 10, x name, m at level 100, k at level 200).
Notation "m ';;' k" := (bind m (fun _ => k))
  (at level 100, k at level 200, right associativity).

(** [query[t].findFirst({ where: p })] *)
Definition findFirst (t : string) (p : row -> bool) : op (option row) :=
  fun s => (Ok (List.find p (get_table s t)), s).

(** [update(t).set(es).where(p)] *)
Definition update_where (t : string) (es : entries) (p : row -> bool)
    : op unit :=
  fun s =>
    (Ok tt,
     set_table t
       (List.map (fun r => if p r then assign es r else r) (get_table s t)) s).

(** [insert(t).values(o).returning()] for values that carry every column of
    the table but the key, as the new version of [createNewVersion] does: it
    spreads the row read from the table and sets [id] to [undefined]. The
    only default drawn is then that of [id], a generated uuid, here [fresh];
    [id] is the primary key of the table. The insert of values that leave
    columns out is [insert_values] below. *)
Definition stored_row (o : jsobj) (fresh : string) : row :=
  let r : row := omap (fun v => v) o in
  match r !! "id" with
  | Some _ => r
  | None => <["id" := VStr fresh]> r
  end.

Definition has_id (rows : list row) (i : value) : bool :=
  existsb (col_eq "id" i) rows.

Definition insert_returning (t : string) (o : jsobj) (fresh : string)
    : op row :=
  fun s =>
    let r := stored_row o fresh in
    match r !! "id" with
    | Some i =>
        if has_id (get_table s t) i
        then (Err (UniqueViolation t "id"), s)
        else (Ok r, set_table t (get_table s t ++ [r]) s)
    | None => (Err (UniqueViolation t "id"), s)
    end.

(** [insert(auditLogs).values(v)], stamped by the store at [at_]. *)
Definition insert_audit (v : audit_values) (at_ : Z) : op unit :=
  fun s => (Ok tt, push_audit {| audit_data := v; audit_created_at := at_ |} s).

Definition insert_assignment_log (v : assignment_log_values) (at_ : Z)
    : op unit :=
  fun s =>
    (Ok tt, push_assignment_log {| log_data := v; log_created_at := at_ |} s).

(** [db.transaction(body)]: the writes of [body] are kept when it returns and
    dropped when it throws. *)
Definition transaction {A} (body : op A) : op A :=
  fun s =>
    let s0 := begin_tx s in
    match body s0 with
    | (Ok a, s') => (Ok a, s')
    | (Err e, _) => (Err e, s0)
    end.

(** ** The version chain manager *)

(** The registry from table name to the entity type of the ledger: the six
    properties of the object literal itself. *)
Definition entity_type_mapping : gmap string string :=
  list_to_map
    [("organizations", "organization");
     ("users", "user");
     ("roles", "role");
     ("staff", "staff");
     ("shifts", "shift");
     ("shift_assignments", "shift_assignment")].

(** The properties of [Object.prototype]. The registry is an object literal
    and inherits them: read under one of these names it gives a function,
    or, under [__proto__], the prototype; each of them is truthy. *)
Definition object_prototype_names : list string :=
  ["constructor"; "__defineGetter__"; "__defineSetter__"; "hasOwnProperty";
   "__lookupGetter__"; "__lookupSetter__"; "isPrototypeOf";
   "propertyIsEnumerable"; "toString"; "valueOf"; "__proto__";
   "toLocaleString"].

(** [mapping[tableName] || 'organization'] *)
Definition getEntityType (tableName : string) : entity_type_value :=
  match entity_type_mapping !! tableName with
  | Some e => if String.eqb e "" then Text "organization" else Text e
  | None =>
      if bool_decide (tableName ∈ object_prototype_names)
      then Inherited tableName
      else Text "organization"
  end.

(** The object handed to [insert(table).values(...)] for the new version. *)
Definition new_version_values (current : row) (updates : entries)
    (currentId : string) (now : Z) : jsobj :=
  <["updated_at" := Some (VTime now)]>
  (<["created_at" := current !! "created_at"]>
  (<["is_current" := Some (VBool true)]>
  (<["valid_to" := Some VNull]>
  (<["valid_from" := Some (VTime now)]>
  (<["previous_version_id" := Some (VStr currentId)]>
  (<["id" := None]>
  (assign_obj updates (Some <$> current)))))))).

(** The [forEach] over the changed fields that fills [oldValues] and
    [newValues]. *)
Definition changed_snapshots (current : row) (updates : entries)
    (changedFields : list string) : jsobj * jsobj :=
  foldl
    (fun acc field =>
       (<[field := current !! field]> acc.1,
        <[field := get updates field]> acc.2))
    (∅, ∅) changedFields.

(** [and(eq(table.id, currentId), eq(table.is_current, true))] *)
Definition is_current_version (currentId : string) (r : row) : bool :=
  col_eq "id" (VStr currentId) r && col_eq "is_current" (VBool true) r.

(** The set clause that retires a version. *)
Definition retirement (now : Z) : entries :=
  [("valid_to", VTime now); ("is_current", VBool false);
   ("updated_at", VTime now)].

Section CreateNewVersion.
(** The arguments of the call. *)
Variables (table currentId : string) (updates : entries).
Variables (performedBy performedByStaff ipAddress userAgent : option string).
Variable metadata_ : option jsobj.
(** What the run draws from outside: the clock read by [new Date()], the
    uuid the store generates for the new row, and the store's clock when
    it stamps the ledger row. *)
Variables (now : Z) (fresh : string) (stamp : Z).

Definition createNewVersion_body : op row :=
  let* current := findFirst table (is_current_version currentId) in
  match current with
  | None => throw (JsError "Current version not found")
  | Some current =>
      update_where table (retirement now) (col_eq "id" (VStr currentId)) ;;
      let* newVersion :=
        insert_returning table
          (new_version_values current updates currentId now) fresh in
      let changedFields := keys updates in
      let snaps := changed_snapshots current updates changedFields in
      insert_audit
        {| organization_id := or_null (current !! "organization_id");
           entity_type := getEntityType table;
           entity_id := row_id newVersion;
           action := AUpdate;
           performed_by := performedBy;
           performed_by_staff := performedByStaff;
           old_values := Some snaps.1;
           new_values := Some snaps.2;
           changed_fields := Some changedFields;
           ip_address := ipAddress;
           user_agent := userAgent;
           metadata := metadata_ |} stamp ;;
      ret newVersion
  end.

Definition createNewVersion : op row := transaction createNewVersion_body.
End CreateNewVersion.




(** ** Reading a version chain *)

(** [versions.sort(cmp)]: the sort is stable; [x] goes before the first [y]
    that [cmp] does not put before it. *)
Fixpoint insert_sorted {A} (cmp : A -> A -> Z) (x : A) (l : list A) : list A :=
  match l with
  | [] => [x]
  | y :: l' =>
      if cmp x y <=? 0 then x :: y :: l' else y :: insert_sorted cmp x l'
  end.

Definition sort_with {A} (cmp : A -> A -> Z) (l : list A) : list A :=
  foldr (insert_sorted cmp) [] l.

(** [new Date(v).getTime()] of a timestamp column. *)
Definition date_ms (v : option value) : Z :=
  match v with
  | Some (VTime t) => t
  | _ => 0
  end.

Definition valid_from (r : row) : Z := date_ms (r !! "valid_from").

(** [eq(column, v)] for a value read from a property. *)
Definition col_is (k : string) (v : option value) (r : row) : bool :=
  match v with
  | Some v => col_eq k v r
  | None => false
  end.

(** The [while (currentId)] loop of [getEntityHistory]; one unit of fuel per
    test of the loop condition, [None] when the fuel runs out before the
    loop ends. *)
Fixpoint history_loop (fuel : nat) (rows : list row)
    (currentId : option value) (versions : list row) : option (list row) :=
  match fuel with
  | O => None
  | S fuel' =>
      if truthy currentId then
        match List.find (col_is "id" currentId) rows with
        | None => Some versions
        | Some version =>
            history_loop fuel' rows (version !! "previous_version_id")
              (versions ++ [version])
        end
      else Some versions
  end.

Definition getEntityHistory (fuel : nat) (table entityId : string)
    (s : store) : option (list row) :=
  sort_with (fun a b => valid_from b - valid_from a)
    <$> history_loop fuel (get_table s table) (Some (VStr entityId)) [].

(** The loop of [getCurrentVersion]; the inner option is the row or null. *)
Fixpoint current_loop (fuel : nat) (rows : list row)
    (currentId : option value) : option (option row) :=
  match fuel with
  | O => None
  | S fuel' =>
      if truthy currentId then
        match List.find (col_is "id" currentId) rows with
        | None => Some None
        | Some version =>
            if truthy (version !! "is_current") then Some (Some version)
            else
              match List.find (col_is "previous_version_id" currentId) rows with
              | None => Some (Some version)
              | Some newer => current_loop fuel' rows (newer !! "id")
              end
        end
      else Some None
  end.

Definition getCurrentVersion (fuel : nat) (table originalId : string)
    (s : store) : option (option row) :=
  current_loop fuel (get_table s table) (Some (VStr originalId)).

(** ** Reading the audit ledger *)

(** A ledger row with the two relations the query asks for. In the schema
    both relations go through [performed_by]. *)
Record audit_with_relations := {
  audit_row : audit_entry;
  performedByUser : option row;
  performedByStaffMember : option row
}.

Definition related (s : store) (t : string) (i : option string) : option row :=
  match i with
  | Some i => List.find (col_eq "id" (VStr i)) (get_table s t)
  | None => None
  end.

Definition with_performers (s : store) (e : audit_entry)
    : audit_with_relations :=
  {| audit_row := e;
     performedByUser := related s "users" (performed_by (audit_data e));
     performedByStaffMember :=
       related s "staff" (performed_by (audit_data e)) |}.

Definition getOrganizationAuditLogs (organizationId : string)
    (startDate endDate : option Z) (entityType : option string)
    (action_ : option audit_action) (limit : option nat) (s : store)
    : list audit_with_relations :=
  let conditions : list (audit_entry -> bool) :=
    ([fun e =>
        bool_decide (organization_id (audit_data e) = VStr organizationId)]
     ++ match entityType with
        | Some t =>
            if negb (String.eqb t "")
            then [fun e => bool_decide (entity_type (audit_data e) = t)]
            else []
        | None => []
        end
     ++ match action_ with
        | Some a => [fun e => bool_decide (action (audit_data e) = a)]
        | None => []
        end) in
  with_performers s
    <$> take (default 100%nat limit)
          (sort_with (fun a b => audit_created_at b - audit_created_at a)
             (List.filter (fun e => forallb (fun c => c e) conditions)
                (audit_logs s))).

(** ** The assignment status engine *)

Definition with_status (newStatus : response_status) (message : option string)
    (respondedAt updatedAt : Z) (a : assignment) : assignment :=
  {| a_id := a_id a;
     a_shift_id := a_shift_id a;
     a_staff_id := a_staff_id a;
     a_role_id := a_role_id a;
     a_response_status := newStatus;
     a_response_message :=
       match message with
       | Some m => Some m
       | None => a_response_message a
       end;
     a_invited_at := a_invited_at a;
     a_responded_at := Some respondedAt;
     a_email_sent_at := a_email_sent_at a;
     a_created_at := a_created_at a;
     a_updated_at := updatedAt |}.

(** [query.shiftAssignments.findFirst({ where: eq(id, i) })] *)
Definition find_assignment (i : string) : op (option assignment) :=
  fun s =>
    (Ok (List.find (fun a => String.eqb (a_id a) i) (shift_assignments s)), s).

(** [update(shiftAssignments).set(...).where(eq(id, i)).returning()]; a
    property set to [undefined] (no message) leaves its column alone. *)
Definition update_assignments (i : string) (f : assignment -> assignment)
    : op (list assignment) :=
  fun s =>
    let hit a := String.eqb (a_id a) i in
    (Ok (f <$> List.filter hit (shift_assignments s)),
     set_assignments
       ((fun a => if hit a then f a else a) <$> shift_assignments s) s).

Section UpdateAssignmentStatus.
(** The two inserts of the transaction as the store carries them out; a
    store can refuse an insert. *)
Variable insert_log : assignment_log_values -> Z -> op unit.
Variable insert_entry : audit_values -> Z -> op unit.
Variables (assignmentId : string) (newStatus : response_status).
Variables (message changedBy changedByStaff : option string).
Variable metadata_ : option jsobj.
Variables (ipAddress userAgent : option string).
(** The two readings of the clock in the set clause, and the store's clock
    at the two inserts. *)
Variables (respondedAt updatedAt logStamp auditStamp : Z).

Definition updateAssignmentStatus_tx (previousStatus : response_status)
    : op (option assignment) :=
  let* updated :=
    update_assignments assignmentId
      (with_status newStatus message respondedAt updatedAt) in
  insert_log
    {| log_assignment_id := assignmentId;
       log_previous_status := Some previousStatus;
       log_new_status := newStatus;
       log_changed_by := changedBy;
       log_changed_by_staff := changedByStaff;
       log_message := message;
       log_metadata := metadata_ |} logStamp ;;
  insert_entry
    {| organization_id := VNull;
       entity_type := "shift_assignment";
       entity_id := assignmentId;
       action := AStatusChange;
       performed_by := changedBy;
       performed_by_staff := changedByStaff;
       old_values :=
         Some {[ "responseStatus" :=
                   Some (VStr (status_name previousStatus)) ]};
       new_values :=
         Some {[ "responseStatus" :=
                   Some (VStr (status_name newStatus)) ]};
       changed_fields := Some ["responseStatus"];
       ip_address := ipAddress;
       user_agent := userAgent;
       metadata := metadata_ |} auditStamp ;;
  ret (head updated).

Definition updateAssignmentStatus_on : op (option assignment) :=
  let* currentAssignment := find_assignment assignmentId in
  match currentAssignment with
  | None => throw (JsError "Assignment not found")
  | Some currentAssignment =>
      let previousStatus := a_response_status currentAssignment in
      if bool_decide (previousStatus = newStatus)
      then ret (Some currentAssignment)
      else transaction (updateAssignmentStatus_tx previousStatus)
  end.
End UpdateAssignmentStatus.

(** [updateAssignmentStatus] on the store of this development, which takes
    every insert into the two logs. *)
Definition updateAssignmentStatus : string -> response_status ->
    option string -> option string -> option string -> option jsobj ->
    option string -> option string -> Z -> Z -> Z -> Z ->
    op (option assignment) :=
  updateAssignmentStatus_on insert_assignment_log insert_audit.

(** ** Formatting the history of an assignment *)

(** An element of what [getAssignmentHistory] returns: the log row with the
    two actors resolved, each reduced to [id], [name] and [email]. *)
Record actor := {
  actor_id : string;
  actor_name : string;
  actor_email : string
}.

Record history_entry := {
  history_log : assignment_log;
  changedByUser : option actor;
  changedByStaffMember : option actor
}.

Definition quote : string := String "034"%char EmptyString.

Section FormatAssignmentHistory.
(** [new Date(t).toLocaleString('de-DE')] *)
Variable toLocaleString : Z -> string.

Definition format_entry (log : history_entry) : string :=
  let v := log_data (history_log log) in
  let actor :=
    match changedByUser log with
    | Some u => "Manager " +:+ actor_name u
    | None =>
        match changedByStaffMember log with
        | Some m => "Staff " +:+ actor_name m
        | None => "System"
        end
    end in
  let statusChange :=
    match log_previous_status v with
    | Some previous =>
        status_name previous +:+ " → " +:+ status_name (log_new_status v)
    | None => "Status gesetzt: " +:+ status_name (log_new_status v)
    end in
  let timestamp := toLocaleString (log_created_at (history_log log)) in
  let line := "[" +:+ timestamp +:+ "] " +:+ actor +:+ ": " +:+ statusChange in
  match log_message v with
  | Some m =>
      if negb (String.eqb m "")
      then line +:+ " - " +:+ quote +:+ m +:+ quote
      else line
  | None => line
  end.

Definition formatAssignmentHistory (logs : list history_entry)
    : list string :=
  format_entry <$> logs.
End FormatAssignmentHistory.

(** ** Vocabulary of the specification *)

(** The columns [createNewVersion] sets itself on the new row. *)
Definition managed_fields : list string :=
  ["id"; "previous_version_id"; "valid_from"; "valid_to"; "is_current";
   "created_at"; "updated_at"].

(** The table names the entity type registry knows. *)
Definition registered_tables : list string :=
  ["organizations"; "users"; "roles"; "staff"; "shifts"; "shift_assignments"].

(** What the retirement step does to one row of the table. *)
Definition retire_where (currentId : string) (now : Z) (r : row) : row :=
  if col_eq "id" (VStr currentId) r then assign (retirement now) r else r.

(** [retired] is [old] retired at [now]: closed at [now], no longer current,
    every column but those two and [updated_at] as it was. *)
Definition is_retirement_of (now : Z) (old retired : row) : Prop :=
  retired !! "valid_to" = Some (VTime now)
  /\ retired !! "is_current" = Some (VBool false)
  /\ forall k, k ∉ ["valid_to"; "is_current"; "updated_at"] ->
       retired !! k = old !! k.

(** [newVersion] is the successor of [current] under [updates]: a copy of
    [current] overlaid with [updates], under the id [fresh], pointing back
    at [currentId], valid from [now], open ended, current, created when
    [current] was. *)
Definition is_successor_of (currentId fresh : string) (now : Z)
    (updates : entries) (current newVersion : row) : Prop :=
  newVersion !! "id" = Some (VStr fresh)
  /\ newVersion !! "previous_version_id" = Some (VStr currentId)
  /\ newVersion !! "valid_from" = Some (VTime now)
  /\ newVersion !! "valid_to" = Some VNull
  /\ newVersion !! "is_current" = Some (VBool true)
  /\ newVersion !! "created_at" = current !! "created_at"
  /\ newVersion !! "updated_at" = Some (VTime now)
  /\ forall k, k ∉ managed_fields ->
       newVersion !! k =
       match get updates k with Some v => Some v | None => current !! k end.

(** [e] is the ledger entry of an update of [current] by [updates] that
    resulted in the version [entityId]. *)
Definition is_update_entry (entityId : string) (current : row)
    (updates : entries) (e : audit_values) : Prop :=
  action e = AUpdate
  /\ entity_id e = entityId
  /\ changed_fields e = Some (keys updates)
  /\ exists o n : jsobj,
       old_values e = Some o /\ new_values e = Some n
       /\ dom o = list_to_set (keys updates)
       /\ dom n = list_to_set (keys updates)
       /\ forall k, k ∈ keys updates ->
            o !! k = Some (current !! k) /\ n !! k = Some (get updates k).

(** Newest first by [valid_from]. *)
Definition newest_first (l : list row) : Prop :=
  StronglySorted (fun a b => valid_from b <= valid_from a) l.

(** The rows met when following [previous_version_id] from the id [i] until
    the id is null or empty, or names no row. *)
Inductive walk (rows : list row) : option value -> list row -> Prop :=
  | walk_end i :
      truthy i = false -> walk rows i []
  | walk_missing i :
      truthy i = true -> List.find (col_is "id" i) rows = None ->
      walk rows i []
  | walk_step i r l :
      truthy i = true -> List.find (col_is "id" i) rows = Some r ->
      walk rows (r !! "previous_version_id") l ->
      walk rows i (r :: l).

(** The rows met on the first steps of that way, however many. *)
Inductive path (rows : list row) : option value -> list row -> Prop :=
  | path_nil i : path rows i []
  | path_step i r l :
      truthy i = true -> List.find (col_is "id" i) rows = Some r ->
      path rows (r !! "previous_version_id") l ->
      path rows i (r :: l).

(** [r] is the row the table holds under its id. *)
Definition stored_version (rows : list row) (r : row) : Prop :=
  exists i, i <> "" /\ r !! "id" = Some (VStr i)
            /\ List.find (col_eq "id" (VStr i)) rows = Some r.

(** Rows linked by [previous_version_id], newest first, down to a first
    version without predecessor. *)
Inductive chain (rows : list row) : list row -> Prop :=
  | chain_root r :
      stored_version rows r ->
      r !! "previous_version_id" = Some VNull ->
      chain rows [r]
  | chain_cons r r' l :
      stored_version rows r ->
      r !! "previous_version_id" = r' !! "id" ->
      chain rows (r' :: l) ->
      chain rows (r :: r' :: l).

(** Invariant I1 for the rows [L] of one lineage, newest first: a simple
    path of [previous_version_id] edges down to the first version, whose head
    is the one current row, and which holds every row of the table that
    refers to one of its rows. *)
Definition lineage (rows : list row) (L : list row) : Prop :=
  chain rows L
  /\ NoDup (row_id <$> L)
  /\ (exists h t, L = h :: t
        /\ h !! "is_current" = Some (VBool true)
        /\ forall r, In r t -> r !! "is_current" = Some (VBool false))
  /\ (forall r r', In r' L -> In r rows ->
        r !! "previous_version_id" = r' !! "id" -> In r L).

(** A table keyed by uuid, with its boolean [is_current] column. *)
Definition keyed (rows : list row) : Prop :=
  (forall r, In r rows ->
     (exists i, i <> "" /\ r !! "id" = Some (VStr i))
     /\ (exists b, r !! "is_current" = Some (VBool b)))
  /\ NoDup (row_id <$> rows).

(** The head of the lineage as seen from the candidate [v]: [v] when it is
    current; otherwise the head seen from the row that names [v] as its
    predecessor; and [v] itself when no row does. *)
Inductive resolves (rows : list row) : row -> row -> Prop :=
  | resolves_current v :
      v !! "is_current" = Some (VBool true) ->
      resolves rows v v
  | resolves_fallback v :
      v !! "is_current" = Some (VBool false) ->
      List.find (col_is "previous_version_id" (v !! "id")) rows = None ->
      resolves rows v v
  | resolves_advance v newer h :
      v !! "is_current" = Some (VBool false) ->
      List.find (col_is "previous_version_id" (v !! "id")) rows = Some newer ->
      resolves rows newer h ->
      resolves rows v h.

(** ** Sample data *)

(** A version of a staff member. *)
Definition staff_version (i : string) (previous : value) (from : Z)
    (to : value) (current : bool) (name : string) : row :=
  list_to_map
    [("id", VStr i); ("organization_id", VStr "org-1"); ("name", VStr name);
     ("valid_from", VTime from); ("valid_to", to);
     ("is_current", VBool current); ("previous_version_id", previous);
     ("created_at", VTime 1000); ("updated_at", VTime from)].

Definition staff_store (rows : list row) : store :=
  {| tables := {[ "staff" := rows ]};
     shift_assignments := [];
     shift_assignment_logs := [];
     audit_logs := [];
     tx_opened := 0 |}.

(** A lineage of one version, and the same lineage one update later. *)
Definition jane : row := staff_version "v1" VNull 1000 VNull true "Jane".
Definition jane_v1 : row :=
  staff_version "v1" VNull 1000 (VTime 2000) false "Jane".
Definition jane_v2 : row :=
  staff_version "v2" (VStr "v1") 2000 VNull true "Jane Doe".

(** A row that names itself as its predecessor. *)
Definition looped : row :=
  staff_version "v1" (VStr "v1") 1000 (VTime 2000) false "Jane".



(** An invitation that is still pending. *)
Definition invitation : assignment :=
  {| a_id := "as-1";
     a_shift_id := "sh-1";
     a_staff_id := "v1";
     a_role_id := None;
     a_response_status := Pending;
     a_response_message := None;
     a_invited_at := 1000;
     a_responded_at := None;
     a_email_sent_at := None;
     a_created_at := 1000;
     a_updated_at := 1000 |}.

Definition invitation_store : store :=
  {| tables := ∅;
     shift_assignments := [invitation];
     shift_assignment_logs := [];
     audit_logs := [];
     tx_opened := 0 |}.

(** A ledger with one entry of organization [org-1], stamped at 100. *)
Definition early_entry : audit_entry :=
  {| audit_data :=
       {| organization_id := VStr "org-1";
          entity_type := "staff";
          entity_id := "v1";
          action := ACreate;
          performed_by := None;
          performed_by_staff := None;
          old_values := None;
          new_values := None;
          changed_fields := None;
          ip_address := None;
          user_agent := None;
          metadata := None |};
     audit_created_at := 100 |}.

Definition ledger_store : store :=
  {| tables := ∅;
     shift_assignments := [];
     shift_assignment_logs := [];
     audit_logs := [early_entry];
     tx_opened := 0 |}.

(** A first transition logged by the system, without a message. *)
Definition system_entry : history_entry :=
  {| history_log :=
       {| log_data :=
            {| log_assignment_id := "as-1";
               log_previous_status := None;
               log_new_status := Accepted;
               log_changed_by := None;
               log_changed_by_staff := None;
               log_message := None;
               log_metadata := None |};
          log_created_at := 5000 |};
     changedByUser := None;
     changedByStaffMember := None |}.

(** The suffix that carries the message of a log entry, when it has one. *)
Definition message_suffix (message : option string) : string :=
  match message with
  | Some m => if String.eqb m "" then "" else " - " +:+ quote +:+ m +:+ quote
  | None => ""
  end.

(** [label] names the actor of [log]: the user if resolved, else the staff
    member if resolved, else the system. *)
Definition is_actor_label (log : history_entry) (label : string) : Prop :=
  (forall u, changedByUser log = Some u -> label = "Manager " +:+ actor_name u)
  /\ (forall m, changedByUser log = None -> changedByStaffMember log = Some m ->
        label = "Staff " +:+ actor_name m)
  /\ (changedByUser log = None -> changedByStaffMember log = None ->
        label = "System").

(** [text] tells the transition from [previous] to [new]. *)
Definition is_transition (previous : option response_status)
    (new : response_status) (text : string) : Prop :=
  (forall p, previous = Some p ->
     text = status_name p +:+ " → " +:+ status_name new)
  /\ (previous = None -> text = "Status gesetzt: " +:+ status_name new).

(** ** The other writers of the ledger *)

(** An optional string argument as the column value it is stored as. *)
Definition nullable (v : option string) : value :=
  match v with
  | Some s => VStr s
  | None => VNull
  end.

(** [logAuditEvent]: one insert into the ledger, outside any transaction. *)
Definition logAuditEvent (organizationId : option string)
    (entityType entityId : string) (action_ : audit_action)
    (performedBy performedByStaff : option string)
    (oldValues newValues : option jsobj) (changedFields : option (list string))
    (ipAddress userAgent : option string) (metadata_ : option jsobj)
    (stamp : Z) : op unit :=
  insert_audit
    {| organization_id := nullable organizationId;
       entity_type := entityType;
       entity_id := entityId;
       action := action_;
       performed_by := performedBy;
       performed_by_staff := performedByStaff;
       old_values := oldValues;
       new_values := newValues;
       changed_fields := changedFields;
       ip_address := ipAddress;
       user_agent := userAgent;
       metadata := metadata_ |} stamp.

(** A row handed over as a JSON snapshot. *)
Definition as_object (r : row) : jsobj := Some <$> r.

(** ** Tables as the schema declares them *)

(** What a column falls back on when an insert gives it no value:
    nothing, a constant ([default(v)]), the store's clock ([defaultNow]) or
    a generated uuid ([defaultRandom]). *)
Inductive column_default :=
  | NoDefault
  | DefaultValue (v : value)
  | DefaultNow
  | DefaultRandom.

Record column := Column {
  col_name : string;
  col_not_null : bool;
  col_default : column_default
}.

#[global] Instance column_default_eq_dec : EqDecision column_default.
Proof. solve_decision. Defined.

#[global] Instance column_eq_dec : EqDecision column.
Proof. solve_decision. Defined.

(** A table handed to a helper: its SQL name and its columns. *)
Record table_def := {
  table_name : string;
  table_columns : list column
}.

(** The table [staff] of the schema; the primary key is not null. *)
Definition staff : table_def :=
  {| table_name := "staff";
     table_columns :=
       [Column "id" true DefaultRandom;
        Column "organization_id" true NoDefault;
        Column "name" true NoDefault;
        Column "email" true NoDefault;
        Column "phone" false NoDefault;
        Column "primary_role_id" false NoDefault;
        Column "notes" false NoDefault;
        Column "metadata" false NoDefault;
        Column "is_active" true (DefaultValue (VBool true));
        Column "valid_from" true DefaultNow;
        Column "valid_to" false NoDefault;
        Column "is_current" true (DefaultValue (VBool true));
        Column "previous_version_id" false NoDefault;
        Column "created_at" true DefaultNow;
        Column "updated_at" true DefaultNow] |}.

(** What the store puts into a column on insert: the value given, null
    included, or, for a property that is absent or [undefined], the default
    of the column, and null where it has none. [fresh] is the uuid the store
    generates and [now] its clock. *)
Definition column_value (values : jsobj) (fresh : string) (now : Z)
    (c : column) : value :=
  match values !! col_name c with
  | Some (Some v) => v
  | _ =>
      match col_default c with
      | NoDefault => VNull
      | DefaultValue v => v
      | DefaultNow => VTime now
      | DefaultRandom => VStr fresh
      end
  end.

(** The row [returning()] hands back: every column of the table. *)
Definition returned_row (t : table_def) (values : jsobj) (fresh : string)
    (now : Z) : row :=
  list_to_map
    ((fun c => (col_name c, column_value values fresh now c))
       <$> table_columns t).

(** [insert(t).values(values).returning()]. The store refuses a null in a
    column declared not null, and a second row under a key; [id] is the
    primary key of every table of the schema. *)
Definition insert_values (t : table_def) (values : jsobj) (fresh : string)
    (now : Z) : op row :=
  fun s =>
    let r := returned_row t values fresh now in
    let rows := get_table s (table_name t) in
    match
      List.find
        (fun c =>
           col_not_null c
           && bool_decide (column_value values fresh now c = VNull))
        (table_columns t)
    with
    | Some c => (Err (NotNullViolation (table_name t) (col_name c)), s)
    | None =>
        if match r !! "id" with
           | Some i => has_id rows i
           | None => false
           end
        then (Err (UniqueViolation (table_name t) "id"), s)
        else (Ok r, set_table (table_name t) (rows ++ [r]) s)
    end.

Section CreateWithAudit.
Variables (table : table_def) (values : jsobj) (entityType : string).
Variables (performedBy performedByStaff ipAddress userAgent : option string).
Variable metadata_ : option jsobj.
(** The uuid the store generates and its clock at the insert of the row,
    for the columns that default to them, and the store's clock at the
    insert into the ledger. *)
Variables (fresh : string) (now stamp : Z).

Definition createWithAudit : op row :=
  transaction
    (let* created := insert_values table values fresh now in
     insert_audit
       {| organization_id := or_null (created !! "organization_id");
          entity_type := entityType;
          entity_id := row_id created;
          action := ACreate;
          performed_by := performedBy;
          performed_by_staff := performedByStaff;
          old_values := None;
          new_values := Some (as_object created);
          changed_fields := None;
          ip_address := ipAddress;
          user_agent := userAgent;
          metadata := metadata_ |} stamp ;;
     ret created).
End CreateWithAudit.

(** [update(t).set(es).where(p).returning()]. When the set clause assigns
    the key, the store checks it as it does on insert: no two rows may end
    up under the assigned id. *)
Definition update_returning (t : string) (es : entries) (p : row -> bool)
    : op (list row) :=
  fun s =>
    let rows := get_table s t in
    let rows' := List.map (fun r => if p r then assign es r else r) rows in
    let clash :=
      match get es "id" with
      | Some i =>
          existsb p rows
          && negb (length (List.filter (col_eq "id" i) rows') <=? 1)%nat
      | None => false
      end in
    if clash then (Err (UniqueViolation t "id"), s)
    else (Ok (assign es <$> List.filter p rows), set_table t rows' s).

Section UpdateWithAudit.
Variables (table id : string) (updates : entries) (entityType : string).
Variables (performedBy performedByStaff ipAddress userAgent : option string).
Variable metadata_ : option jsobj.
(** The clock read by [new Date()] and the store's clock at the insert into
    the ledger. *)
Variables (now stamp : Z).

Definition updateWithAudit : op row :=
  transaction
    (let* oldRecord := findFirst table (col_eq "id" (VStr id)) in
     match oldRecord with
     | None => throw (JsError "Record not found")
     | Some oldRecord =>
         let* rows :=
           update_returning table (updates ++ [("updated_at", VTime now)])
             (col_eq "id" (VStr id)) in
         match head rows with
         | None => throw (JsError "Cannot read properties of undefined")
         | Some updated =>
             let changedFields := keys updates in
             let snaps := changed_snapshots oldRecord updates changedFields in
             insert_audit
               {| organization_id := or_null (updated !! "organization_id");
                  entity_type := entityType;
                  entity_id := id;
                  action := AUpdate;
                  performed_by := performedBy;
                  performed_by_staff := performedByStaff;
                  old_values := Some snaps.1;
                  new_values := Some snaps.2;
                  changed_fields := Some changedFields;
                  ip_address := ipAddress;
                  user_agent := userAgent;
                  metadata := metadata_ |} stamp ;;
             ret updated
         end
     end).
End UpdateWithAudit.

Section DeleteWithAudit.
(** [delete(t).where(p)] as the store carries it out, with whatever the
    schema attaches to a delete (cascades, references that forbid it). *)
Variable delete_from : string -> (row -> bool) -> op unit.
Variables (table id : string) (entityType : string).
Variables (performedBy performedByStaff ipAddress userAgent : option string).
Variable metadata_ : option jsobj.
Variable stamp : Z.

Definition deleteWithAudit : op row :=
  transaction
    (let* record := findFirst table (col_eq "id" (VStr id)) in
     match record with
     | None => throw (JsError "Record not found")
     | Some record =>
         insert_audit
           {| organization_id := or_null (record !! "organization_id");
              entity_type := entityType;
              entity_id := id;
              action := ADelete;
              performed_by := performedBy;
              performed_by_staff := performedByStaff;
              old_values := Some (as_object record);
              new_values := None;
              changed_fields := None;
              ip_address := ipAddress;
              user_agent := userAgent;
              metadata := metadata_ |} stamp ;;
         delete_from table (col_eq "id" (VStr id)) ;;
         ret record
     end).
End DeleteWithAudit.

(** A delete that touches the named table only. *)
Definition delete_rows (t : string) (p : row -> bool) : op unit :=
  fun s =>
    (Ok tt, set_table t (List.filter (fun r => negb (p r)) (get_table s t)) s).

(** ** Reading the ledger of an entity *)

(** [columns: { id: true, name: true, email: true }] *)
Definition id_name_email (r : row) : row :=
  filter (fun kv => kv.1 ∈ ["id"; "name"; "email"]) r.

Definition with_performer_columns (s : store) (e : audit_entry)
    : audit_with_relations :=
  {| audit_row := e;
     performedByUser :=
       id_name_email <$> related s "users" (performed_by (audit_data e));
     performedByStaffMember :=
       id_name_email <$> related s "staff" (performed_by (audit_data e)) |}.

Definition getAuditLogsForEntity (entityType entityId : string)
    (limit : option nat) (s : store) : list audit_with_relations :=
  with_performer_columns s
    <$> take (default 50%nat limit)
          (sort_with (fun a b => audit_created_at b - audit_created_at a)
             (List.filter
                (fun e =>
                   bool_decide (entity_type (audit_data e) = entityType)
                   && bool_decide (entity_id (audit_data e) = entityId))
                (audit_logs s))).

(** ** Reading the assignment status log *)

(** A [varchar] or [uuid] column that is not null, as a string. *)
Definition text (v : option value) : string :=
  match v with
  | Some (VStr s) => s
  | _ => ""
  end.

Definition actor_of (r : row) : actor :=
  {| actor_id := text (r !! "id");
     actor_name := text (r !! "name");
     actor_email := text (r !! "email") |}.

Definition with_changers (s : store) (l : assignment_log) : history_entry :=
  {| history_log := l;
     changedByUser :=
       actor_of <$> related s "users" (log_changed_by (log_data l));
     changedByStaffMember :=
       actor_of <$> related s "staff" (log_changed_by_staff (log_data l)) |}.

Definition getAssignmentHistory (assignmentId : string) (s : store)
    : list history_entry :=
  with_changers s
    <$> sort_with (fun a b => log_created_at b - log_created_at a)
          (List.filter
             (fun l =>
                bool_decide (log_assignment_id (log_data l) = assignmentId))
             (shift_assignment_logs s)).

(** What [getAssignmentStatistics] returns; a log row comes with the
    assignment it belongs to. *)
Record assignment_statistics := {
  totalChanges : nat;
  acceptedCount : nat;
  declinedCount : nat;
  changedByManagerCount : nat;
  changedByStaffCount : nat;
  logs : list (assignment_log * option assignment)
}.

(** The argument is called [shiftId] and is compared with the assignment
    id of the log rows. *)
Definition getAssignmentStatistics (shiftId : string) (s : store)
    : assignment_statistics :=
  let found :=
    List.filter
      (fun l => bool_decide (log_assignment_id (log_data l) = shiftId))
      (shift_assignment_logs s) in
  let logs_ :=
    (fun l =>
       (l, List.find
             (fun a => String.eqb (a_id a) (log_assignment_id (log_data l)))
             (shift_assignments s)))
      <$> found in
  let count (p : assignment_log -> bool) :=
    length (List.filter (fun la => p la.1) logs_) in
  {| totalChanges := length logs_;
     acceptedCount :=
       count (fun l => bool_decide (log_new_status (log_data l) = Accepted));
     declinedCount :=
       count (fun l => bool_decide (log_new_status (log_data l) = Declined));
     changedByManagerCount :=
       count (fun l => bool_decide (log_changed_by (log_data l) <> None));
     changedByStaffCount :=
       count
         (fun l => bool_decide (log_changed_by_staff (log_data l) <> None));
     logs := logs_ |}.

(** ** More sample data *)

(** An entry written for a staff member acting alone, in a store that holds
    that staff member. *)
Definition staff_entry : audit_entry :=
  {| audit_data :=
       {| organization_id := VStr "org-1";
          entity_type := "shift_assignment";
          entity_id := "as-1";
          action := AStatusChange;
          performed_by := None;
          performed_by_staff := Some "v1";
          old_values := None;
          new_values := None;
          changed_fields := None;
          ip_address := None;
          user_agent := None;
          metadata := None |};
     audit_created_at := 300 |}.

Definition staffed_ledger : store :=
  {| tables := {[ "staff" := [jane] ]};
     shift_assignments := [];
     shift_assignment_logs := [];
     audit_logs := [staff_entry];
     tx_opened := 0 |}.

(** The values of a new staff member, without an id, and the same with the
    id of a staff member that exists. *)
Definition ann_values : jsobj :=
  {[ "name" := Some (VStr "Ann");
     "organization_id" := Some (VStr "org-1");
     "email" := Some (VStr "ann@example.org");
     "phone" := None ]}.

Definition ann_as_v1 : jsobj := <["id" := Some (VStr "v1")]> ann_values.

(** Updates that reach for a versioning column. *)
Definition rename_and_retire : entries :=
  [("name", VStr "Jane Doe"); ("is_current", VBool false)].

Definition rename_only : entries := [("name", VStr "Jane Doe")].

(** ** Objects and rows *)

(** A closed decidable statement, settled by evaluation. *)
Ltac by_eval := apply (bool_decide_unpack _); vm_compute; exact I.

Lemma assign_lookup (es : entries) (o : row) (k : string) :
  assign es o !! k = match get es k with Some v => Some v | None => o !! k end.
Proof.
  unfold get, assign. revert o. induction es as [|[k' v] es IH]; intros o.
  - simpl. by rewrite lookup_empty.
  - simpl. rewrite (IH (<[k':=v]> o)), (IH (<[k':=v]> ∅)).
    destruct (foldl _ ∅ es !! k); [done|].
    destruct (decide (k' = k)) as [->|Hne].
    + by rewrite !lookup_insert_eq.
    + by rewrite !lookup_insert_ne, lookup_empty.
Qed.

Lemma assign_obj_lookup (es : entries) (o : jsobj) (k : string) :
  assign_obj es o !! k =
  match get es k with Some v => Some (Some v) | None => o !! k end.
Proof.
  unfold get, assign_obj, assign. revert o.
  induction es as [|[k' v] es IH]; intros o.
  - simpl. by rewrite lookup_empty.
  - simpl.
    rewrite (IH (<[k':=Some v]> o)).
    pose proof (assign_lookup es (<[k':=v]> ∅) k) as H.
    unfold assign, get in H. rewrite H. unfold assign.
    destruct (foldl _ ∅ es !! k); [done|].
    destruct (decide (k' = k)) as [->|Hne].
    + by rewrite !lookup_insert_eq.
    + by rewrite !lookup_insert_ne, lookup_empty.
Qed.

Lemma get_is_Some (es : entries) (k : string) :
  is_Some (get es k) <-> k ∈ keys es.
Proof.
  unfold keys. induction es as [|[k' v] es IH] using rev_ind.
  - unfold get. simpl. rewrite lookup_empty. split; [by intros []|].
    intros H. by apply elem_of_nil in H.
  - unfold get, assign in *. rewrite foldl_app, fmap_app. simpl.
    rewrite elem_of_app, list_elem_of_singleton.
    destruct (decide (k' = k)) as [->|Hne].
    + rewrite lookup_insert_eq. split; eauto.
    + rewrite lookup_insert_ne; [|done]. rewrite IH. split; [by left|].
      intros [H|H]; [done|congruence].
Qed.

Lemma foldl_insert_lookup {V} (src : string -> V) (fields : list string)
    (k : string) :
  foldl (fun (acc : gmap string V) f => <[f := src f]> acc) ∅ fields !! k =
  if decide (k ∈ fields) then Some (src k) else None.
Proof.
  induction fields as [|f fields IH] using rev_ind.
  - cbn [foldl]. rewrite lookup_empty.
    destruct (decide (k ∈ [])) as [H|H]; [|done].
    by apply elem_of_nil in H.
  - rewrite foldl_app. cbn [foldl].
    destruct (decide (f = k)) as [->|Hne].
    + rewrite lookup_insert_eq. rewrite decide_True; [done|].
      apply elem_of_app. right. by apply list_elem_of_singleton.
    + rewrite lookup_insert_ne by done. rewrite IH.
      destruct (decide (k ∈ fields)) as [Hin|Hnin],
        (decide (k ∈ fields ++ [f])) as [Hin'|Hnin']; try done.
      * exfalso. apply Hnin'. apply elem_of_app. by left.
      * exfalso. apply elem_of_app in Hin' as [?|Hk]; [done|].
        apply list_elem_of_singleton in Hk. congruence.
Qed.

Lemma changed_snapshots_split (current : row) (updates : entries)
    (fields : list string) :
  changed_snapshots current updates fields =
  (foldl (fun (acc : jsobj) f => <[f := current !! f]> acc) ∅ fields,
   foldl (fun (acc : jsobj) f => <[f := get updates f]> acc) ∅ fields).
Proof.
  unfold changed_snapshots. induction fields as [|f fields IH] using rev_ind.
  - done.
  - rewrite !foldl_app. cbn [foldl]. by rewrite IH.
Qed.

Lemma snapshot_dom {V} (o : gmap string V) (fields : list string)
    (src : string -> V) :
  (forall k, o !! k = if decide (k ∈ fields) then Some (src k) else None) ->
  dom o = list_to_set fields.
Proof.
  intros H. apply set_eq. intros k.
  rewrite elem_of_dom, elem_of_list_to_set, H.
  destruct (decide (k ∈ fields)); split; intros Hk; try done; eauto.
Qed.

(** ** Running [createNewVersion] *)

Lemma get_table_set_table (t : string) (rows : list row) (s : store) :
  get_table (set_table t rows s) t = rows.
Proof. unfold get_table, set_table. simpl. by rewrite lookup_insert_eq. Qed.

Lemma get_table_set_table_ne (t t' : string) (rows : list row) (s : store) :
  t <> t' -> get_table (set_table t rows s) t' = get_table s t'.
Proof.
  intros H. unfold get_table, set_table. simpl. by rewrite lookup_insert_ne.
Qed.

Lemma retirement_keeps (now : Z) (r : row) (k : string) :
  k ∉ ["valid_to"; "is_current"; "updated_at"] ->
  assign (retirement now) r !! k = r !! k.
Proof.
  intros H. unfold assign, retirement. cbn [foldl fst snd].
  rewrite !lookup_insert_ne; [done| | |]; intros <-; apply H; set_solver.
Qed.

Lemma has_id_retired (now : Z) (p : row -> bool) (rows : list row) (i : value) :
  has_id (List.map (fun r => if p r then assign (retirement now) r else r) rows) i
  = has_id rows i.
Proof.
  unfold has_id. induction rows as [|r rows IH]; [done|].
  cbn [List.map existsb]. rewrite IH. f_equal.
  destruct (p r); [|done]. unfold col_eq.
  rewrite retirement_keeps; [done|]. by_eval.
Qed.

Lemma stored_new_version (current : row) (updates : entries)
    (currentId : string) (now : Z) (fresh : string) :
  stored_row (new_version_values current updates currentId now) fresh
  = <["id" := VStr fresh]>
      (omap (fun v => v) (new_version_values current updates currentId now)).
Proof.
  unfold stored_row. rewrite lookup_omap.
  unfold new_version_values. by simplify_map_eq.
Qed.

Section CreateNewVersionRun.
Variables (table currentId : string) (updates : entries).
Variables (performedBy performedByStaff ipAddress userAgent : option string).
Variable metadata_ : option jsobj.
Variables (now : Z) (fresh : string) (stamp : Z).
Variables (s : store) (current : row).
Hypothesis Hcurrent :
  List.find (is_current_version currentId) (get_table s table) = Some current.
Hypothesis Hfresh : has_id (get_table s table) (VStr fresh) = false.

Lemma createNewVersion_run :
  exists s',
    createNewVersion table currentId updates performedBy performedByStaff
      ipAddress userAgent metadata_ now fresh stamp s
    = (Ok (stored_row (new_version_values current updates currentId now) fresh),
       s')
    /\ tables s'
       = <[table :=
             List.map (retire_where currentId now) (get_table s table)
             ++ [stored_row (new_version_values current updates currentId now)
                   fresh]]> (tables s)
    /\ shift_assignments s' = shift_assignments s
    /\ shift_assignment_logs s' = shift_assignment_logs s
    /\ audit_logs s'
       = audit_logs s
         ++ [{| audit_data :=
                  {| organization_id := or_null (current !! "organization_id");
                     entity_type := getEntityType table;
                     entity_id := fresh;
                     action := AUpdate;
                     performed_by := performedBy;
                     performed_by_staff := performedByStaff;
                     old_values :=
                       Some (changed_snapshots current updates (keys updates)).1;
                     new_values :=
                       Some (changed_snapshots current updates (keys updates)).2;
                     changed_fields := Some (keys updates);
                     ip_address := ipAddress;
                     user_agent := userAgent;
                     metadata := metadata_ |};
                audit_created_at := stamp |}]
    /\ tx_opened s' = S (tx_opened s).
Proof.
  unfold createNewVersion, transaction, createNewVersion_body, bind, findFirst.
  change (get_table (begin_tx s) table) with (get_table s table).
  rewrite Hcurrent. unfold update_where, insert_returning.
  rewrite get_table_set_table.
  change (get_table (begin_tx s) table) with (get_table s table).
  rewrite stored_new_version, lookup_insert_eq.
  change (fun r : row => if col_eq "id" (VStr currentId) r
                         then assign (retirement now) r else r)
    with (retire_where currentId now).
  unfold retire_where at 1. rewrite has_id_retired, Hfresh.
  eexists. split; [reflexivity|].
  unfold insert_audit, ret, push_audit, set_table, row_id. simpl.
  rewrite lookup_insert_eq, insert_insert_eq. done.
Qed.

(** X1. When the insert of the new row fails, the retirement before it is
    undone with the transaction. *)
Lemma createNewVersion_rolls_back :
  has_id (get_table s table) (VStr fresh) = true ->
  createNewVersion table currentId updates performedBy performedByStaff
    ipAddress userAgent metadata_ now fresh stamp s
  = (Err (UniqueViolation table "id"), begin_tx s).
Proof.
  intros Htaken.
  unfold createNewVersion, transaction, createNewVersion_body, bind, findFirst.
  change (get_table (begin_tx s) table) with (get_table s table).
  rewrite Hcurrent. unfold update_where, insert_returning.
  rewrite get_table_set_table.
  change (get_table (begin_tx s) table) with (get_table s table).
  rewrite stored_new_version, lookup_insert_eq.
  by rewrite has_id_retired, Htaken.
Qed.
End CreateNewVersionRun.

Lemma retirement_is_retirement (now : Z) (r : row) :
  is_retirement_of now r (assign (retirement now) r).
Proof.
  split; [|split].
  - unfold assign, retirement. cbn [foldl fst snd]. by simplify_map_eq.
  - unfold assign, retirement. cbn [foldl fst snd]. by simplify_map_eq.
  - apply retirement_keeps.
Qed.

Lemma new_version_is_successor (currentId fresh : string) (now : Z)
    (updates : entries) (current : row) :
  is_successor_of currentId fresh now updates current
    (stored_row (new_version_values current updates currentId now) fresh).
Proof.
  rewrite stored_new_version. unfold is_successor_of, new_version_values.
  repeat split; try (rewrite ?lookup_insert_eq, ?lookup_insert_ne by done;
    rewrite ?lookup_omap; by simplify_map_eq).
  intros k Hk. unfold managed_fields in Hk.
    rewrite lookup_insert_ne by (intros <-; apply Hk; by_eval).
    rewrite lookup_omap.
    rewrite !lookup_insert_ne by (intros <-; apply Hk; by_eval).
    rewrite assign_obj_lookup, lookup_fmap.
    destruct (get updates k); [done|]. by destruct (current !! k).
Qed.

Lemma update_entry_snapshots (entityId : string) (current : row)
    (updates : entries) (e : audit_values) :
  action e = AUpdate -> entity_id e = entityId ->
  changed_fields e = Some (keys updates) ->
  old_values e = Some (changed_snapshots current updates (keys updates)).1 ->
  new_values e = Some (changed_snapshots current updates (keys updates)).2 ->
  is_update_entry entityId current updates e.
Proof.
  intros Ha Hi Hc Ho Hn. split; [done|]. split; [done|]. split; [done|].
  rewrite changed_snapshots_split in Ho, Hn. cbn [fst snd] in Ho, Hn.
  eexists _, _. split; [exact Ho|]. split; [exact Hn|].
  split; [|split].
  - eapply snapshot_dom. apply foldl_insert_lookup.
  - eapply snapshot_dom. apply foldl_insert_lookup.
  - intros k Hk. rewrite !foldl_insert_lookup. by rewrite !decide_True.
Qed.

Lemma find_is_current_version (currentId : string) (rows : list row)
    (current : row) :
  List.find (is_current_version currentId) rows = Some current ->
  In current rows
  /\ current !! "id" = Some (VStr currentId)
  /\ current !! "is_current" = Some (VBool true).
Proof.
  intros H. apply find_some in H as [Hin Hp]. split; [done|].
  unfold is_current_version, col_eq in Hp.
  apply andb_true_iff in Hp as [H1 H2].
  by apply bool_decide_eq_true in H1, H2.
Qed.

Lemma has_id_false (rows : list row) (r : row) (i : value) :
  has_id rows i = false -> In r rows -> r !! "id" <> Some i.
Proof.
  unfold has_id. intros H Hin Hid.
  assert (existsb (col_eq "id" i) rows = true) as Ht; [|congruence].
  apply existsb_exists. exists r. split; [done|].
  unfold col_eq. by apply bool_decide_eq_true.
Qed.

Section CreateNewVersionCorrect.
Variables (table currentId : string) (updates : entries).
Variables (performedBy performedByStaff ipAddress userAgent : option string).
Variable metadata_ : option jsobj.
Variables (now : Z) (fresh : string) (stamp : Z).
Variable s : store.

(** C1. When the table holds a row [current] with id [currentId] and
    [is_current = true] (and the generated uuid is not yet a key of the
    table), [createNewVersion] succeeds. Afterwards the table is the table
    as it was with that row retired ([valid_to = now], [is_current = false])
    followed by exactly one new row; no row with id [currentId] is current
    any more; the new row copies every field of [current] overlaid with
    [updates], except that it has the new id, [previous_version_id =
    currentId], [valid_from = now], [valid_to = null], [is_current = true],
    the [created_at] of [current], and [updated_at = now]; and the ledger
    has exactly one more entry, with action update, the id of the new row,
    the keys of [updates] as changed fields, and old and new snapshots over
    exactly those keys, read from [current] and from [updates]. Nothing else
    in the store changes. *)
Theorem createNewVersion_correct (current : row) :
  List.find (is_current_version currentId) (get_table s table) = Some current ->
  has_id (get_table s table) (VStr fresh) = false ->
  exists (newVersion : row) (e : audit_entry) (s' : store),
    createNewVersion table currentId updates performedBy performedByStaff
      ipAddress userAgent metadata_ now fresh stamp s = (Ok newVersion, s')
    /\ get_table s' table
       = List.map (retire_where currentId now) (get_table s table)
         ++ [newVersion]
    /\ retire_where currentId now current = assign (retirement now) current
    /\ is_retirement_of now current (assign (retirement now) current)
    /\ List.find (is_current_version currentId)
         (List.map (retire_where currentId now) (get_table s table)) = None
    /\ fresh <> currentId
    /\ is_successor_of currentId fresh now updates current newVersion
    /\ audit_logs s' = audit_logs s ++ [e]
    /\ is_update_entry (row_id newVersion) current updates (audit_data e)
    /\ row_id newVersion = fresh
    /\ (forall t, t <> table -> get_table s' t = get_table s t)
    /\ shift_assignments s' = shift_assignments s
    /\ shift_assignment_logs s' = shift_assignment_logs s.
Proof.
  intros Hcur Hfresh.
  destruct (createNewVersion_run table currentId updates performedBy
              performedByStaff ipAddress userAgent metadata_ now fresh stamp
              s current Hcur Hfresh)
    as (s' & Hrun & Htab & Hasg & Hlog & Haud & _).
  destruct (find_is_current_version _ _ _ Hcur) as (Hin & Hid & Hic).
  pose proof (new_version_is_successor currentId fresh now updates current)
    as Hsucc.
  assert (row_id (stored_row (new_version_values current updates currentId now)
                    fresh) = fresh) as Hrid.
  { unfold row_id. destruct Hsucc as [-> _]. done. }
  eexists _, _, s'. split; [exact Hrun|].
  split. { unfold get_table. rewrite Htab. by rewrite lookup_insert_eq. }
  split. { unfold retire_where, col_eq. by rewrite Hid, bool_decide_eq_true_2. }
  split. { apply retirement_is_retirement. }
  split.
  { destruct (List.find _ (List.map _ _)) as [r|] eqn:E; [exfalso|done].
    apply find_some in E as [Hr Hp]. apply in_map_iff in Hr as (r0 & <- & _).
    unfold is_current_version, retire_where in Hp.
    apply andb_true_iff in Hp as [H1 H2].
    destruct (col_eq "id" (VStr currentId) r0) eqn:E0.
    - unfold col_eq in H2. apply bool_decide_eq_true in H2.
      destruct (retirement_is_retirement now r0) as (_ & H3 & _). congruence.
    - congruence. }
  split. { intros ->. by apply (has_id_false _ _ _ Hfresh Hin). }
  split; [exact Hsucc|].
  split; [exact Haud|].
  split. { rewrite Hrid. by apply update_entry_snapshots. }
  split; [exact Hrid|].
  split. { intros t Ht. unfold get_table. rewrite Htab.
           by rewrite lookup_insert_ne. }
  done.
Qed.

(** C2. When no row of the table has id [currentId] and [is_current = true]
    (there is none with that id, or it is retired), [createNewVersion] fails
    with the error 'Current version not found'; the body of the transaction
    throws before any write, and afterwards the tables, the assignments and
    both logs are what they were. *)
Theorem createNewVersion_not_found :
  (forall r, In r (get_table s table) -> r !! "id" = Some (VStr currentId) ->
     r !! "is_current" <> Some (VBool true)) ->
  exists s' : store,
    createNewVersion table currentId updates performedBy performedByStaff
      ipAddress userAgent metadata_ now fresh stamp s
    = (Err (JsError "Current version not found"), s')
    /\ createNewVersion_body table currentId updates performedBy
         performedByStaff ipAddress userAgent metadata_ now fresh stamp
         (begin_tx s)
       = (Err (JsError "Current version not found"), begin_tx s)
    /\ tables s' = tables s
    /\ shift_assignments s' = shift_assignments s
    /\ shift_assignment_logs s' = shift_assignment_logs s
    /\ audit_logs s' = audit_logs s.
Proof.
  intros Hnone.
  assert (List.find (is_current_version currentId) (get_table s table) = None)
    as Hfind.
  { destruct (List.find _ _) as [r|] eqn:E; [exfalso|done].
    apply find_is_current_version in E as (Hin & Hid & Hic).
    by apply (Hnone r). }
  assert (createNewVersion_body table currentId updates performedBy
            performedByStaff ipAddress userAgent metadata_ now fresh stamp
            (begin_tx s)
          = (Err (JsError "Current version not found"), begin_tx s)) as Hbody.
  { unfold createNewVersion_body, bind, findFirst.
    change (get_table (begin_tx s) table) with (get_table s table).
    by rewrite Hfind. }
  exists (begin_tx s). split; [|done].
  unfold createNewVersion, transaction. by rewrite Hbody.
Qed.
End CreateNewVersionCorrect.

Lemma getEntityType_registered :
  List.map getEntityType registered_tables
  = [Text "organization"; Text "user"; Text "role"; Text "staff";
     Text "shift"; Text "shift_assignment"].
Proof. reflexivity. Qed.


(** ** Sorting *)

Lemma insert_sorted_perm {A} (cmp : A -> A -> Z) (x : A) (l : list A) :
  Permutation (insert_sorted cmp x l) (x :: l).
Proof.
  induction l as [|y l IH]; [done|]. cbn [insert_sorted].
  destruct (cmp x y <=? 0); [done|].
  rewrite IH. apply perm_swap.
Qed.

Lemma sort_with_perm {A} (cmp : A -> A -> Z) (l : list A) :
  Permutation (sort_with cmp l) l.
Proof.
  induction l as [|x l IH]; [done|]. unfold sort_with in *. cbn [foldr].
  rewrite insert_sorted_perm. by constructor.
Qed.

Section SortByKey.
Context {A : Type} (key : A -> Z).

Lemma insert_sorted_desc (x : A) (l : list A) :
  StronglySorted (fun a b => key b <= key a) l ->
  StronglySorted (fun a b => key b <= key a)
    (insert_sorted (fun a b => key b - key a) x l).
Proof.
  induction 1 as [|y l Hl IH Hy]; cbn [insert_sorted].
  - repeat constructor.
  - destruct (Z.leb_spec (key y - key x) 0) as [Hle|Hgt].
    + constructor; [by constructor|]. constructor; [lia|].
      eapply Forall_impl; [exact Hy|]. intros z Hz. simpl in Hz. lia.
    + constructor; [exact IH|].
      eapply Permutation_Forall; [symmetry; apply insert_sorted_perm|].
      constructor; [lia|exact Hy].
Qed.

Lemma sort_with_desc (l : list A) :
  StronglySorted (fun a b => key b <= key a)
    (sort_with (fun a b => key b - key a) l).
Proof.
  induction l as [|x l IH]; [constructor|].
  unfold sort_with in *. cbn [foldr]. by apply insert_sorted_desc.
Qed.
End SortByKey.

(** ** Following a chain backwards *)

Lemma history_loop_walk (rows : list row) (i : option value) (l : list row) :
  walk rows i l ->
  forall (fuel : nat) (versions : list row),
    (length l < fuel)%nat ->
    history_loop fuel rows i versions = Some (versions ++ l).
Proof.
  induction 1 as [i Hi|i Hi Hf|i r l Hi Hf _ IH]; intros fuel versions Hlen;
    (destruct fuel as [|fuel]; [simpl in Hlen; lia|]); cbn [history_loop].
  - by rewrite Hi, app_nil_r.
  - by rewrite Hi, Hf, app_nil_r.
  - rewrite Hi, Hf. rewrite IH by (simpl in Hlen; lia).
    by rewrite <- app_assoc.
Qed.

Lemma history_loop_Some (rows : list row) (fuel : nat) :
  forall (i : option value) (versions result : list row),
    history_loop fuel rows i versions = Some result ->
    exists l, walk rows i l /\ result = versions ++ l /\ (length l < fuel)%nat.
Proof.
  induction fuel as [|fuel IH]; intros i versions result H; [done|].
  cbn [history_loop] in H. destruct (truthy i) eqn:Hi.
  - destruct (List.find (col_is "id" i) rows) as [r|] eqn:Hf.
    + apply IH in H as (l & Hw & -> & Hlen). exists (r :: l).
      split; [by apply walk_step|]. split; [by rewrite <- app_assoc|].
      simpl. lia.
    + injection H as <-. exists []. split; [by apply walk_missing|].
      split; [by rewrite app_nil_r|]. simpl. lia.
  - injection H as <-. exists []. split; [by apply walk_end|].
    split; [by rewrite app_nil_r|]. simpl. lia.
Qed.

Lemma history_loop_None (rows : list row) (fuel : nat) :
  forall (i : option value) (versions : list row),
    history_loop fuel rows i versions = None ->
    exists l, path rows i l /\ length l = fuel.
Proof.
  induction fuel as [|fuel IH]; intros i versions H.
  - exists []. split; [constructor|done].
  - cbn [history_loop] in H. destruct (truthy i) eqn:Hi; [|done].
    destruct (List.find (col_is "id" i) rows) as [r|] eqn:Hf; [|done].
    apply IH in H as (l & Hp & Hlen). exists (r :: l).
    split; [by apply path_step|]. simpl. by rewrite Hlen.
Qed.

Lemma path_incl (rows : list row) (i : option value) (l : list row) :
  path rows i l -> incl l rows.
Proof.
  induction 1 as [|i r l _ Hf _ IH]; [by intros ? ?|].
  apply find_some in Hf as [Hin _]. intros x [<-|Hx]; [done|by apply IH].
Qed.

Lemma walk_path (rows : list row) (i : option value) (l : list row) :
  walk rows i l -> path rows i l.
Proof. induction 1; by constructor. Qed.

Lemma chain_walk (rows : list row) (L : list row) :
  chain rows L ->
  forall r post, L = r :: post -> walk rows (r !! "id") (r :: post).
Proof.
  induction 1 as [r (i & Hi & Hid & Hf) Hp|r r' l (i & Hi & Hid & Hf) Hp _ IH];
    intros r0 post [= <- <-].
  - rewrite Hid. apply walk_step; [|done|].
    + simpl. by destruct i.
    + rewrite Hp. by apply walk_end.
  - rewrite Hid. apply walk_step; [|done|].
    + simpl. by destruct i.
    + rewrite Hp. by apply IH.
Qed.

Lemma chain_suffix (rows : list row) (L : list row) :
  chain rows L -> forall pre r post, L = pre ++ r :: post ->
  chain rows (r :: post).
Proof.
  induction 1 as [r Hs Hp|r r' l Hs Hp Hc IH]; intros pre r0 post HL.
  - destruct pre as [|x pre]; simpl in HL.
    + injection HL as <- <-. by apply chain_root.
    + injection HL as _ HL. by destruct pre.
  - destruct pre as [|x pre]; simpl in HL.
    + injection HL as <- <-. by apply chain_cons.
    + injection HL as _ HL. by eapply IH.
Qed.

(** ** The history of an entity *)

Lemma history_loop_missing (rows : list row) (i : option value)
    (versions : list row) (fuel : nat) :
  truthy i = true -> List.find (col_is "id" i) rows = None ->
  history_loop (S fuel) rows i versions = Some versions.
Proof. intros Hi Hf. cbn [history_loop]. by rewrite Hi, Hf. Qed.

Lemma getEntityHistory_walk (table entityId : string) (s : store)
    (l : list row) (fuel : nat) :
  walk (get_table s table) (Some (VStr entityId)) l ->
  (length l < fuel)%nat ->
  getEntityHistory fuel table entityId s
  = Some (sort_with (fun a b => valid_from b - valid_from a) l).
Proof.
  intros Hw Hlen. unfold getEntityHistory.
  by rewrite (history_loop_walk _ _ _ Hw fuel [] Hlen).
Qed.

(** What [getEntityHistory] does return. For a lineage satisfying I1 and any
    of its rows [r], [getEntityHistory] started from [r] returns [r] and the
    versions before it, each once, newest first by [valid_from]; the
    versions that came after [r] are not looked for. Started from the head
    of the lineage this is every row of the lineage. *)
Theorem getEntityHistory_lineage (table : string) (s : store)
    (L pre post : list row) (r : row) :
  lineage (get_table s table) L ->
  L = pre ++ r :: post ->
  exists result,
    (forall fuel, (length post + 2 <= fuel)%nat ->
       getEntityHistory fuel table (row_id r) s = Some result)
    /\ Permutation result (r :: post)
    /\ NoDup result
    /\ newest_first result
    /\ (pre = [] -> Permutation result L).
Proof.
  intros (Hchain & Hnd & _ & _) HL.
  pose proof (chain_suffix _ _ Hchain _ _ _ HL) as Hsuf.
  pose proof (chain_walk _ _ Hsuf _ _ eq_refl) as Hw.
  assert (r !! "id" = Some (VStr (row_id r))) as Hid.
  { inversion Hsuf as [? (i & _ & Hi & _) ?|? ? ? (i & _ & Hi & _) ? ?];
      subst; unfold row_id; by rewrite Hi. }
  rewrite Hid in Hw.
  exists (sort_with (fun a b => valid_from b - valid_from a) (r :: post)).
  split; [|split; [|split; [|split]]].
  - intros fuel Hfuel. apply getEntityHistory_walk; [done|]. simpl. lia.
  - apply sort_with_perm.
  - rewrite sort_with_perm.
    apply NoDup_fmap_1 in Hnd. rewrite HL in Hnd.
    by apply NoDup_app in Hnd as (_ & _ & Hnd).
  - apply (sort_with_desc valid_from).
  - intros ->. rewrite HL. apply sort_with_perm.
Qed.

(** C6, as the code has it. On every table in which following
    [previous_version_id] from the start id never meets a row twice (as I1
    guarantees), [getEntityHistory] terminates, after at most one step per
    row of the table: the walk ends at a null or empty predecessor or at an
    id that names no row, and the rows met so far are returned, sorted. The
    loop has neither a cap nor a check for repeated ids. *)
Theorem getEntityHistory_terminates (table entityId : string) (s : store) :
  (forall l, path (get_table s table) (Some (VStr entityId)) l -> NoDup l) ->
  exists visited,
    walk (get_table s table) (Some (VStr entityId)) visited
    /\ (length visited <= length (get_table s table))%nat
    /\ forall fuel, (length (get_table s table) + 1 <= fuel)%nat ->
         getEntityHistory fuel table entityId s
         = Some (sort_with (fun a b => valid_from b - valid_from a) visited).
Proof.
  intros Hacyclic. set (rows := get_table s table) in *.
  destruct (history_loop (S (length rows)) rows (Some (VStr entityId)) [])
    as [result|] eqn:Hrun.
  - apply history_loop_Some in Hrun as (l & Hw & _ & Hlen).
    exists l. split; [done|]. split; [lia|].
    intros fuel Hfuel. apply getEntityHistory_walk; [done|lia].
  - apply history_loop_None in Hrun as (l & Hp & Hlen). exfalso.
    pose proof (NoDup_incl_length (proj1 (NoDup_ListNoDup l) (Hacyclic l Hp))
                  (path_incl _ _ _ Hp)). lia.
Qed.

Lemma jane_versions_lineage :
  lineage (get_table (staff_store [jane_v1; jane_v2]) "staff")
    [jane_v2; jane_v1].
Proof.
  change (get_table (staff_store [jane_v1; jane_v2]) "staff")
    with [jane_v1; jane_v2].
  split; [|split; [|split]].
  - apply chain_cons.
    + exists "v2". split; [done|]. split; by_eval.
    + by_eval.
    + apply chain_root; [|by_eval].
      exists "v1". split; [done|]. split; by_eval.
  - by_eval.
  - exists jane_v2, [jane_v1]. split; [reflexivity|]. split; [by_eval|].
    intros r [<-|[]]. by_eval.
  - intros r r' _ [<-|[<-|[]]] _; [right; by left|by left].
Qed.

Lemma jane_versions_differ : jane_v2 <> jane_v1.
Proof.
  intros H. apply (f_equal (lookup "id")) in H.
  assert (jane_v2 !! "id" = Some (VStr "v2")) as H2 by by_eval.
  assert (jane_v1 !! "id" = Some (VStr "v1")) as H1 by by_eval.
  rewrite H1, H2 in H. discriminate H.
Qed.

Lemma jane_v1_walk :
  walk (get_table (staff_store [jane_v1; jane_v2]) "staff")
    (Some (VStr "v1")) [jane_v1].
Proof.
  apply walk_step; [reflexivity|by_eval|].
  apply walk_end. by_eval.
Qed.

(** C3 fails on the code. The function is documented as fetching the
    complete history of an entity, all versions of the record, but its loop
    only walks back: started from the first version of a lineage of two,
    [getEntityHistory] returns that version alone and never the second. *)
Lemma getEntityHistory_misses_later_versions :
  lineage (get_table (staff_store [jane_v1; jane_v2]) "staff")
    [jane_v2; jane_v1]
  /\ In jane_v1 [jane_v2; jane_v1]
  /\ getEntityHistory 2 "staff" "v1" (staff_store [jane_v1; jane_v2])
     = Some [jane_v1]
  /\ ~ exists fuel result,
         getEntityHistory fuel "staff" "v1" (staff_store [jane_v1; jane_v2])
         = Some result
         /\ In jane_v2 result.
Proof.
  split; [exact jane_versions_lineage|]. split; [right; by left|].
  split; [by_eval|].
  intros (fuel & result & Hrun & Hin).
  destruct fuel as [|[|fuel]]; [discriminate Hrun| |].
  - assert (getEntityHistory 1 "staff" "v1" (staff_store [jane_v1; jane_v2])
            = None) as E by by_eval.
    rewrite E in Hrun. discriminate Hrun.
  - rewrite (getEntityHistory_walk _ _ _ _ _ jane_v1_walk) in Hrun
      by (simpl; lia).
    apply (inj Some) in Hrun. subst result.
    unfold sort_with in Hin. cbn [foldr insert_sorted] in Hin.
    destruct Hin as [H|[]]. by apply jane_versions_differ.
Qed.

Lemma getEntityHistory_lineage_witness :
  exists result,
    getEntityHistory 3 "staff" "v2" (staff_store [jane_v1; jane_v2])
    = Some result
    /\ Permutation result [jane_v2; jane_v1].
Proof.
  destruct (getEntityHistory_lineage "staff"
              (staff_store [jane_v1; jane_v2]) [jane_v2; jane_v1] []
              [jane_v1] jane_v2 jane_versions_lineage eq_refl)
    as (result & Hrun & Hperm & _).
  exists result. split; [|exact Hperm]. apply (Hrun 3%nat). by_eval.
Defined.

Lemma looped_history_loop (fuel : nat) (versions : list row) :
  history_loop fuel [looped] (Some (VStr "v1")) versions = None.
Proof.
  revert versions. induction fuel as [|fuel IH]; intros versions; [done|].
  cbn [history_loop].
  assert (truthy (Some (VStr "v1")) = true) as -> by reflexivity.
  assert (List.find (col_is "id" (Some (VStr "v1"))) [looped] = Some looped)
    as -> by by_eval.
  assert (looped !! "previous_version_id" = Some (VStr "v1")) as -> by by_eval.
  apply IH.
Qed.

(** C6 as stated fails: on a row that names itself as its predecessor the
    loop of [getEntityHistory] never ends. *)
Lemma getEntityHistory_diverges_on_cycle :
  ~ exists fuel result,
      getEntityHistory fuel "staff" "v1" (staff_store [looped]) = Some result.
Proof.
  intros (fuel & result & Hrun). unfold getEntityHistory in Hrun.
  change (get_table (staff_store [looped]) "staff") with [looped] in Hrun.
  by rewrite looped_history_loop in Hrun.
Qed.

Lemma jane_path_NoDup (l : list row) :
  path (get_table (staff_store [jane_v1; jane_v2]) "staff")
    (Some (VStr "v2")) l ->
  NoDup l.
Proof.
  change (get_table (staff_store [jane_v1; jane_v2]) "staff")
    with [jane_v1; jane_v2].
  assert (forall (i : option value) (r x : row),
            List.find (col_is "id" i) [jane_v1; jane_v2] = Some r ->
            List.find (col_is "id" i) [jane_v1; jane_v2] = Some x -> x = r)
    as Hsame by (intros; congruence).
  intros H. inversion H as [|? r1 l1 _ Hf1 H1]; subst; [constructor|].
  apply (Hsame _ jane_v2) in Hf1; [subst r1|by_eval].
  assert (jane_v2 !! "previous_version_id" = Some (VStr "v1")) as E2
    by by_eval.
  rewrite E2 in H1.
  inversion H1 as [|? r2 l2 _ Hf2 H2]; subst.
  { repeat constructor. by intros ?%elem_of_nil. }
  apply (Hsame _ jane_v1) in Hf2; [subst r2|by_eval].
  assert (jane_v1 !! "previous_version_id" = Some VNull) as E1 by by_eval.
  rewrite E1 in H2.
  inversion H2 as [|? r3 l3 Ht _ _]; subst; [|done].
  apply NoDup_cons. split; [|apply NoDup_cons; split; [|constructor]].
  - intros Hin%list_elem_of_singleton. by apply jane_versions_differ.
  - by intros ?%elem_of_nil.
Qed.

Lemma getEntityHistory_terminates_witness :
  exists visited,
    getEntityHistory 3 "staff" "v2" (staff_store [jane_v1; jane_v2])
    = Some (sort_with (fun a b => valid_from b - valid_from a) visited).
Proof.
  destruct (getEntityHistory_terminates "staff" "v2"
              (staff_store [jane_v1; jane_v2]) jane_path_NoDup)
    as (visited & _ & _ & Hrun).
  exists visited. apply (Hrun 3%nat). by_eval.
Defined.

(** ** Resolving the current version *)

Lemma keyed_find (rows : list row) (r : row) :
  keyed rows -> In r rows ->
  List.find (col_is "id" (r !! "id")) rows = Some r.
Proof.
  intros [Hrows Hnd] Hin.
  destruct (Hrows r Hin) as [(i & _ & Hid) _]. rewrite Hid.
  change (col_is "id" (Some (VStr i))) with (col_eq "id" (VStr i)).
  assert (forall x, In x rows -> col_eq "id" (VStr i) x = true ->
                    row_id x = i) as Hkey.
  { intros x _ Hx. apply bool_decide_eq_true in Hx.
    unfold row_id. by rewrite Hx. }
  assert (row_id r = i) as Hr by (unfold row_id; by rewrite Hid).
  clear Hrows. induction rows as [|x rows IH]; [done|].
  cbn [List.find]. destruct (col_eq "id" (VStr i) x) eqn:Hx.
  - destruct Hin as [->|Hin]; [done|]. exfalso.
    rewrite fmap_cons in Hnd. apply NoDup_cons in Hnd as [Hnotin _].
    apply Hnotin. rewrite (Hkey x (or_introl eq_refl) Hx), <- Hr.
    apply list_elem_of_fmap. exists r. split; [done|].
    by apply list_elem_of_In.
  - destruct Hin as [->|Hin].
    + unfold col_eq in Hx. by rewrite Hid, bool_decide_eq_true_2 in Hx.
    + rewrite fmap_cons in Hnd. apply NoDup_cons in Hnd as [_ Hnd].
      apply IH; [done|done|]. intros y Hy. apply Hkey. by right.
Qed.

Lemma find_col_is_id (rows : list row) (i : option value) (v : row) :
  List.find (col_is "id" i) rows = Some v -> In v rows /\ v !! "id" = i.
Proof.
  intros H. apply find_some in H as [Hin Hp]. split; [done|].
  destruct i as [i|]; [|done]. by apply bool_decide_eq_true in Hp.
Qed.

Lemma keyed_truthy_id (rows : list row) (r : row) :
  keyed rows -> In r rows -> truthy (r !! "id") = true.
Proof.
  intros [Hrows _] Hin. destruct (Hrows r Hin) as [(i & Hi & ->) _].
  simpl. by destruct i.
Qed.

Lemma current_loop_resolves (rows : list row) (v h : row) :
  keyed rows -> resolves rows v h -> In v rows ->
  exists n, forall fuel, (n <= fuel)%nat ->
    current_loop fuel rows (v !! "id") = Some (Some h).
Proof.
  intros Hk. induction 1 as [v Hc|v Hc Hf|v newer h Hc Hf _ IH]; intros Hin.
  - exists 1%nat. intros [|fuel] Hfuel; [lia|]. cbn [current_loop].
    rewrite (keyed_truthy_id _ _ Hk Hin), (keyed_find _ _ Hk Hin).
    by rewrite Hc.
  - exists 1%nat. intros [|fuel] Hfuel; [lia|]. cbn [current_loop].
    rewrite (keyed_truthy_id _ _ Hk Hin), (keyed_find _ _ Hk Hin).
    by rewrite Hc, Hf.
  - destruct IH as [n Hn]; [by apply find_some in Hf as [? _]|].
    exists (S n). intros [|fuel] Hfuel; [lia|]. cbn [current_loop].
    rewrite (keyed_truthy_id _ _ Hk Hin), (keyed_find _ _ Hk Hin).
    rewrite Hc, Hf. simpl. apply Hn. lia.
Qed.

Lemma current_loop_Some (rows : list row) (fuel : nat) :
  keyed rows ->
  forall (i : option value) (h : row),
    current_loop fuel rows i = Some (Some h) ->
    exists v, List.find (col_is "id" i) rows = Some v /\ resolves rows v h.
Proof.
  intros Hk. induction fuel as [|fuel IH]; intros i h H; [done|].
  cbn [current_loop] in H. destruct (truthy i) eqn:Hi; [|done].
  destruct (List.find (col_is "id" i) rows) as [v|] eqn:Hf; [|done].
  exists v. split; [done|].
  destruct (find_col_is_id _ _ _ Hf) as [Hin Hid].
  destruct (proj1 Hk v Hin) as [_ ([|] & Hb)]; rewrite Hb in H; simpl in H.
  - injection H as <-. by apply resolves_current.
  - rewrite <- Hid in H.
    destruct (List.find (col_is "previous_version_id" (v !! "id")) rows)
      as [newer|] eqn:Hn.
    + apply IH in H as (v' & Hf' & Hres).
      apply find_some in Hn as Hn'. destruct Hn' as [Hnin _].
      rewrite (keyed_find _ _ Hk Hnin) in Hf'. injection Hf' as <-.
      by eapply resolves_advance.
    + injection H as <-. by apply resolves_fallback.
Qed.

Lemma current_loop_null (rows : list row) (fuel : nat) :
  keyed rows ->
  forall i : option value,
    current_loop fuel rows i = Some None ->
    truthy i = false \/ List.find (col_is "id" i) rows = None.
Proof.
  intros Hk. induction fuel as [|fuel IH]; intros i H; [done|].
  cbn [current_loop] in H. destruct (truthy i) eqn:Hi; [|by left].
  destruct (List.find (col_is "id" i) rows) as [v|] eqn:Hf; [|by right].
  exfalso. destruct (truthy (v !! "is_current")); [done|].
  destruct (List.find (col_is "previous_version_id" i) rows)
    as [newer|] eqn:Hn; [|done].
  apply find_some in Hn as [Hnin _].
  apply IH in H as [H|H].
  - by rewrite (keyed_truthy_id _ _ Hk Hnin) in H.
  - by rewrite (keyed_find _ _ Hk Hnin) in H.
Qed.

Lemma keyed_find_empty (rows : list row) :
  keyed rows -> List.find (col_eq "id" (VStr "")) rows = None.
Proof.
  intros [Hrows _]. destruct (List.find _ rows) as [r|] eqn:Hf; [|done].
  apply find_some in Hf as [Hin Hp]. apply bool_decide_eq_true in Hp.
  destruct (Hrows r Hin) as [(i & Hi & Hid) _]. congruence.
Qed.

(** C7. On a table keyed by uuid, [getCurrentVersion] answers null when
    no row has the starting id; otherwise, starting from the row [v] with
    that id, it answers the row the forward walk arrives at: [v] when [v] is
    current, else the answer for the row that names [v] as its predecessor,
    and [v] itself, current or not, when no row does. It answers nothing
    else. *)
Theorem getCurrentVersion_resolves (table originalId : string) (s : store) :
  keyed (get_table s table) ->
  (List.find (col_eq "id" (VStr originalId)) (get_table s table) = None ->
   forall fuel, (1 <= fuel)%nat ->
     getCurrentVersion fuel table originalId s = Some None)
  /\ (forall v h,
        List.find (col_eq "id" (VStr originalId)) (get_table s table) = Some v ->
        resolves (get_table s table) v h ->
        exists n, forall fuel, (n <= fuel)%nat ->
          getCurrentVersion fuel table originalId s = Some (Some h))
  /\ (forall fuel h,
        getCurrentVersion fuel table originalId s = Some (Some h) ->
        exists v,
          List.find (col_eq "id" (VStr originalId)) (get_table s table) = Some v
          /\ resolves (get_table s table) v h)
  /\ (forall fuel,
        getCurrentVersion fuel table originalId s = Some None ->
        List.find (col_eq "id" (VStr originalId)) (get_table s table) = None).
Proof.
  intros Hk. unfold getCurrentVersion. split; [|split; [|split]].
  - intros Hf [|fuel] Hfuel; [lia|]. cbn [current_loop].
    destruct (truthy (Some (VStr originalId))); [|done].
    change (col_is "id" (Some (VStr originalId)))
      with (col_eq "id" (VStr originalId)).
    by rewrite Hf.
  - intros v h Hf Hres.
    destruct (find_col_is_id _ (Some (VStr originalId)) _ Hf) as [Hin Hid].
    rewrite <- Hid. by apply current_loop_resolves.
  - intros fuel h H. by apply (current_loop_Some _ fuel Hk) in H.
  - intros fuel H. apply (current_loop_null _ fuel Hk) in H as [H|H]; [|done].
    simpl in H. apply negb_false_iff, String.eqb_eq in H. subst.
    by apply keyed_find_empty.
Qed.

Lemma jane_versions_keyed :
  keyed (get_table (staff_store [jane_v1; jane_v2]) "staff").
Proof.
  change (get_table (staff_store [jane_v1; jane_v2]) "staff")
    with [jane_v1; jane_v2].
  split; [|by_eval].
  intros r [<-|[<-|[]]].
  - split; [exists "v1"; split; [done|by_eval]|exists false; by_eval].
  - split; [exists "v2"; split; [done|by_eval]|exists true; by_eval].
Qed.

Lemma getCurrentVersion_resolves_witness :
  exists n, forall fuel, (n <= fuel)%nat ->
    getCurrentVersion fuel "staff" "v1" (staff_store [jane_v1; jane_v2])
    = Some (Some jane_v2).
Proof.
  assert (resolves (get_table (staff_store [jane_v1; jane_v2]) "staff")
            jane_v1 jane_v2) as Hres.
  { apply (resolves_advance _ jane_v1 jane_v2 jane_v2); [by_eval|by_eval|].
    apply resolves_current. by_eval. }
  assert (List.find (col_eq "id" (VStr "v1"))
            (get_table (staff_store [jane_v1; jane_v2]) "staff")
          = Some jane_v1) as Hfind by by_eval.
  exact (proj1 (proj2 (getCurrentVersion_resolves "staff" "v1"
                         (staff_store [jane_v1; jane_v2]) jane_versions_keyed))
           jane_v1 jane_v2 Hfind Hres).
Defined.

(** The fallback of the forward walk: a retired row that no row names as
    its predecessor is answered as if it were the head. *)
Lemma getCurrentVersion_fallback_example :
  getCurrentVersion 1 "staff" "v1" (staff_store [jane_v1]) = Some (Some jane_v1)
  /\ jane_v1 !! "is_current" = Some (VBool false).
Proof. split; by_eval. Qed.

(** ** [createNewVersion] on the sample data *)

Lemma jane_is_current :
  List.find (is_current_version "v1") (get_table (staff_store [jane]) "staff")
  = Some jane.
Proof. by_eval. Qed.

Lemma jane_v2_is_fresh :
  has_id (get_table (staff_store [jane]) "staff") (VStr "v2") = false.
Proof. by_eval. Qed.

(** The scenario of the specification: renaming Jane. *)
Lemma createNewVersion_jane :
  let run :=
    createNewVersion "staff" "v1" [("name", VStr "Jane Doe")] (Some "u1") None
      None None None 2000 "v2" 2001 (staff_store [jane]) in
  run.1 = Ok jane_v2
  /\ get_table run.2 "staff" = [assign (retirement 2000) jane; jane_v2]
  /\ assign (retirement 2000) jane !! "is_current" = Some (VBool false)
  /\ assign (retirement 2000) jane !! "valid_to" = Some (VTime 2000)
  /\ (fun e => (action (audit_data e), changed_fields (audit_data e),
                old_values (audit_data e), new_values (audit_data e)))
       <$> audit_logs run.2
     = [(AUpdate, Some ["name"],
         Some {[ "name" := Some (VStr "Jane") ]},
         Some {[ "name" := Some (VStr "Jane Doe") ]})].
Proof. intros run. repeat split; by_eval. Qed.

Lemma createNewVersion_correct_witness :
  List.find (is_current_version "v1") (get_table (staff_store [jane]) "staff")
  = Some jane
  /\ has_id (get_table (staff_store [jane]) "staff") (VStr "v2") = false
  /\ exists newVersion e s',
       createNewVersion "staff" "v1" [("name", VStr "Jane Doe")] (Some "u1")
         None None None None 2000 "v2" 2001 (staff_store [jane])
       = (Ok newVersion, s')
       /\ is_successor_of "v1" "v2" 2000 [("name", VStr "Jane Doe")] jane
            newVersion
       /\ audit_logs s' = audit_logs (staff_store [jane]) ++ [e]
       /\ is_update_entry "v2" jane [("name", VStr "Jane Doe")] (audit_data e).
Proof.
  split; [exact jane_is_current|]. split; [exact jane_v2_is_fresh|].
  destruct (createNewVersion_correct "staff" "v1" [("name", VStr "Jane Doe")]
              (Some "u1") None None None None 2000 "v2" 2001
              (staff_store [jane]) jane jane_is_current jane_v2_is_fresh)
    as (newVersion & e & s' & Hrun & _ & _ & _ & _ & _ & Hsucc & Haud & He
        & Hid & _).
  exists newVersion, e, s'. rewrite Hid in He.
  split; [exact Hrun|]. split; [exact Hsucc|]. split; [exact Haud|exact He].
Defined.

Lemma createNewVersion_not_found_witness :
  exists s',
    createNewVersion "staff" "v1" [("name", VStr "Jane Doe")] (Some "u1") None
      None None None 3000 "v3" 3001 (staff_store [jane_v1; jane_v2])
    = (Err (JsError "Current version not found"), s')
    /\ tables s' = tables (staff_store [jane_v1; jane_v2])
    /\ audit_logs s' = audit_logs (staff_store [jane_v1; jane_v2]).
Proof.
  destruct (createNewVersion_not_found "staff" "v1"
              [("name", VStr "Jane Doe")] (Some "u1") None None None None
              3000 "v3" 3001 (staff_store [jane_v1; jane_v2]))
    as (s' & Hrun & _ & Htab & _ & _ & Haud).
  - intros r [<-|[<-|[]]] Hid.
    + by_eval.
    + exfalso. revert Hid. by_eval.
  - exists s'. split; [exact Hrun|]. split; [exact Htab|exact Haud].
Defined.


(** ** The assignment status engine *)

Lemma head_filter_find {A B} (f : A -> B) (p : A -> bool) (l : list A) :
  head (f <$> List.filter p l) = f <$> List.find p l.
Proof.
  induction l as [|x l IH]; [done|]. cbn [List.filter List.find].
  by destruct (p x).
Qed.

Lemma find_map_hit {A} (p : A -> bool) (f : A -> A) (l : list A) :
  (forall a, p (f a) = p a) ->
  List.find p ((fun a => if p a then f a else a) <$> l) = f <$> List.find p l.
Proof.
  intros Hp. induction l as [|x l IH]; [done|].
  rewrite fmap_cons. cbn [List.find]. destruct (p x) eqn:Hx.
  - by rewrite Hp, Hx.
  - by rewrite Hx.
Qed.

(** What [db.transaction] guarantees: the writes of the body, all of them,
    or none. *)
Lemma transaction_atomic {A} (body : op A) (s : store) :
  (exists a s', transaction body s = (Ok a, s')
                /\ body (begin_tx s) = (Ok a, s'))
  \/ (exists e, transaction body s = (Err e, begin_tx s)).
Proof.
  unfold transaction. destruct (body (begin_tx s)) as [[a|e] s'] eqn:E.
  - left. by exists a, s'.
  - right. by exists e.
Qed.

Section UpdateAssignmentStatusCorrect.
Variables (assignmentId : string) (newStatus : response_status).
Variables (message changedBy changedByStaff : option string).
Variable metadata_ : option jsobj.
Variables (ipAddress userAgent : option string).
Variables (respondedAt updatedAt logStamp auditStamp : Z).
Variable s : store.

Lemma updateAssignmentStatus_change (current : assignment) :
  List.find (fun a => String.eqb (a_id a) assignmentId) (shift_assignments s)
  = Some current ->
  a_response_status current <> newStatus ->
  updateAssignmentStatus assignmentId newStatus message changedBy
    changedByStaff metadata_ ipAddress userAgent respondedAt updatedAt
    logStamp auditStamp s
  = (Ok (Some (with_status newStatus message respondedAt updatedAt current)),
     {| tables := tables s;
        shift_assignments :=
          (fun a => if String.eqb (a_id a) assignmentId
                    then with_status newStatus message respondedAt updatedAt a
                    else a) <$> shift_assignments s;
        shift_assignment_logs :=
          shift_assignment_logs s
          ++ [{| log_data :=
                   {| log_assignment_id := assignmentId;
                      log_previous_status := Some (a_response_status current);
                      log_new_status := newStatus;
                      log_changed_by := changedBy;
                      log_changed_by_staff := changedByStaff;
                      log_message := message;
                      log_metadata := metadata_ |};
                 log_created_at := logStamp |}];
        audit_logs :=
          audit_logs s
          ++ [{| audit_data :=
                   {| organization_id := VNull;
                      entity_type := "shift_assignment";
                      entity_id := assignmentId;
                      action := AStatusChange;
                      performed_by := changedBy;
                      performed_by_staff := changedByStaff;
                      old_values :=
                        Some {[ "responseStatus" :=
                                  Some (VStr (status_name
                                                (a_response_status current))) ]};
                      new_values :=
                        Some {[ "responseStatus" :=
                                  Some (VStr (status_name newStatus)) ]};
                      changed_fields := Some ["responseStatus"];
                      ip_address := ipAddress;
                      user_agent := userAgent;
                      metadata := metadata_ |};
                 audit_created_at := auditStamp |}];
        tx_opened := S (tx_opened s) |}).
Proof.
  intros Hfind Hne.
  unfold updateAssignmentStatus, updateAssignmentStatus_on, bind,
    find_assignment. rewrite Hfind.
  rewrite bool_decide_eq_false_2 by done.
  unfold transaction, updateAssignmentStatus_tx, bind, update_assignments,
    insert_assignment_log, insert_audit, ret. cbn [begin_tx shift_assignments].
  rewrite head_filter_find, Hfind. reflexivity.
Qed.

(** The state inside the transaction in which the assignment row carries
    the new status and nothing has been logged yet. *)
Lemma updateAssignmentStatus_refused
    (insert_log : assignment_log_values -> Z -> op unit)
    (insert_entry : audit_values -> Z -> op unit) (current : assignment)
    (err : error) :
  let mutated :=
    set_assignments
      ((fun a => if String.eqb (a_id a) assignmentId
                 then with_status newStatus message respondedAt updatedAt a
                 else a) <$> shift_assignments s) (begin_tx s) in
  let l :=
    {| log_assignment_id := assignmentId;
       log_previous_status := Some (a_response_status current);
       log_new_status := newStatus;
       log_changed_by := changedBy;
       log_changed_by_staff := changedByStaff;
       log_message := message;
       log_metadata := metadata_ |} in
  let e :=
    {| organization_id := VNull;
       entity_type := "shift_assignment";
       entity_id := assignmentId;
       action := AStatusChange;
       performed_by := changedBy;
       performed_by_staff := changedByStaff;
       old_values :=
         Some {[ "responseStatus" :=
                   Some (VStr (status_name (a_response_status current))) ]};
       new_values :=
         Some {[ "responseStatus" := Some (VStr (status_name newStatus)) ]};
       changed_fields := Some ["responseStatus"];
       ip_address := ipAddress;
       user_agent := userAgent;
       metadata := metadata_ |} in
  List.find (fun a => String.eqb (a_id a) assignmentId) (shift_assignments s)
  = Some current ->
  a_response_status current <> newStatus ->
  (exists s1, insert_log l logStamp mutated = (Err err, s1))
  \/ (exists s1 s2,
        insert_log l logStamp mutated = (Ok tt, s1)
        /\ insert_entry e auditStamp s1 = (Err err, s2)) ->
  updateAssignmentStatus_on insert_log insert_entry assignmentId newStatus
    message changedBy changedByStaff metadata_ ipAddress userAgent
    respondedAt updatedAt logStamp auditStamp s
  = (Err err, begin_tx s).
Proof.
  intros mutated l e Hfind Hne Hfail.
  unfold updateAssignmentStatus_on, bind, find_assignment. rewrite Hfind.
  rewrite bool_decide_eq_false_2 by done.
  unfold transaction, updateAssignmentStatus_tx, bind, update_assignments.
  cbn [begin_tx shift_assignments]. fold mutated l e.
  destruct Hfail as [(s1 & Hlog)|(s1 & s2 & Hlog & Hentry)].
  - change (insert_log l logStamp mutated) with (insert_log l logStamp mutated).
    by rewrite Hlog.
  - by rewrite Hlog, Hentry.
Qed.

(** C4, as the code has it. A call of [updateAssignmentStatus] on an existing
    assignment with a status other than its present one succeeds, inside one
    transaction. It sets the status of the assignment row, appends exactly
    one row to the assignment status log (previous status, new status,
    actor, message) and exactly one entry to the audit ledger (action
    status_change, old and new snapshot of [responseStatus], changed fields
    [responseStatus], the property spelled as the code spells it); both name
    the assignment and the same actor. The three writes stand or fall
    together: whichever of the two inserts the store refuses, in the state
    that already holds the new status, the call fails with the store's error
    and the assignment row is what it was, with nothing logged. *)
Theorem updateAssignmentStatus_logs_twice (current : assignment) :
  List.find (fun a => String.eqb (a_id a) assignmentId) (shift_assignments s)
  = Some current ->
  a_response_status current <> newStatus ->
  exists (updated : assignment) (l : assignment_log) (e : audit_entry)
         (mutated s' : store),
    updateAssignmentStatus assignmentId newStatus message changedBy
      changedByStaff metadata_ ipAddress userAgent respondedAt updatedAt
      logStamp auditStamp s = (Ok (Some updated), s')
    (* one transaction *)
    /\ tx_opened s' = S (tx_opened s)
    (* the status mutation *)
    /\ List.find (fun a => String.eqb (a_id a) assignmentId)
         (shift_assignments s') = Some updated
    /\ a_response_status updated = newStatus
    /\ a_id updated = a_id current
    (* the assignment status log *)
    /\ shift_assignment_logs s' = shift_assignment_logs s ++ [l]
    /\ log_assignment_id (log_data l) = assignmentId
    /\ log_previous_status (log_data l) = Some (a_response_status current)
    /\ log_new_status (log_data l) = newStatus
    /\ log_changed_by (log_data l) = changedBy
    /\ log_changed_by_staff (log_data l) = changedByStaff
    /\ log_message (log_data l) = message
    (* the audit ledger *)
    /\ audit_logs s' = audit_logs s ++ [e]
    /\ action (audit_data e) = AStatusChange
    /\ entity_id (audit_data e) = assignmentId
    /\ performed_by (audit_data e) = changedBy
    /\ performed_by_staff (audit_data e) = changedByStaff
    /\ old_values (audit_data e)
       = Some {[ "responseStatus" :=
                   Some (VStr (status_name (a_response_status current))) ]}
    /\ new_values (audit_data e)
       = Some {[ "responseStatus" := Some (VStr (status_name newStatus)) ]}
    /\ changed_fields (audit_data e) = Some ["responseStatus"]
    (* nothing else *)
    /\ tables s' = tables s
    (* all of it or none: [mutated] is the state of the transaction after
       the status mutation and before the inserts *)
    /\ shift_assignments mutated = shift_assignments s'
    /\ shift_assignment_logs mutated = shift_assignment_logs s
    /\ audit_logs mutated = audit_logs s
    /\ (forall (insert_log : assignment_log_values -> Z -> op unit)
               (insert_entry : audit_values -> Z -> op unit) (err : error),
          (exists s1,
             insert_log (log_data l) logStamp mutated = (Err err, s1))
          \/ (exists s1 s2,
                insert_log (log_data l) logStamp mutated = (Ok tt, s1)
                /\ insert_entry (audit_data e) auditStamp s1 = (Err err, s2)) ->
          exists rolled_back,
            updateAssignmentStatus_on insert_log insert_entry assignmentId
              newStatus message changedBy changedByStaff metadata_ ipAddress
              userAgent respondedAt updatedAt logStamp auditStamp s
            = (Err err, rolled_back)
            /\ shift_assignments rolled_back = shift_assignments s
            /\ shift_assignment_logs rolled_back = shift_assignment_logs s
            /\ audit_logs rolled_back = audit_logs s
            /\ tables rolled_back = tables s).
Proof.
  intros Hfind Hne.
  pose proof (updateAssignmentStatus_change current Hfind Hne) as Hrun.
  eexists _, _, _,
    (set_assignments
       ((fun a => if String.eqb (a_id a) assignmentId
                  then with_status newStatus message respondedAt updatedAt a
                  else a) <$> shift_assignments s) (begin_tx s)), _.
  split; [exact Hrun|].
  split; [reflexivity|]. split.
  { cbn [shift_assignments].
    rewrite (find_map_hit (fun a => String.eqb (a_id a) assignmentId));
      [|done].
    by rewrite Hfind. }
  do 21 (split; [reflexivity|]).
  intros insert_log insert_entry err Hfail.
  exists (begin_tx s). split; [|done].
  by apply (updateAssignmentStatus_refused insert_log insert_entry current).
Qed.

(** C5. A call of [updateAssignmentStatus] with the status the assignment
    already has returns the assignment row as it is and leaves the store as
    it is: no transaction is begun, no row is written, nothing is appended to
    the assignment status log or to the audit ledger. Hence a call that
    succeeded can be repeated at will: the repetition returns the same row
    and changes nothing. *)
Theorem updateAssignmentStatus_same_status_noop :
  (forall current,
     List.find (fun a => String.eqb (a_id a) assignmentId) (shift_assignments s)
     = Some current ->
     a_response_status current = newStatus ->
     updateAssignmentStatus assignmentId newStatus message changedBy
       changedByStaff metadata_ ipAddress userAgent respondedAt updatedAt
       logStamp auditStamp s = (Ok (Some current), s))
  /\ (forall r s',
        updateAssignmentStatus assignmentId newStatus message changedBy
          changedByStaff metadata_ ipAddress userAgent respondedAt updatedAt
          logStamp auditStamp s = (Ok r, s') ->
        updateAssignmentStatus assignmentId newStatus message changedBy
          changedByStaff metadata_ ipAddress userAgent respondedAt updatedAt
          logStamp auditStamp s' = (Ok r, s')).
Proof.
  assert (forall s0 current,
            List.find (fun a => String.eqb (a_id a) assignmentId)
              (shift_assignments s0) = Some current ->
            a_response_status current = newStatus ->
            updateAssignmentStatus assignmentId newStatus message changedBy
              changedByStaff metadata_ ipAddress userAgent respondedAt
              updatedAt logStamp auditStamp s0 = (Ok (Some current), s0))
    as Hnoop.
  { intros s0 current Hfind Hst.
    unfold updateAssignmentStatus, updateAssignmentStatus_on, bind,
    find_assignment. rewrite Hfind.
    by rewrite bool_decide_eq_true_2. }
  split; [apply Hnoop|]. intros r s' Hrun.
  destruct (List.find (fun a => String.eqb (a_id a) assignmentId)
              (shift_assignments s)) as [current|] eqn:Hfind.
  - destruct (decide (a_response_status current = newStatus)) as [Hst|Hne].
    + rewrite (Hnoop s current Hfind Hst) in Hrun.
      injection Hrun as <- <-. by apply Hnoop.
    + rewrite (updateAssignmentStatus_change current Hfind Hne) in Hrun.
      injection Hrun as <- <-. apply Hnoop; [|done].
      cbn [shift_assignments].
      rewrite (find_map_hit (fun a => String.eqb (a_id a) assignmentId));
        [|done].
      by rewrite Hfind.
  - unfold updateAssignmentStatus, updateAssignmentStatus_on, bind,
    find_assignment in Hrun.
    by rewrite Hfind in Hrun.
Qed.
End UpdateAssignmentStatusCorrect.

Lemma invitation_found :
  List.find (fun a => String.eqb (a_id a) "as-1")
    (shift_assignments invitation_store) = Some invitation.
Proof. reflexivity. Qed.

(** The scenario of the specification: accepting an invitation. *)
Lemma updateAssignmentStatus_accept :
  let run :=
    updateAssignmentStatus "as-1" Accepted (Some "Available!") None (Some "v1")
      None None None 2000 2000 2001 2001 invitation_store in
  run.1 = Ok (Some (with_status Accepted (Some "Available!") 2000 2000
                      invitation))
  /\ shift_assignments run.2
     = [with_status Accepted (Some "Available!") 2000 2000 invitation]
  /\ (fun l => (log_previous_status (log_data l), log_new_status (log_data l),
                log_message (log_data l)))
       <$> shift_assignment_logs run.2
     = [(Some Pending, Accepted, Some "Available!")]
  /\ (fun e => (action (audit_data e), changed_fields (audit_data e)))
       <$> audit_logs run.2
     = [(AStatusChange, Some ["responseStatus"])].
Proof. intros run. repeat split; by_eval. Qed.

(** C4 as stated fails: in the scenario of the specification the entry of
    the ledger names the changed field [responseStatus], and its snapshots
    are keyed by it; there is no [response_status] in it. *)
Lemma updateAssignmentStatus_logs_camel_case :
  exists r s' e,
    updateAssignmentStatus "as-1" Accepted (Some "Available!") None (Some "v1")
      None None None 2000 2000 2001 2001 invitation_store = (Ok r, s')
    /\ audit_logs s' = [e]
    /\ changed_fields (audit_data e) = Some ["responseStatus"]
    /\ changed_fields (audit_data e) <> Some ["response_status"]
    /\ old_values (audit_data e)
       <> Some {[ "response_status" := Some (VStr "pending") ]}
    /\ new_values (audit_data e)
       <> Some {[ "response_status" := Some (VStr "accepted") ]}.
Proof.
  eexists _, _, _. split.
  { apply (updateAssignmentStatus_change "as-1" Accepted (Some "Available!")
             None (Some "v1") None None None 2000 2000 2001 2001
             invitation_store invitation invitation_found). discriminate. }
  split; [reflexivity|]. split; [reflexivity|].
  cbn [audit_data changed_fields old_values new_values].
  split; [discriminate|]. split; by_eval.
Qed.

Lemma updateAssignmentStatus_logs_twice_witness :
  (exists updated l e s',
     updateAssignmentStatus "as-1" Accepted (Some "Available!") None
       (Some "v1") None None None 2000 2000 2001 2001 invitation_store
     = (Ok (Some updated), s')
     /\ shift_assignment_logs s' = [l]
     /\ audit_logs s' = [e]
     /\ log_changed_by_staff (log_data l) = performed_by_staff (audit_data e))
  /\ (exists rolled_back,
        updateAssignmentStatus_on insert_assignment_log
          (fun _ _ => throw (JsError "connection lost")) "as-1" Accepted
          (Some "Available!") None (Some "v1") None None None 2000 2000 2001
          2001 invitation_store
        = (Err (JsError "connection lost"), rolled_back)
        /\ shift_assignments rolled_back = [invitation]
        /\ shift_assignment_logs rolled_back = []).
Proof.
  destruct (updateAssignmentStatus_logs_twice "as-1" Accepted
              (Some "Available!") None (Some "v1") None None None 2000 2000
              2001 2001 invitation_store invitation invitation_found)
    as (updated & l & e & mutated & s' & Hrun & _ & _ & _ & _ & Hlog & _ & _
        & _ & _ & Hl & _ & Haud & _ & _ & _ & He & _ & _ & _ & _ & _ & _ & _
        & Hatomic); [discriminate|].
  split.
  - exists updated, l, e, s'. rewrite Hl, He. done.
  - destruct (Hatomic insert_assignment_log
                (fun _ _ => throw (JsError "connection lost"))
                (JsError "connection lost"))
      as (rolled_back & Hfail & Hrows & Hlogs & _).
    + right. eexists _, _. split; reflexivity.
    + exists rolled_back. split; [exact Hfail|]. split; [exact Hrows|].
      exact Hlogs.
Defined.

Lemma updateAssignmentStatus_same_status_noop_witness :
  updateAssignmentStatus "as-1" Pending (Some "Still thinking") None
    (Some "v1") None None None 2000 2000 2001 2001 invitation_store
  = (Ok (Some invitation), invitation_store).
Proof.
  apply (proj1 (updateAssignmentStatus_same_status_noop "as-1" Pending
                  (Some "Still thinking") None (Some "v1") None None None 2000
                  2000 2001 2001 invitation_store));
    [exact invitation_found|reflexivity].
Defined.

(** ** Reading the audit ledger of an organization *)

Lemma audit_row_with_performers (s : store) (l : list audit_entry) :
  audit_row <$> (with_performers s <$> l) = l.
Proof. induction l as [|e l IH]; [done|]. rewrite !fmap_cons. by f_equal. Qed.

(** The range of dates has no part in the query. *)
Lemma getOrganizationAuditLogs_dates_unused (organizationId : string)
    (startDate endDate startDate' endDate' : option Z)
    (entityType : option string) (action_ : option audit_action)
    (limit : option nat) (s : store) :
  getOrganizationAuditLogs organizationId startDate endDate entityType action_
    limit s
  = getOrganizationAuditLogs organizationId startDate' endDate' entityType
      action_ limit s.
Proof. reflexivity. Qed.

(** X22. What the query does filter by: the organization, the entity type and
    the action when given; newest first; no more than [limit] entries. *)
Lemma getOrganizationAuditLogs_filters (organizationId : string)
    (startDate endDate : option Z) (entityType : option string)
    (action_ : option audit_action) (limit : option nat) (s : store) :
  let result :=
    audit_row <$> getOrganizationAuditLogs organizationId startDate endDate
                    entityType action_ limit s in
  (length result <= default 100%nat limit)%nat
  /\ StronglySorted (fun a b => audit_created_at b <= audit_created_at a)
       result
  /\ forall e, In e result ->
       In e (audit_logs s)
       /\ organization_id (audit_data e) = VStr organizationId
       /\ (forall t, entityType = Some t -> t <> "" ->
             entity_type (audit_data e) = t)
       /\ (forall a, action_ = Some a -> action (audit_data e) = a).
Proof.
  intros result. unfold result, getOrganizationAuditLogs.
  rewrite audit_row_with_performers.
  set (conditions := _ ++ _ ++ _).
  set (sorted := sort_with _ _).
  split; [apply firstn_le_length|]. split.
  - assert (StronglySorted
              (fun a b => audit_created_at b <= audit_created_at a) sorted)
      as Hs by apply (sort_with_desc audit_created_at).
    rewrite <- (firstn_skipn (default 100%nat limit) sorted) in Hs.
    by apply StronglySorted_app_1_l in Hs.
  - intros e He.
    assert (In e sorted) as Hin.
    { rewrite <- (firstn_skipn (default 100%nat limit) sorted).
      apply in_or_app. by left. }
    apply (Permutation_in _ (sort_with_perm _ _)) in Hin.
    apply filter_In in Hin as [Hin Hc]. split; [done|].
    rewrite forallb_forall in Hc.
    split; [|split].
    + assert (In (fun e : audit_entry =>
                    bool_decide (organization_id (audit_data e)
                                 = VStr organizationId)) conditions) as H.
      { apply in_or_app. left. by left. }
      apply Hc in H. by apply bool_decide_eq_true in H.
    + intros t -> Ht.
      assert (In (fun e : audit_entry =>
                    bool_decide (entity_type (audit_data e) = t)) conditions)
        as H.
      { apply in_or_app. right. apply in_or_app. left.
        apply String.eqb_neq in Ht. rewrite Ht. by left. }
      apply Hc in H. by apply bool_decide_eq_true in H.
    + intros a ->.
      assert (In (fun e : audit_entry =>
                    bool_decide (action (audit_data e) = a)) conditions) as H.
      { apply in_or_app. right. apply in_or_app. right. by left. }
      apply Hc in H. by apply bool_decide_eq_true in H.
Qed.

(** C8 fails on the code: asked for the entries of [org-1] between 200 and
    300, [getOrganizationAuditLogs] returns the entry stamped at 100. *)
Theorem getOrganizationAuditLogs_ignores_date_range :
  audit_row <$> getOrganizationAuditLogs "org-1" (Some 200) (Some 300) None
                  None None ledger_store
  = [early_entry]
  /\ ~ (200 <= audit_created_at early_entry <= 300).
Proof. split; [by_eval|]. simpl. lia. Qed.

(** ** Formatting the history of an assignment *)

Lemma string_app_nil_r (s : string) : s +:+ "" = s.
Proof.
  induction s as [|c s IH]; [done|].
  change (String c s +:+ "") with (String c (s +:+ "")). by rewrite IH.
Qed.

(** C9, as the code has it. [formatAssignmentHistory] returns one line per
    entry, in order. The line reads [[timestamp] label: transition]; the
    label is 'Manager ' and the name of the resolved user, else 'Staff ' and
    the name of the resolved staff member, else 'System'; the transition is
    'previous → new', or 'Status gesetzt: new' when there is no previous
    status. The line ends there when the entry has no message or an empty
    one; otherwise the message follows in quotes after ' - '. *)
Theorem formatAssignmentHistory_lines (toLocaleString : Z -> string)
    (logs : list history_entry) :
  length (formatAssignmentHistory toLocaleString logs) = length logs
  /\ forall (i : nat) (log : history_entry),
       logs !! i = Some log ->
       exists label text : string,
         formatAssignmentHistory toLocaleString logs !! i
         = Some (("[" +:+ toLocaleString (log_created_at (history_log log))
                  +:+ "] " +:+ label +:+ ": " +:+ text)
                 +:+ message_suffix (log_message (log_data (history_log log))))
         /\ is_actor_label log label
         /\ is_transition (log_previous_status (log_data (history_log log)))
              (log_new_status (log_data (history_log log))) text.
Proof.
  unfold formatAssignmentHistory. split; [apply length_fmap|].
  intros i log Hi. rewrite list_lookup_fmap, Hi. cbn [fmap option_fmap option_map].
  unfold format_entry.
  eexists _, _. split; [|split].
  - f_equal. unfold message_suffix.
    destruct (log_message (log_data (history_log log))) as [m|].
    + destruct (String.eqb m ""); cbn [negb]; [|reflexivity].
      by rewrite string_app_nil_r.
    + by rewrite string_app_nil_r.
  - unfold is_actor_label. split; [|split].
    + by intros u ->.
    + by intros m -> ->.
    + by intros -> ->.
  - unfold is_transition. split.
    + by intros p ->.
    + by intros ->.
Qed.

(** C9 as stated fails: the line of an entry without message has no quoted
    suffix at all. *)
Lemma formatAssignmentHistory_without_message :
  formatAssignmentHistory (fun _ => "1.1.2025, 10:00:00") [system_entry]
  = ["[1.1.2025, 10:00:00] System: Status gesetzt: accepted"]
  /\ ~ exists m : string,
         formatAssignmentHistory (fun _ => "1.1.2025, 10:00:00") [system_entry]
         = ["[1.1.2025, 10:00:00] System: Status gesetzt: accepted"
            +:+ " - " +:+ quote +:+ m +:+ quote].
Proof.
  assert (formatAssignmentHistory (fun _ => "1.1.2025, 10:00:00") [system_entry]
          = ["[1.1.2025, 10:00:00] System: Status gesetzt: accepted"]) as E
    by (vm_compute; reflexivity).
  split; [exact E|]. intros [m H]. rewrite E in H.
  injection H as H. change ("" +:+ " - " +:+ quote +:+ m +:+ quote)
    with (String " " (String "-" (String " " (quote +:+ m +:+ quote)))) in H.
  discriminate H.
Qed.

(** ** More on reading the ledger *)

Lemma take_short {A} (n : nat) (l : list A) :
  (length (take n l) < n)%nat -> take n l = l.
Proof.
  intros H. rewrite length_take in H. apply take_ge. lia.
Qed.

Lemma sort_with_newest_last {A} (key : A -> Z) (l : list A) (e : A) :
  (forall x, In x l -> key x < key e) ->
  sort_with (fun a b => key b - key a) (l ++ [e])
  = e :: sort_with (fun a b => key b - key a) l.
Proof.
  intros Hnew. unfold sort_with. rewrite foldr_app. cbn [foldr insert_sorted].
  induction l as [|x l IH]; [done|]. cbn [foldr].
  rewrite IH by (intros y Hy; apply Hnew; by right).
  cbn [insert_sorted].
  destruct (Z.leb_spec (key e - key x) 0) as [Hle|Hgt]; [|done].
  specialize (Hnew x (or_introl eq_refl)). lia.
Qed.

Lemma audit_row_with_performer_columns (s : store) (l : list audit_entry) :
  audit_row <$> (with_performer_columns s <$> l) = l.
Proof. induction l as [|e l IH]; [done|]. rewrite !fmap_cons. by f_equal. Qed.

(** X21. [getAuditLogsForEntity] returns only entries of the ledger that
    belong to the entity asked for, newest first, and at most [limit] of them,
    50 when no limit is given; when it returns fewer than the limit, it
    returns every entry of that entity. *)
Theorem getAuditLogsForEntity_sound_complete (entityType entityId : string)
    (limit : option nat) (s : store) :
  let result :=
    audit_row <$> getAuditLogsForEntity entityType entityId limit s in
  (length result <= default 50%nat limit)%nat
  /\ StronglySorted (fun a b => audit_created_at b <= audit_created_at a)
       result
  /\ (forall e, In e result ->
        In e (audit_logs s)
        /\ entity_type (audit_data e) = entityType
        /\ entity_id (audit_data e) = entityId)
  /\ ((length result < default 50%nat limit)%nat ->
      forall e, In e (audit_logs s) ->
        entity_type (audit_data e) = entityType ->
        entity_id (audit_data e) = entityId ->
        In e result).
Proof.
  intros result. unfold result, getAuditLogsForEntity.
  rewrite audit_row_with_performer_columns.
  set (matching := List.filter _ _). set (sorted := sort_with _ _).
  assert (forall e, In e sorted <-> In e matching) as Hperm.
  { intros e. split; apply Permutation_in;
      [apply sort_with_perm|symmetry; apply sort_with_perm]. }
  assert (forall e, In e matching <->
            In e (audit_logs s)
            /\ entity_type (audit_data e) = entityType
            /\ entity_id (audit_data e) = entityId) as Hmatch.
  { intros e. unfold matching. rewrite filter_In, andb_true_iff.
    by rewrite !bool_decide_eq_true. }
  split; [apply firstn_le_length|]. split; [|split].
  - assert (StronglySorted
              (fun a b => audit_created_at b <= audit_created_at a) sorted)
      as Hs by apply (sort_with_desc audit_created_at).
    rewrite <- (firstn_skipn (default 50%nat limit) sorted) in Hs.
    by apply StronglySorted_app_1_l in Hs.
  - intros e He. apply Hmatch, Hperm.
    rewrite <- (firstn_skipn (default 50%nat limit) sorted).
    apply in_or_app. by left.
  - intros Hshort e Hin Ht Hi. rewrite (take_short _ _ Hshort).
    by apply Hperm, Hmatch.
Qed.

(** X23. When [getOrganizationAuditLogs] returns fewer entries than the limit
    (100 when none is given), it returns every entry of the organization that
    has the entity type and the action asked for. *)
Theorem getOrganizationAuditLogs_complete (organizationId : string)
    (startDate endDate : option Z) (entityType : option string)
    (action_ : option audit_action) (limit : option nat) (s : store) :
  let result :=
    audit_row <$> getOrganizationAuditLogs organizationId startDate endDate
                    entityType action_ limit s in
  (length result < default 100%nat limit)%nat ->
  forall e, In e (audit_logs s) ->
    organization_id (audit_data e) = VStr organizationId ->
    (forall t, entityType = Some t -> entity_type (audit_data e) = t) ->
    (forall a, action_ = Some a -> action (audit_data e) = a) ->
    In e result.
Proof.
  intros result. unfold result, getOrganizationAuditLogs.
  rewrite audit_row_with_performers.
  intros Hshort e Hin Horg Hty Hact. rewrite (take_short _ _ Hshort).
  apply (Permutation_in _ (Permutation_sym (sort_with_perm _ _))).
  apply filter_In. split; [done|]. apply forallb_forall.
  intros c Hc. apply in_app_or in Hc as [Hc|Hc].
  - destruct Hc as [<-|[]]. by apply bool_decide_eq_true.
  - apply in_app_or in Hc as [Hc|Hc].
    + destruct entityType as [t|]; [|done].
      destruct (negb (String.eqb t "")); [|done].
      destruct Hc as [<-|[]]. apply bool_decide_eq_true. by apply Hty.
    + destruct action_ as [a|]; [|done].
      destruct Hc as [<-|[]]. apply bool_decide_eq_true. by apply Hact.
Qed.

(** X24. The staff member behind an entry is looked up under [performed_by],
    the column of the acting user: an entry written for a staff member alone
    comes back from both queries with no actor resolved, whatever
    [performed_by_staff] says. *)
Theorem audit_queries_leave_staff_actor_unresolved (s : store)
    (r : audit_with_relations) :
  (exists organizationId startDate endDate entityType action_ limit,
     In r (getOrganizationAuditLogs organizationId startDate endDate
             entityType action_ limit s))
  \/ (exists entityType entityId limit,
        In r (getAuditLogsForEntity entityType entityId limit s)) ->
  performed_by (audit_data (audit_row r)) = None ->
  performedByUser r = None /\ performedByStaffMember r = None.
Proof.
  intros [(o & sd & ed & et & a & n & Hin)|(et & ei & n & Hin)] Hnone.
  - unfold getOrganizationAuditLogs in Hin.
    apply list_elem_of_In, list_elem_of_fmap in Hin as (e & -> & _).
    cbn [audit_row with_performers] in Hnone.
    unfold with_performers. cbn [performedByUser performedByStaffMember].
    by rewrite Hnone.
  - unfold getAuditLogsForEntity in Hin.
    apply list_elem_of_In, list_elem_of_fmap in Hin as (e & -> & _).
    cbn [audit_row with_performer_columns] in Hnone.
    unfold with_performer_columns.
    cbn [performedByUser performedByStaffMember]. by rewrite Hnone.
Qed.

(** X13. An event logged with [logAuditEvent] is the first thing
    [getAuditLogsForEntity] returns for its entity afterwards, provided the
    store stamps it later than the entries the entity already has and the
    limit is not zero; the tables, the assignments and the assignment log are
    not touched and no transaction is begun. *)
Theorem logAuditEvent_then_getAuditLogsForEntity
    (organizationId : option string) (entityType entityId : string)
    (action_ : audit_action) (performedBy performedByStaff : option string)
    (oldValues newValues : option jsobj) (changedFields : option (list string))
    (ipAddress userAgent : option string) (metadata_ : option jsobj)
    (stamp : Z) (limit : option nat) (s : store) :
  (forall e, In e (audit_logs s) ->
     entity_type (audit_data e) = entityType ->
     entity_id (audit_data e) = entityId ->
     audit_created_at e < stamp) ->
  limit <> Some 0%nat ->
  exists e s',
    logAuditEvent organizationId entityType entityId action_ performedBy
      performedByStaff oldValues newValues changedFields ipAddress userAgent
      metadata_ stamp s = (Ok tt, s')
    /\ audit_logs s' = audit_logs s ++ [e]
    /\ audit_created_at e = stamp
    /\ action (audit_data e) = action_
    /\ old_values (audit_data e) = oldValues
    /\ new_values (audit_data e) = newValues
    /\ head (audit_row <$> getAuditLogsForEntity entityType entityId limit s')
       = Some e
    /\ tables s' = tables s
    /\ shift_assignments s' = shift_assignments s
    /\ shift_assignment_logs s' = shift_assignment_logs s
    /\ tx_opened s' = tx_opened s.
Proof.
  intros Hnewer Hlimit. eexists _, _. split; [reflexivity|].
  split; [reflexivity|]. repeat (split; [reflexivity|]).
  split; [|done].
  unfold getAuditLogsForEntity. rewrite audit_row_with_performer_columns.
  cbn [push_audit audit_logs]. rewrite List.filter_app. cbn [List.filter].
  cbn [audit_data entity_type entity_id].
  rewrite !bool_decide_eq_true_2 by done. cbn [andb].
  rewrite (sort_with_newest_last audit_created_at).
  - destruct limit as [[|n]|]; [done|done|done].
  - intros x Hx. apply filter_In in Hx as [Hx Hc].
    apply andb_true_iff in Hc as [H1 H2].
    apply bool_decide_eq_true in H1, H2. by apply Hnewer.
Qed.

(** ** Creating, updating and deleting with an audit entry *)

Lemma get_None (es : entries) (k : string) :
  get es k = None <-> k ∉ keys es.
Proof. rewrite <- get_is_Some. apply eq_None_not_Some. Qed.

Lemma returned_row_lookup (t : table_def) (values : jsobj) (fresh : string)
    (now : Z) (c : column) :
  NoDup (col_name <$> table_columns t) ->
  c ∈ table_columns t ->
  returned_row t values fresh now !! col_name c
  = Some (column_value values fresh now c).
Proof.
  intros Hnd Hc. unfold returned_row.
  apply elem_of_list_to_map_1.
  - by rewrite <- list_fmap_compose.
  - apply list_elem_of_fmap. by exists c.
Qed.

Lemma returned_row_columns (t : table_def) (values : jsobj) (fresh : string)
    (now : Z) (k : string) :
  k ∉ col_name <$> table_columns t ->
  returned_row t values fresh now !! k = None.
Proof.
  intros Hk. unfold returned_row.
  apply not_elem_of_list_to_map_1. by rewrite <- list_fmap_compose.
Qed.

Lemma find_not_null_None (cols : list column) (values : jsobj)
    (fresh : string) (now : Z) :
  (forall c, c ∈ cols -> col_not_null c = true ->
     column_value values fresh now c <> VNull) ->
  List.find
    (fun c =>
       col_not_null c && bool_decide (column_value values fresh now c = VNull))
    cols = None.
Proof.
  intros Hall. induction cols as [|c cols IH]; [done|].
  cbn [List.find]. destruct (col_not_null c) eqn:Hnn.
  - rewrite bool_decide_eq_false_2.
    + apply IH. intros c' Hc'. apply Hall. by right.
    + apply Hall; [by left|done].
  - apply IH. intros c' Hc'. apply Hall. by right.
Qed.

Lemma find_map_where {A} (p : A -> bool) (f : A -> A) (l : list A) :
  (forall a, p (f a) = p a) ->
  List.find p (List.map (fun a => if p a then f a else a) l)
  = f <$> List.find p l.
Proof.
  intros Hp. induction l as [|x l IH]; [done|].
  cbn [List.map List.find]. destruct (p x) eqn:Hx.
  - by rewrite Hp, Hx.
  - by rewrite Hx.
Qed.

Section CreateWithAuditCorrect.
Variables (table : table_def) (values : jsobj) (entityType : string).
Variables (performedBy performedByStaff ipAddress userAgent : option string).
Variable metadata_ : option jsobj.
Variables (fresh : string) (now stamp : Z).
Variable s : store.

(** X14. [createWithAudit] returns and stores a row with every column of the
    table: the value given where one is given, and otherwise what the column
    defaults to (a constant, the store's clock, a generated uuid), or null.
    When no column declared not null ends up null and the id is not yet a
    key of the table, the row is appended to the table, and exactly one
    entry is appended to the ledger: action create, the id of the new row,
    no old values, and the whole new row, defaults included, as new
    values. *)
Theorem createWithAudit_creates :
  NoDup (col_name <$> table_columns table) ->
  (forall c, c ∈ table_columns table -> col_not_null c = true ->
     column_value values fresh now c <> VNull) ->
  (forall i, returned_row table values fresh now !! "id" = Some i ->
     has_id (get_table s (table_name table)) i = false) ->
  exists created e s',
    createWithAudit table values entityType performedBy performedByStaff
      ipAddress userAgent metadata_ fresh now stamp s = (Ok created, s')
    /\ (forall c v, c ∈ table_columns table ->
          values !! col_name c = Some (Some v) ->
          created !! col_name c = Some v)
    /\ (forall c, c ∈ table_columns table ->
          values !! col_name c = None \/ values !! col_name c = Some None ->
          created !! col_name c
          = Some match col_default c with
                 | NoDefault => VNull
                 | DefaultValue v => v
                 | DefaultNow => VTime now
                 | DefaultRandom => VStr fresh
                 end)
    /\ (forall k, k ∉ col_name <$> table_columns table -> created !! k = None)
    /\ get_table s' (table_name table)
       = get_table s (table_name table) ++ [created]
    /\ audit_logs s' = audit_logs s ++ [e]
    /\ action (audit_data e) = ACreate
    /\ entity_type (audit_data e) = entityType
    /\ entity_id (audit_data e) = row_id created
    /\ organization_id (audit_data e) = or_null (created !! "organization_id")
    /\ old_values (audit_data e) = None
    /\ new_values (audit_data e) = Some (as_object created)
    /\ (forall k, as_object created !! k = Some <$> created !! k)
    /\ audit_created_at e = stamp
    /\ (forall t, t <> table_name table -> get_table s' t = get_table s t)
    /\ shift_assignments s' = shift_assignments s
    /\ shift_assignment_logs s' = shift_assignment_logs s
    /\ tx_opened s' = S (tx_opened s).
Proof.
  intros Hnd Hnn Hfree.
  unfold createWithAudit, transaction, bind, insert_values.
  change (get_table (begin_tx s) (table_name table))
    with (get_table s (table_name table)).
  rewrite (find_not_null_None _ _ _ _ Hnn).
  assert (match returned_row table values fresh now !! "id" with
          | Some i => has_id (get_table s (table_name table)) i
          | None => false
          end = false) as ->.
  { destruct (returned_row table values fresh now !! "id") as [i|] eqn:Hid;
      [by apply Hfree|done]. }
  eexists _, _, _. split; [reflexivity|].
  split.
  { intros c v Hc Hv. rewrite returned_row_lookup by done.
    unfold column_value. by rewrite Hv. }
  split.
  { intros c Hc Hv. rewrite returned_row_lookup by done.
    unfold column_value. by destruct Hv as [-> | ->]. }
  split; [apply returned_row_columns|].
  split. { unfold insert_audit, ret. cbn [fst snd push_audit].
           unfold get_table at 1. cbn [tables set_table push_audit].
           by rewrite lookup_insert_eq. }
  split; [reflexivity|]. repeat (split; [reflexivity|]).
  split. { intros k. unfold as_object. apply lookup_fmap. }
  split; [reflexivity|].
  split. { intros t Ht. unfold get_table. cbn [tables set_table push_audit].
           by rewrite lookup_insert_ne. }
  done.
Qed.

(** X15. When the id of the row is already a key of the table,
    [createWithAudit] fails and leaves nothing behind: no row and no entry
    in the ledger. The error is that of the key, unless a column declared
    not null would be null, which the store refuses first. *)
Theorem createWithAudit_duplicate_key (i : value) :
  returned_row table values fresh now !! "id" = Some i ->
  has_id (get_table s (table_name table)) i = true ->
  exists err s',
    createWithAudit table values entityType performedBy performedByStaff
      ipAddress userAgent metadata_ fresh now stamp s = (Err err, s')
    /\ tables s' = tables s
    /\ audit_logs s' = audit_logs s
    /\ shift_assignments s' = shift_assignments s
    /\ shift_assignment_logs s' = shift_assignment_logs s
    /\ ((forall c, c ∈ table_columns table -> col_not_null c = true ->
           column_value values fresh now c <> VNull) ->
        err = UniqueViolation (table_name table) "id").
Proof.
  intros Hid Htaken.
  unfold createWithAudit, transaction, bind, insert_values.
  change (get_table (begin_tx s) (table_name table))
    with (get_table s (table_name table)).
  rewrite Hid, Htaken.
  destruct (List.find _ (table_columns table)) as [c|] eqn:Hfind.
  - eexists _, _. split; [reflexivity|]. repeat (split; [reflexivity|]).
    intros Hnn. rewrite (find_not_null_None _ _ _ _ Hnn) in Hfind.
    discriminate Hfind.
  - eexists _, _. split; [reflexivity|]. by repeat (split; [reflexivity|]).
Qed.
End CreateWithAuditCorrect.

Section UpdateWithAuditCorrect.
Variables (table id : string) (updates : entries) (entityType : string).
Variables (performedBy performedByStaff ipAddress userAgent : option string).
Variable metadata_ : option jsobj.
Variables (now stamp : Z).
Variable s : store.

(** X16. When no row of the table has the id, [updateWithAudit] fails with
    'Record not found' and writes nothing. *)
Theorem updateWithAudit_not_found :
  (forall r, In r (get_table s table) -> r !! "id" <> Some (VStr id)) ->
  exists s',
    updateWithAudit table id updates entityType performedBy performedByStaff
      ipAddress userAgent metadata_ now stamp s
    = (Err (JsError "Record not found"), s')
    /\ tables s' = tables s
    /\ audit_logs s' = audit_logs s
    /\ shift_assignments s' = shift_assignments s
    /\ shift_assignment_logs s' = shift_assignment_logs s.
Proof.
  intros Hnone.
  assert (List.find (col_eq "id" (VStr id)) (get_table s table) = None)
    as Hfind.
  { destruct (List.find _ _) as [r|] eqn:E; [exfalso|done].
    apply find_some in E as [Hin Hp]. apply bool_decide_eq_true in Hp.
    by apply (Hnone r). }
  unfold updateWithAudit, transaction, bind, findFirst.
  change (get_table (begin_tx s) table) with (get_table s table).
  rewrite Hfind. by eexists.
Qed.

(** X17. When the table has a row with the id and the updates do not assign
    the key, [updateWithAudit] changes that row in place: the updates are laid
    over it and [updated_at] is set to now, whatever the updates say about it;
    every other column, the versioning columns among them, is as it was. No
    row is added and no row is retired. The ledger grows by exactly one entry:
    action update, the id given, the keys of the updates as changed fields,
    and old and new snapshots over those keys, read from the row as it was and
    from the updates. *)
Theorem updateWithAudit_updates_in_place (oldRecord : row) :
  List.find (col_eq "id" (VStr id)) (get_table s table) = Some oldRecord ->
  "id" ∉ keys updates ->
  exists updated e s',
    updateWithAudit table id updates entityType performedBy performedByStaff
      ipAddress userAgent metadata_ now stamp s = (Ok updated, s')
    /\ updated !! "updated_at" = Some (VTime now)
    /\ (forall k, k <> "updated_at" ->
          updated !! k
          = match get updates k with Some v => Some v | None => oldRecord !! k end)
    /\ updated !! "id" = Some (VStr id)
    /\ get_table s' table
       = List.map
           (fun r => if col_eq "id" (VStr id) r
                     then assign (updates ++ [("updated_at", VTime now)]) r
                     else r)
           (get_table s table)
    /\ List.find (col_eq "id" (VStr id)) (get_table s' table) = Some updated
    /\ length (get_table s' table) = length (get_table s table)
    /\ audit_logs s' = audit_logs s ++ [e]
    /\ is_update_entry id oldRecord updates (audit_data e)
    /\ entity_type (audit_data e) = entityType
    /\ (forall t, t <> table -> get_table s' t = get_table s t)
    /\ shift_assignments s' = shift_assignments s
    /\ shift_assignment_logs s' = shift_assignment_logs s.
Proof.
  intros Hfind Hkey.
  set (es := updates ++ [("updated_at", VTime now)]).
  assert (get es "id" = None) as Hnoid.
  { apply get_None. unfold es, keys. rewrite fmap_app.
    intros [H|H]%elem_of_app; [done|].
    by apply list_elem_of_singleton in H. }
  assert (forall r k, assign es r !! k
            = if decide (k = "updated_at") then Some (VTime now)
              else match get updates k with
                   | Some v => Some v
                   | None => r !! k
                   end) as Hassign.
  { intros r k. unfold es, assign. rewrite foldl_app. cbn [foldl fst snd].
    destruct (decide (k = "updated_at")) as [->|Hne].
    - by rewrite lookup_insert_eq.
    - rewrite lookup_insert_ne by done. apply assign_lookup. }
  assert (oldRecord !! "id" = Some (VStr id)) as Hid.
  { apply find_some in Hfind as [_ Hp]. by apply bool_decide_eq_true in Hp. }
  assert (assign es oldRecord !! "id" = Some (VStr id)) as Hid'.
  { rewrite Hassign, decide_False by done.
    apply get_None in Hkey. by rewrite Hkey. }
  unfold updateWithAudit, transaction, bind, findFirst, update_returning.
  change (get_table (begin_tx s) table) with (get_table s table).
  rewrite Hfind. fold es. rewrite Hnoid.
  change (get_table (begin_tx s) table) with (get_table s table).
  rewrite head_filter_find, Hfind. cbn [fmap option_fmap option_map].
  eexists _, _, _. split; [reflexivity|].
  split. { by rewrite Hassign, decide_True. }
  split. { intros k Hk. by rewrite Hassign, decide_False. }
  split; [exact Hid'|].
  assert (get_table
            (push_audit
               {| audit_data :=
                    {| organization_id :=
                         or_null (assign es oldRecord !! "organization_id");
                       entity_type := entityType;
                       entity_id := id;
                       action := AUpdate;
                       performed_by := performedBy;
                       performed_by_staff := performedByStaff;
                       old_values :=
                         Some (changed_snapshots oldRecord updates
                                 (keys updates)).1;
                       new_values :=
                         Some (changed_snapshots oldRecord updates
                                 (keys updates)).2;
                       changed_fields := Some (keys updates);
                       ip_address := ipAddress;
                       user_agent := userAgent;
                       metadata := metadata_ |};
                  audit_created_at := stamp |}
               (set_table table
                  (List.map
                     (fun r => if col_eq "id" (VStr id) r
                               then assign es r else r)
                     (get_table s table)) (begin_tx s))) table
          = List.map
              (fun r => if col_eq "id" (VStr id) r then assign es r else r)
              (get_table s table)) as Htab.
  { unfold get_table at 1. cbn [tables set_table push_audit].
    by rewrite lookup_insert_eq. }
  split; [exact Htab|].
  split.
  { rewrite Htab, find_map_where, Hfind; [done|].
    intros a. unfold col_eq. rewrite Hassign, decide_False by done.
    apply get_None in Hkey. by rewrite Hkey. }
  split. { rewrite Htab. apply length_map. }
  split; [reflexivity|].
  split. { by apply update_entry_snapshots. }
  split; [reflexivity|].
  split. { intros t Ht. unfold get_table. cbn [tables set_table push_audit].
           by rewrite lookup_insert_ne. }
  done.
Qed.
End UpdateWithAuditCorrect.

Section DeleteWithAuditCorrect.
Variable delete_from : string -> (row -> bool) -> op unit.
Variables (table id : string) (entityType : string).
Variables (performedBy performedByStaff ipAddress userAgent : option string).
Variable metadata_ : option jsobj.
Variable stamp : Z.
Variable s : store.

(** X18. When no row of the table has the id, [deleteWithAudit] fails with
    'Record not found' before anything is logged or deleted, whatever the
    store would do on the delete. *)
Theorem deleteWithAudit_not_found :
  (forall r, In r (get_table s table) -> r !! "id" <> Some (VStr id)) ->
  exists s',
    deleteWithAudit delete_from table id entityType performedBy
      performedByStaff ipAddress userAgent metadata_ stamp s
    = (Err (JsError "Record not found"), s')
    /\ tables s' = tables s
    /\ audit_logs s' = audit_logs s
    /\ shift_assignments s' = shift_assignments s
    /\ shift_assignment_logs s' = shift_assignment_logs s.
Proof.
  intros Hnone.
  assert (List.find (col_eq "id" (VStr id)) (get_table s table) = None)
    as Hfind.
  { destruct (List.find _ _) as [r|] eqn:E; [exfalso|done].
    apply find_some in E as [Hin Hp]. apply bool_decide_eq_true in Hp.
    by apply (Hnone r). }
  unfold deleteWithAudit, transaction, bind, findFirst.
  change (get_table (begin_tx s) table) with (get_table s table).
  rewrite Hfind. by eexists.
Qed.

(** X19. [deleteWithAudit] logs first and deletes second: the store is asked
    to delete in a state whose ledger already ends with the delete entry,
    which carries the whole row as old values. If the store carries the delete
    out, the row as it was is returned; if the store refuses it, the call
    fails with the store's error and the entry is gone with the transaction. *)
Theorem deleteWithAudit_logs_then_deletes (record : row) :
  List.find (col_eq "id" (VStr id)) (get_table s table) = Some record ->
  exists e logged,
    audit_logs logged = audit_logs s ++ [e]
    /\ tables logged = tables s
    /\ action (audit_data e) = ADelete
    /\ entity_id (audit_data e) = id
    /\ old_values (audit_data e) = Some (as_object record)
    /\ new_values (audit_data e) = None
    /\ (forall s',
          delete_from table (col_eq "id" (VStr id)) logged = (Ok tt, s') ->
          deleteWithAudit delete_from table id entityType performedBy
            performedByStaff ipAddress userAgent metadata_ stamp s
          = (Ok record, s'))
    /\ (forall err s',
          delete_from table (col_eq "id" (VStr id)) logged = (Err err, s') ->
          exists s'',
            deleteWithAudit delete_from table id entityType performedBy
              performedByStaff ipAddress userAgent metadata_ stamp s
            = (Err err, s'')
            /\ audit_logs s'' = audit_logs s
            /\ tables s'' = tables s).
Proof.
  intros Hfind. eexists _, _.
  split; [|split; [|split; [|split; [|split; [|split; [|split]]]]]];
    cycle 6.
  - intros s' Hdel.
    unfold deleteWithAudit, transaction, bind, findFirst.
    change (get_table (begin_tx s) table) with (get_table s table).
    rewrite Hfind. unfold insert_audit. rewrite Hdel. reflexivity.
  - intros err s' Hdel. exists (begin_tx s).
    unfold deleteWithAudit, transaction, bind, findFirst.
    change (get_table (begin_tx s) table) with (get_table s table).
    rewrite Hfind. unfold insert_audit. by rewrite Hdel.
  - reflexivity.
  - reflexivity.
  - reflexivity.
  - reflexivity.
  - reflexivity.
  - reflexivity.
Qed.
End DeleteWithAuditCorrect.

Lemma find_filter_out {A} (p : A -> bool) (l : list A) :
  List.find p (List.filter (fun a => negb (p a)) l) = None.
Proof.
  induction l as [|x l IH]; [done|]. cbn [List.filter].
  destruct (p x) eqn:Hx; cbn [negb]; [done|].
  cbn [List.find]. by rewrite Hx.
Qed.

(** X20. With a store whose delete touches the named table only,
    [deleteWithAudit] on an existing id returns the row as it was and removes
    every row with that id, so that the id is no longer found; the other rows
    stay, and the ledger holds one more entry, with the row as it was as old
    values. *)
Theorem deleteWithAudit_removes_row (table id entityType : string)
    (performedBy performedByStaff ipAddress userAgent : option string)
    (metadata_ : option jsobj) (stamp : Z) (s : store) (record : row) :
  List.find (col_eq "id" (VStr id)) (get_table s table) = Some record ->
  exists e s',
    deleteWithAudit delete_rows table id entityType performedBy
      performedByStaff ipAddress userAgent metadata_ stamp s
    = (Ok record, s')
    /\ List.find (col_eq "id" (VStr id)) (get_table s' table) = None
    /\ (forall r, In r (get_table s' table) <->
          In r (get_table s table) /\ r !! "id" <> Some (VStr id))
    /\ audit_logs s' = audit_logs s ++ [e]
    /\ action (audit_data e) = ADelete
    /\ entity_id (audit_data e) = id
    /\ old_values (audit_data e) = Some (as_object record)
    /\ (forall t, t <> table -> get_table s' t = get_table s t).
Proof.
  intros Hfind.
  assert (forall s0 e,
            get_table (set_table table
                         (List.filter (fun r => negb (col_eq "id" (VStr id) r))
                            (get_table s table)) (push_audit e s0)) table
            = List.filter (fun r => negb (col_eq "id" (VStr id) r))
                (get_table s table)) as Htab.
  { intros s0 e. unfold get_table at 1. cbn [tables set_table].
    by rewrite lookup_insert_eq. }
  unfold deleteWithAudit, transaction, bind, findFirst.
  change (get_table (begin_tx s) table) with (get_table s table).
  rewrite Hfind. unfold insert_audit, delete_rows, ret.
  change (get_table (push_audit ?e (begin_tx s)) table)
    with (get_table s table).
  eexists _, _. split; [reflexivity|].
  split. { rewrite Htab. apply find_filter_out. }
  split.
  { intros r. rewrite Htab, filter_In. unfold col_eq.
    rewrite negb_true_iff, bool_decide_eq_false. done. }
  split; [reflexivity|]. repeat (split; [reflexivity|]).
  intros t Ht. unfold get_table. cbn [tables set_table push_audit].
  by rewrite lookup_insert_ne.
Qed.

(** ** More on the assignment status engine *)

Section UpdateAssignmentStatusMore.
Variables (assignmentId : string) (newStatus : response_status).
Variables (message changedBy changedByStaff : option string).
Variable metadata_ : option jsobj.
Variables (ipAddress userAgent : option string).
Variables (respondedAt updatedAt logStamp auditStamp : Z).
Variable s : store.

(** X25. On an id that names no assignment, [updateAssignmentStatus] fails
    with 'Assignment not found'; the store is exactly what it was, and no
    transaction is begun. *)
Theorem updateAssignmentStatus_not_found :
  (forall a, In a (shift_assignments s) -> a_id a <> assignmentId) ->
  updateAssignmentStatus assignmentId newStatus message changedBy
    changedByStaff metadata_ ipAddress userAgent respondedAt updatedAt
    logStamp auditStamp s
  = (Err (JsError "Assignment not found"), s).
Proof.
  intros Hnone.
  assert (List.find (fun a => String.eqb (a_id a) assignmentId)
            (shift_assignments s) = None) as Hfind.
  { destruct (List.find _ _) as [a|] eqn:E; [exfalso|done].
    apply find_some in E as [Hin Hp]. apply String.eqb_eq in Hp.
    by apply (Hnone a). }
  unfold updateAssignmentStatus, updateAssignmentStatus_on, bind,
    find_assignment. by rewrite Hfind.
Qed.

(** X26. A status change touches the row of the assignment and nothing else in
    the table: no assignment is added or removed, every assignment with
    another id is what it was, and the changed row keeps its shift, staff,
    role, invitation and creation data. Its message is replaced when a message
    is given and kept when none is; [responded_at] and [updated_at] are set. *)
Theorem updateAssignmentStatus_frame (current : assignment) :
  List.find (fun a => String.eqb (a_id a) assignmentId) (shift_assignments s)
  = Some current ->
  a_response_status current <> newStatus ->
  exists updated s',
    updateAssignmentStatus assignmentId newStatus message changedBy
      changedByStaff metadata_ ipAddress userAgent respondedAt updatedAt
      logStamp auditStamp s = (Ok (Some updated), s')
    /\ length (shift_assignments s') = length (shift_assignments s)
    /\ (forall (i : nat) a, shift_assignments s !! i = Some a ->
          a_id a <> assignmentId -> shift_assignments s' !! i = Some a)
    /\ (forall (i : nat) a, shift_assignments s !! i = Some a ->
          a_id a = assignmentId ->
          exists a', shift_assignments s' !! i = Some a'
                     /\ a_id a' = assignmentId
                     /\ a_response_status a' = newStatus)
    /\ a_shift_id updated = a_shift_id current
    /\ a_staff_id updated = a_staff_id current
    /\ a_role_id updated = a_role_id current
    /\ a_invited_at updated = a_invited_at current
    /\ a_email_sent_at updated = a_email_sent_at current
    /\ a_created_at updated = a_created_at current
    /\ a_response_message updated
       = match message with
         | Some m => Some m
         | None => a_response_message current
         end
    /\ a_responded_at updated = Some respondedAt
    /\ a_updated_at updated = updatedAt.
Proof.
  intros Hfind Hne.
  rewrite (updateAssignmentStatus_change assignmentId newStatus message
             changedBy changedByStaff metadata_ ipAddress userAgent
             respondedAt updatedAt logStamp auditStamp s current Hfind Hne).
  eexists _, _. split; [reflexivity|]. cbn [shift_assignments].
  split; [apply length_fmap|].
  split.
  { intros i a Hi Ha. rewrite list_lookup_fmap, Hi. cbn.
    apply String.eqb_neq in Ha. by rewrite Ha. }
  split.
  { intros i a Hi Ha. rewrite list_lookup_fmap, Hi. cbn.
    apply String.eqb_eq in Ha. rewrite Ha. eexists. split; [reflexivity|].
    split; [|reflexivity]. by apply String.eqb_eq. }
  repeat split; reflexivity.
Qed.
End UpdateAssignmentStatusMore.

(** ** The history and the statistics of an assignment *)

Lemma history_log_with_changers (s : store) (l : list assignment_log) :
  history_log <$> (with_changers s <$> l) = l.
Proof. induction l as [|e l IH]; [done|]. rewrite !fmap_cons. by f_equal. Qed.

(** X28. [getAssignmentHistory] returns the rows the status log holds for the
    assignment, all of them and each as often as it is logged, newest first. *)
Theorem getAssignmentHistory_complete (assignmentId : string) (s : store) :
  let result := history_log <$> getAssignmentHistory assignmentId s in
  Permutation result
    (List.filter
       (fun l => bool_decide (log_assignment_id (log_data l) = assignmentId))
       (shift_assignment_logs s))
  /\ StronglySorted (fun a b => log_created_at b <= log_created_at a) result
  /\ (forall l, In l result <->
        In l (shift_assignment_logs s)
        /\ log_assignment_id (log_data l) = assignmentId).
Proof.
  intros result. unfold result, getAssignmentHistory.
  rewrite history_log_with_changers.
  split; [apply sort_with_perm|].
  split; [apply (sort_with_desc log_created_at)|].
  intros l. rewrite <- (bool_decide_eq_true
                          (log_assignment_id (log_data l) = assignmentId)).
  rewrite <- (filter_In
                (fun l => bool_decide
                            (log_assignment_id (log_data l) = assignmentId))).
  split; apply Permutation_in;
    [apply sort_with_perm|symmetry; apply sort_with_perm].
Qed.

Lemma filter_length_le {A} (p : A -> bool) (l : list A) :
  (length (List.filter p l) <= length l)%nat.
Proof.
  induction l as [|x l IH]; [done|]. cbn [List.filter].
  destruct (p x); simpl; lia.
Qed.

Lemma filter_fst_length {A B} (p : A -> bool) (f : A -> B) (l : list A) :
  length (List.filter (fun ab => p ab.1) ((fun a => (a, f a)) <$> l))
  = length (List.filter p l).
Proof.
  induction l as [|x l IH]; [done|]. rewrite fmap_cons.
  cbn [List.filter fst]. destruct (p x); simpl; by rewrite IH.
Qed.

Lemma filter_disjoint_length {A} (p q : A -> bool) (l : list A) :
  (forall a, p a = true -> q a = true -> False) ->
  (length (List.filter p l) + length (List.filter q l) <= length l)%nat.
Proof.
  intros Hpq. induction l as [|x l IH]; [done|]. cbn [List.filter].
  destruct (p x) eqn:Hp, (q x) eqn:Hq; simpl; try lia.
  exfalso. by apply (Hpq x).
Qed.

Lemma getAssignmentStatistics_fields (shiftId : string) (s : store) :
  let st := getAssignmentStatistics shiftId s in
  let found :=
    List.filter
      (fun l => bool_decide (log_assignment_id (log_data l) = shiftId))
      (shift_assignment_logs s) in
  totalChanges st = length found
  /\ acceptedCount st
     = length (List.filter
                 (fun l => bool_decide (log_new_status (log_data l) = Accepted))
                 found)
  /\ declinedCount st
     = length (List.filter
                 (fun l => bool_decide (log_new_status (log_data l) = Declined))
                 found)
  /\ changedByManagerCount st
     = length (List.filter
                 (fun l => bool_decide (log_changed_by (log_data l) <> None))
                 found)
  /\ changedByStaffCount st
     = length (List.filter
                 (fun l =>
                    bool_decide (log_changed_by_staff (log_data l) <> None))
                 found).
Proof.
  intros st found. unfold st, getAssignmentStatistics.
  cbn [totalChanges acceptedCount declinedCount changedByManagerCount
       changedByStaffCount].
  split; [apply length_fmap|].
  pose (accepted := fun l : assignment_log =>
                      bool_decide (log_new_status (log_data l) = Accepted)).
  pose (declined := fun l : assignment_log =>
                      bool_decide (log_new_status (log_data l) = Declined)).
  pose (by_user := fun l : assignment_log =>
                     bool_decide (log_changed_by (log_data l) <> None)).
  pose (by_staff := fun l : assignment_log =>
                      bool_decide (log_changed_by_staff (log_data l) <> None)).
  split; [apply (filter_fst_length accepted)|].
  split; [apply (filter_fst_length declined)|].
  split; [apply (filter_fst_length by_user)|].
  apply (filter_fst_length by_staff).
Qed.

(** X29. The statistics of [getAssignmentStatistics] count the rows the status
    log holds under the id given: [totalChanges] is their number, which is
    also the length of the assignment's history; the transitions into accepted
    and into declined together, the transitions made by a user, and those made
    by a staff member are each at most that many. *)
Theorem getAssignmentStatistics_counts (shiftId : string) (s : store) :
  let st := getAssignmentStatistics shiftId s in
  totalChanges st = length (getAssignmentHistory shiftId s)
  /\ totalChanges st = length (logs st)
  /\ (acceptedCount st + declinedCount st <= totalChanges st)%nat
  /\ (changedByManagerCount st <= totalChanges st)%nat
  /\ (changedByStaffCount st <= totalChanges st)%nat
  /\ (forall l a, In (l, a) (logs st) ->
        In l (shift_assignment_logs s)
        /\ log_assignment_id (log_data l) = shiftId).
Proof.
  intros st.
  destruct (getAssignmentStatistics_fields shiftId s)
    as (Ht & Ha & Hd & Hm & Hs).
  fold st in Ht, Ha, Hd, Hm, Hs. rewrite Ht, Ha, Hd, Hm, Hs.
  split.
  { unfold getAssignmentHistory. rewrite length_fmap.
    symmetry. apply Permutation_length, sort_with_perm. }
  split. { unfold st, getAssignmentStatistics. cbn [logs].
           symmetry. apply length_fmap. }
  split.
  { apply filter_disjoint_length. intros l H1 H2.
    apply bool_decide_eq_true in H1, H2. congruence. }
  split; [apply filter_length_le|]. split; [apply filter_length_le|].
  intros l a Hin. unfold st, getAssignmentStatistics in Hin. cbn [logs] in Hin.
  apply list_elem_of_In, list_elem_of_fmap in Hin
    as (l' & [= -> ->] & Hin).
  apply list_elem_of_In, filter_In in Hin as [Hin Hp].
  by apply bool_decide_eq_true in Hp.
Qed.

(** X27. Every status change shows in the history and in the statistics of the
    assignment: after a successful change the history has exactly one entry
    more, the new transition among them, [formatAssignmentHistory] renders one
    line more, [totalChanges] is one higher, and the counters of the new
    status and of the actors given are one higher each; the history of every
    other assignment is what it was. *)
Theorem updateAssignmentStatus_then_history (assignmentId : string)
    (newStatus : response_status)
    (message changedBy changedByStaff : option string)
    (metadata_ : option jsobj) (ipAddress userAgent : option string)
    (respondedAt updatedAt logStamp auditStamp : Z) (s : store)
    (current : assignment) (toLocaleString : Z -> string) :
  List.find (fun a => String.eqb (a_id a) assignmentId) (shift_assignments s)
  = Some current ->
  a_response_status current <> newStatus ->
  exists r l s',
    updateAssignmentStatus assignmentId newStatus message changedBy
      changedByStaff metadata_ ipAddress userAgent respondedAt updatedAt
      logStamp auditStamp s = (Ok r, s')
    /\ log_previous_status (log_data l) = Some (a_response_status current)
    /\ log_new_status (log_data l) = newStatus
    /\ log_created_at l = logStamp
    /\ In l (history_log <$> getAssignmentHistory assignmentId s')
    /\ length (getAssignmentHistory assignmentId s')
       = S (length (getAssignmentHistory assignmentId s))
    /\ length (formatAssignmentHistory toLocaleString
                 (getAssignmentHistory assignmentId s'))
       = S (length (formatAssignmentHistory toLocaleString
                      (getAssignmentHistory assignmentId s)))
    /\ totalChanges (getAssignmentStatistics assignmentId s')
       = S (totalChanges (getAssignmentStatistics assignmentId s))
    /\ acceptedCount (getAssignmentStatistics assignmentId s')
       = (acceptedCount (getAssignmentStatistics assignmentId s)
          + if bool_decide (newStatus = Accepted) then 1 else 0)%nat
    /\ declinedCount (getAssignmentStatistics assignmentId s')
       = (declinedCount (getAssignmentStatistics assignmentId s)
          + if bool_decide (newStatus = Declined) then 1 else 0)%nat
    /\ changedByManagerCount (getAssignmentStatistics assignmentId s')
       = (changedByManagerCount (getAssignmentStatistics assignmentId s)
          + if bool_decide (changedBy <> None) then 1 else 0)%nat
    /\ changedByStaffCount (getAssignmentStatistics assignmentId s')
       = (changedByStaffCount (getAssignmentStatistics assignmentId s)
          + if bool_decide (changedByStaff <> None) then 1 else 0)%nat
    /\ (forall other, other <> assignmentId ->
          getAssignmentHistory other s' = getAssignmentHistory other s).
Proof.
  intros Hfind Hne.
  rewrite (updateAssignmentStatus_change assignmentId newStatus message
             changedBy changedByStaff metadata_ ipAddress userAgent
             respondedAt updatedAt logStamp auditStamp s current Hfind Hne).
  pose (l := {| log_data :=
                  {| log_assignment_id := assignmentId;
                     log_previous_status := Some (a_response_status current);
                     log_new_status := newStatus;
                     log_changed_by := changedBy;
                     log_changed_by_staff := changedByStaff;
                     log_message := message;
                     log_metadata := metadata_ |};
                log_created_at := logStamp |}).
  eexists _, l, _. split; [reflexivity|]. fold l.
  set (s' := {| tables := tables s; shift_assignments := _;
                shift_assignment_logs := shift_assignment_logs s ++ [l];
                audit_logs := _; tx_opened := _ |}).
  assert (forall i,
            List.filter
              (fun x => bool_decide (log_assignment_id (log_data x) = i))
              (shift_assignment_logs s')
            = List.filter
                (fun x => bool_decide (log_assignment_id (log_data x) = i))
                (shift_assignment_logs s)
              ++ (if bool_decide (assignmentId = i) then [l] else []))
    as Hfilter.
  { intros i. unfold s'. cbn [shift_assignment_logs].
    rewrite List.filter_app. cbn [List.filter]. f_equal. }
  assert (forall p : assignment_log -> bool,
            length (List.filter p
                      (List.filter
                         (fun x => bool_decide
                                     (log_assignment_id (log_data x)
                                      = assignmentId))
                         (shift_assignment_logs s')))
            = (length (List.filter p
                         (List.filter
                            (fun x => bool_decide
                                        (log_assignment_id (log_data x)
                                         = assignmentId))
                            (shift_assignment_logs s)))
               + if p l then 1 else 0)%nat) as Hcount.
  { intros p. rewrite Hfilter, bool_decide_eq_true_2 by done.
    rewrite List.filter_app, length_app. cbn [List.filter].
    by destruct (p l). }
  assert (length (getAssignmentHistory assignmentId s')
          = S (length (getAssignmentHistory assignmentId s))) as Hlen.
  { unfold getAssignmentHistory. rewrite !length_fmap.
    rewrite !(Permutation_length (sort_with_perm _ _)).
    rewrite Hfilter, bool_decide_eq_true_2 by done.
    rewrite length_app. simpl. lia. }
  split; [reflexivity|]. split; [reflexivity|]. split; [reflexivity|].
  split.
  { unfold getAssignmentHistory. rewrite history_log_with_changers.
    apply (Permutation_in _ (Permutation_sym (sort_with_perm _ _))).
    rewrite Hfilter, bool_decide_eq_true_2 by done.
    apply in_or_app. right. by left. }
  split; [exact Hlen|].
  split. { unfold formatAssignmentHistory. by rewrite !length_fmap, Hlen. }
  destruct (getAssignmentStatistics_fields assignmentId s)
    as (Ht & Ha & Hd & Hm & Hs).
  destruct (getAssignmentStatistics_fields assignmentId s')
    as (Ht' & Ha' & Hd' & Hm' & Hs').
  rewrite Ht, Ha, Hd, Hm, Hs, Ht', Ha', Hd', Hm', Hs', !Hcount.
  split.
  { rewrite Hfilter, bool_decide_eq_true_2 by done.
    rewrite length_app. simpl. lia. }
  split; [reflexivity|]. split; [reflexivity|]. split; [reflexivity|].
  split; [reflexivity|].
  intros other Hother. unfold getAssignmentHistory.
  rewrite Hfilter, bool_decide_eq_false_2 by done. rewrite app_nil_r.
  apply list_fmap_ext. intros _ x _. reflexivity.
Qed.

(** ** The table after [createNewVersion] *)

Lemma find_app_first {A} (p : A -> bool) (l1 l2 : list A) :
  List.find p (l1 ++ l2)
  = match List.find p l1 with
    | Some x => Some x
    | None => List.find p l2
    end.
Proof.
  induction l1 as [|x l1 IH]; [done|]. cbn [app List.find].
  by destruct (p x).
Qed.

Lemma find_map_same {A} (p : A -> bool) (f : A -> A) (l : list A) :
  (forall a, p (f a) = p a) ->
  List.find p (List.map f l) = f <$> List.find p l.
Proof.
  intros Hp. induction l as [|x l IH]; [done|].
  cbn [List.map List.find]. rewrite Hp. by destruct (p x).
Qed.

Lemma retire_where_keeps (currentId : string) (now : Z) (r : row)
    (k : string) :
  k ∉ ["valid_to"; "is_current"; "updated_at"] ->
  retire_where currentId now r !! k = r !! k.
Proof.
  intros Hk. unfold retire_where.
  destruct (col_eq "id" (VStr currentId) r); [|done].
  by apply retirement_keeps.
Qed.

Lemma retire_where_id (currentId : string) (now : Z) (r : row) :
  retire_where currentId now r !! "id" = r !! "id".
Proof. apply retire_where_keeps. by_eval. Qed.

Lemma retire_where_previous (currentId : string) (now : Z) (r : row) :
  retire_where currentId now r !! "previous_version_id"
  = r !! "previous_version_id".
Proof. apply retire_where_keeps. by_eval. Qed.

Lemma retire_where_row_id (currentId : string) (now : Z) (r : row) :
  row_id (retire_where currentId now r) = row_id r.
Proof. unfold row_id. by rewrite retire_where_id. Qed.

Lemma retire_where_not_current (currentId : string) (now : Z) (r : row) :
  r !! "id" = Some (VStr currentId)
  \/ r !! "is_current" = Some (VBool false) ->
  retire_where currentId now r !! "is_current" = Some (VBool false).
Proof.
  unfold retire_where, col_eq. intros [Hid|Hc].
  - rewrite bool_decide_eq_true_2 by done.
    by destruct (retirement_is_retirement now r) as (_ & Hr & _).
  - case_bool_decide as Hhit; [|done].
    by destruct (retirement_is_retirement now r) as (_ & Hr & _).
Qed.

Lemma has_id_find (rows : list row) (i : value) :
  has_id rows i = false -> List.find (col_eq "id" i) rows = None.
Proof.
  intros H. destruct (List.find _ _) as [r|] eqn:E; [exfalso|done].
  apply find_some in E as [Hin Hp]. apply bool_decide_eq_true in Hp.
  by apply (has_id_false _ _ _ H Hin).
Qed.

Section AfterCreateNewVersion.
Variables (currentId : string) (updates : entries) (now : Z) (fresh : string).
Variables (rows : list row) (current : row).
Hypothesis Hcurrent :
  List.find (is_current_version currentId) rows = Some current.
Hypothesis Hfresh : has_id rows (VStr fresh) = false.

Local Abbreviation newVersion :=
  (stored_row (new_version_values current updates currentId now) fresh).
Local Abbreviation rows' :=
  (List.map (retire_where currentId now) rows ++ [newVersion]).

Lemma after_find_id (i : option value) :
  List.find (col_is "id" i) rows'
  = match List.find (col_is "id" i) rows with
    | Some r => Some (retire_where currentId now r)
    | None => if col_is "id" i newVersion then Some newVersion else None
    end.
Proof.
  rewrite find_app_first, find_map_same.
  - destruct (List.find (col_is "id" i) rows); [done|]. cbn [List.find].
    by destruct (col_is "id" i newVersion).
  - intros a. destruct i as [i|]; [|done]. unfold col_is, col_eq.
    by rewrite retire_where_id.
Qed.

Lemma after_find_new :
  List.find (col_is "id" (Some (VStr fresh))) rows' = Some newVersion.
Proof.
  rewrite after_find_id.
  change (col_is "id" (Some (VStr fresh))) with (col_eq "id" (VStr fresh)).
  rewrite (has_id_find _ _ Hfresh). unfold col_eq.
  destruct (new_version_is_successor currentId fresh now updates current)
    as (-> & _). by rewrite bool_decide_eq_true_2.
Qed.

Lemma after_fresh_differs : fresh <> currentId.
Proof.
  intros ->. destruct (find_is_current_version _ _ _ Hcurrent) as (Hin & Hid & _).
  by apply (has_id_false _ _ _ Hfresh Hin).
Qed.

Lemma after_no_current :
  List.find (is_current_version currentId) rows' = None.
Proof.
  destruct (List.find _ rows') as [r|] eqn:E; [exfalso|done].
  apply find_some in E as [Hin Hp].
  apply andb_true_iff in Hp as [H1 H2].
  apply bool_decide_eq_true in H1, H2.
  apply in_app_or in Hin as [Hin|[<-|[]]].
  - apply in_map_iff in Hin as (r0 & <- & _).
    rewrite retire_where_id in H1.
    rewrite retire_where_not_current in H2 by (by left). discriminate H2.
  -     destruct (new_version_is_successor currentId fresh now updates current)
      as (Hid & _).
    rewrite Hid in H1. injection H1 as H1. by apply after_fresh_differs.
Qed.

Lemma after_keyed :
  fresh <> "" -> keyed rows -> keyed rows'.
Proof.
  intros Hne [Hrows Hnd].
  destruct (new_version_is_successor currentId fresh now updates current)
    as (Hid & _ & _ & _ & Hcur & _).
  split.
  - intros r Hin. apply in_app_or in Hin as [Hin|[<-|[]]].
    + apply in_map_iff in Hin as (r0 & <- & Hin0).
      destruct (Hrows r0 Hin0) as [(i & Hi & Hid0) (b & Hb)].
      split; [exists i; by rewrite retire_where_id|].
      unfold retire_where. destruct (col_eq "id" (VStr currentId) r0).
      * exists false.
        by destruct (retirement_is_retirement now r0) as (_ & H & _).
      * by exists b.
    + split; [by exists fresh|by exists true].
  - rewrite fmap_app.
    assert (row_id <$> List.map (retire_where currentId now) rows
            = row_id <$> rows) as ->.
    { clear. induction rows as [|r l IH]; [done|].
      cbn [List.map]. rewrite !fmap_cons, IH. f_equal.
      apply retire_where_row_id. }
    apply NoDup_app. split; [done|]. split; [|apply NoDup_singleton].
    intros i Hi Hi'. apply list_elem_of_singleton in Hi'. subst i.
    apply list_elem_of_fmap in Hi as (r & Hr & Hin).
    apply list_elem_of_In in Hin.
    destruct (Hrows r Hin) as [(i & _ & Hid0) _].
    apply (has_id_false _ _ _ Hfresh Hin).
    unfold row_id in Hr. rewrite Hid in Hr. rewrite Hid0 in Hr |- *.
    by subst i.
Qed.

Lemma after_walk (i : option value) (l : list row) :
  (forall r, In r rows -> r !! "previous_version_id" <> Some (VStr fresh)) ->
  walk rows i l -> i <> Some (VStr fresh) ->
  walk rows' i (List.map (retire_where currentId now) l).
Proof.
  intros Hdangling. induction 1 as [i Hi|i Hi Hf|i r l Hi Hf _ IH]; intros Hne.
  - by apply walk_end.
  - apply walk_missing; [done|]. rewrite after_find_id, Hf.
    destruct i as [i|]; [|done]. unfold col_is, col_eq.
    destruct (new_version_is_successor currentId fresh now updates current)
      as (-> & _).
    rewrite bool_decide_eq_false_2; [done|]. congruence.
  - cbn [List.map]. apply walk_step; [done| |].
    + by rewrite after_find_id, Hf.
    + rewrite retire_where_previous. apply IH.
      apply Hdangling. by apply find_some in Hf as [? _].
Qed.

Lemma after_walk_new (l : list row) :
  fresh <> "" ->
  (forall r, In r rows -> r !! "previous_version_id" <> Some (VStr fresh)) ->
  walk rows (Some (VStr currentId)) l ->
  walk rows' (Some (VStr fresh))
    (newVersion :: List.map (retire_where currentId now) l).
Proof.
  intros Hne Hdangling Hw. apply walk_step.
  - simpl. by destruct fresh.
  - apply after_find_new.
  - destruct (new_version_is_successor currentId fresh now updates current)
      as (_ & -> & _).
    apply after_walk; [done|done|].
    intros [= H]. by apply after_fresh_differs.
Qed.
End AfterCreateNewVersion.

(** ** A new version in its lineage *)

Lemma chain_stored (rows : list row) (L : list row) :
  chain rows L -> forall r, In r L -> stored_version rows r.
Proof.
  induction 1 as [r Hs _|r r' l Hs _ _ IH]; intros x Hx.
  - by destruct Hx as [<-|[]].
  - destruct Hx as [<-|Hx]; [done|by apply IH].
Qed.

Lemma chain_after (currentId : string) (updates : entries) (now : Z)
    (fresh : string) (rows : list row) (current : row) (L : list row) :
  has_id rows (VStr fresh) = false ->
  chain rows L ->
  chain
    (List.map (retire_where currentId now) rows
     ++ [stored_row (new_version_values current updates currentId now) fresh])
    (List.map (retire_where currentId now) L).
Proof.
  intros Hfresh.
  assert (forall r, stored_version rows r ->
            stored_version
              (List.map (retire_where currentId now) rows
               ++ [stored_row
                     (new_version_values current updates currentId now) fresh])
              (retire_where currentId now r)) as Hstored.
  { intros r (i & Hi & Hid & Hf). exists i. split; [done|].
    split; [by rewrite retire_where_id|].
    change (col_eq "id" (VStr i)) with (col_is "id" (Some (VStr i))).
    rewrite after_find_id.
    change (col_is "id" (Some (VStr i))) with (col_eq "id" (VStr i)).
    by rewrite Hf. }
  induction 1 as [r Hs Hp|r r' l Hs Hp _ IH]; cbn [List.map].
  - apply chain_root; [by apply Hstored|].
    by rewrite retire_where_previous.
  - apply chain_cons; [by apply Hstored| |exact IH].
    by rewrite retire_where_previous, retire_where_id.
Qed.

Lemma split_unique {A B} (f : A -> B) (l1 l2 l1' l2' : list A) (u u' : A) :
  NoDup (f <$> l1 ++ u :: l2) ->
  l1 ++ u :: l2 = l1' ++ u' :: l2' ->
  f u = f u' ->
  l1 = l1'.
Proof.
  revert l1'. induction l1 as [|x l1 IH]; intros l1' Hnd Heq Hf.
  - destruct l1' as [|z l1']; [done|]. exfalso.
    cbn [app] in Heq, Hnd. injection Heq as -> ->.
    rewrite fmap_cons in Hnd. apply NoDup_cons in Hnd as [Hnotin _].
    apply Hnotin. rewrite Hf. apply list_elem_of_fmap. exists u'.
    split; [done|]. apply elem_of_app. right. by left.
  - destruct l1' as [|z l1'].
    + exfalso. cbn [app] in Heq, Hnd. injection Heq as <- <-.
      rewrite fmap_cons in Hnd. apply NoDup_cons in Hnd as [Hnotin _].
      apply Hnotin. rewrite <- Hf. apply list_elem_of_fmap. exists u.
      split; [done|]. apply elem_of_app. right. by left.
    + cbn [app] in Heq, Hnd. injection Heq as <- Heq. f_equal.
      rewrite fmap_cons in Hnd.
      apply NoDup_cons in Hnd as [_ Hnd]. by apply IH.
Qed.

Lemma chain_successor_unique (rows : list row) (L pre post : list row)
    (x r y : row) :
  chain rows L -> NoDup (row_id <$> L) ->
  L = pre ++ x :: r :: post ->
  In y L -> y !! "previous_version_id" = r !! "id" ->
  y = x.
Proof.
  intros Hchain Hnd HL Hy Hprev.
  assert (stored_version rows r) as (i & _ & Hid & _).
  { apply (chain_stored _ _ Hchain). rewrite HL.
    apply in_or_app. right. right. by left. }
  apply in_split in Hy as (a & b & Hab).
  pose proof (chain_suffix _ _ Hchain _ _ _ Hab) as Hsuf.
  inversion Hsuf as [? _ Hroot|? y' b' _ Hlink _]; subst.
  - rewrite Hroot, Hid in Hprev. discriminate Hprev.
  - assert (row_id y' = row_id r) as Hsame.
    { unfold row_id. by rewrite <- Hlink, Hprev. }
    assert (a ++ [y] = pre ++ [x]) as Heq.
    { apply (split_unique row_id _ b' _ post y' r); [| |done].
      - rewrite <- app_assoc. cbn [app]. by rewrite <- Hab.
      - rewrite <- !app_assoc. cbn [app]. by symmetry. }
    by apply app_inj_tail in Heq as [_ ->].
Qed.

Lemma lineage_resolves (rows : list row) (L : list row) (h : row)
    (t : list row) :
  lineage rows L -> L = h :: t ->
  forall pre r post, L = pre ++ r :: post -> resolves rows r h.
Proof.
  intros (Hchain & Hnd & (h0 & t0 & HL0 & Hcur & Htail) & Hclosed) HL.
  rewrite HL in HL0. injection HL0 as <- <-.
  induction pre as [|x pre IH] using rev_ind; intros r post Hsplit.
  - rewrite HL in Hsplit. simpl in Hsplit. injection Hsplit as <- <-.
    by apply resolves_current.
  - rewrite <- app_assoc in Hsplit. simpl in Hsplit.
    assert (In r t) as Hrt.
    { rewrite HL in Hsplit. destruct pre as [|z pre]; simpl in Hsplit.
      - injection Hsplit as _ ->. by left.
      - injection Hsplit as _ ->. apply in_or_app. right. right. by left. }
    assert (x !! "previous_version_id" = r !! "id") as Hlink.
    { pose proof (chain_suffix _ _ Hchain _ _ _ Hsplit) as Hsuf.
      by inversion Hsuf. }
    assert (In x rows) as Hx.
    { destruct (chain_stored _ _ Hchain x) as (i & _ & _ & Hf).
      - rewrite Hsplit. apply in_or_app. right. by left.
      - by apply find_some in Hf as [? _]. }
    destruct (List.find (col_is "previous_version_id" (r !! "id")) rows)
      as [y|] eqn:Hf.
    + apply find_some in Hf as Hy. destruct Hy as [Hy Hp].
      assert (y !! "previous_version_id" = r !! "id") as Hyprev.
      { destruct (r !! "id") as [i|]; [|done].
        by apply bool_decide_eq_true in Hp. }
      assert (In y L) as HyL.
      { apply (Hclosed y r); [|done|done]. rewrite Hsplit.
        apply in_or_app. right. right. by left. }
      assert (y = x) as ->
        by (by eapply (chain_successor_unique rows L pre post x r y)).
      apply (resolves_advance _ r x h); [by apply Htail|done|].
      by apply (IH x (r :: post)).
    + exfalso. apply (find_none _ _ Hf) in Hx.
      destruct (chain_stored _ _ Hchain r) as (i & _ & Hid & _).
      { rewrite Hsplit. apply in_or_app. right. right. by left. }
      rewrite Hid in Hx. cbn [col_is] in Hx.
      unfold col_eq in Hx. by rewrite Hlink, Hid, bool_decide_eq_true_2 in Hx.
Qed.

(** X11. On a table keyed by uuid, [getCurrentVersion] started from any row of
    a lineage satisfying I1 returns the head of the lineage, its one current
    row. *)
Theorem getCurrentVersion_lineage_head (table : string) (s : store)
    (L pre post : list row) (r : row) :
  keyed (get_table s table) ->
  lineage (get_table s table) L ->
  L = pre ++ r :: post ->
  exists h t n,
    L = h :: t
    /\ h !! "is_current" = Some (VBool true)
    /\ forall fuel, (n <= fuel)%nat ->
         getCurrentVersion fuel table (row_id r) s = Some (Some h).
Proof.
  intros Hk Hlin Hsplit.
  pose proof Hlin as (Hchain & _ & (h & t & HL & Hcur & _) & _).
  pose proof (lineage_resolves _ _ h t Hlin HL pre r post Hsplit) as Hres.
  destruct (chain_stored _ _ Hchain r) as (i & _ & Hid & Hf).
  { rewrite Hsplit. apply in_or_app. right. by left. }
  apply find_some in Hf as [Hin _].
  destruct (current_loop_resolves _ _ _ Hk Hres Hin) as [n Hn].
  exists h, t, n. split; [done|]. split; [done|].
  intros fuel Hfuel. unfold getCurrentVersion, row_id. rewrite Hid.
  rewrite <- Hid. by apply Hn.
Qed.

Section CreateNewVersionInLineage.
Variables (table currentId : string) (updates : entries).
Variables (performedBy performedByStaff ipAddress userAgent : option string).
Variable metadata_ : option jsobj.
Variables (now : Z) (fresh : string) (stamp : Z).
Variables (s : store) (current : row).
Hypothesis Hcurrent :
  List.find (is_current_version currentId) (get_table s table) = Some current.
Hypothesis Hfresh : has_id (get_table s table) (VStr fresh) = false.

Lemma createNewVersion_table :
  exists s',
    createNewVersion table currentId updates performedBy performedByStaff
      ipAddress userAgent metadata_ now fresh stamp s
    = (Ok (stored_row (new_version_values current updates currentId now) fresh),
       s')
    /\ get_table s' table
       = List.map (retire_where currentId now) (get_table s table)
         ++ [stored_row (new_version_values current updates currentId now)
               fresh]
    /\ audit_logs s' = audit_logs s ++ [ {|
         audit_data :=
           {| organization_id := or_null (current !! "organization_id");
              entity_type := getEntityType table;
              entity_id := fresh;
              action := AUpdate;
              performed_by := performedBy;
              performed_by_staff := performedByStaff;
              old_values :=
                Some (changed_snapshots current updates (keys updates)).1;
              new_values :=
                Some (changed_snapshots current updates (keys updates)).2;
              changed_fields := Some (keys updates);
              ip_address := ipAddress;
              user_agent := userAgent;
              metadata := metadata_ |};
         audit_created_at := stamp |} ].
Proof.
  destruct (createNewVersion_run table currentId updates performedBy
              performedByStaff ipAddress userAgent metadata_ now fresh stamp
              s current Hcurrent Hfresh)
    as (s' & Hrun & Htab & _ & _ & Haud & _).
  exists s'. split; [exact Hrun|]. split; [|exact Haud].
  unfold get_table at 1. rewrite Htab. by rewrite lookup_insert_eq.
Qed.

(** X2. [createNewVersion] keeps a table keyed: when the ids of the table are
    non-empty and unique and [is_current] is a boolean in every row, the same
    holds after a successful call whose generated id is not empty. *)
Theorem createNewVersion_keeps_keyed :
  fresh <> "" ->
  keyed (get_table s table) ->
  exists newVersion s',
    createNewVersion table currentId updates performedBy performedByStaff
      ipAddress userAgent metadata_ now fresh stamp s = (Ok newVersion, s')
    /\ keyed (get_table s' table).
Proof.
  intros Hne Hk. destruct createNewVersion_table as (s' & Hrun & Htab & _).
  eexists _, s'. split; [exact Hrun|]. rewrite Htab.
  by apply (after_keyed currentId updates now fresh _ current Hfresh).
Qed.

(** X4. After a successful [createNewVersion], a second call for the same, now
    retired, id fails with 'Current version not found' and writes nothing,
    whatever its other arguments. *)
Theorem createNewVersion_stale_id_fails :
  exists newVersion s',
    createNewVersion table currentId updates performedBy performedByStaff
      ipAddress userAgent metadata_ now fresh stamp s = (Ok newVersion, s')
    /\ forall updates2 performedBy2 performedByStaff2 ipAddress2 userAgent2
         metadata2 now2 fresh2 stamp2,
         exists s'',
           createNewVersion table currentId updates2 performedBy2
             performedByStaff2 ipAddress2 userAgent2 metadata2 now2 fresh2
             stamp2 s'
           = (Err (JsError "Current version not found"), s'')
           /\ tables s'' = tables s'
           /\ audit_logs s'' = audit_logs s'.
Proof.
  destruct createNewVersion_table as (s' & Hrun & Htab & _).
  eexists _, s'. split; [exact Hrun|]. intros *.
  exists (begin_tx s').
  unfold createNewVersion, transaction, createNewVersion_body, bind, findFirst.
  change (get_table (begin_tx s') table) with (get_table s' table).
  rewrite Htab.
  by rewrite (after_no_current currentId updates now fresh _ current
                Hcurrent Hfresh).
Qed.

(** X5. After a successful [createNewVersion] on a keyed table whose current
    row had no successor, [getCurrentVersion] started from the retired id
    arrives at the new version. *)
Theorem createNewVersion_then_getCurrentVersion :
  fresh <> "" ->
  keyed (get_table s table) ->
  (forall r, In r (get_table s table) ->
     r !! "previous_version_id" <> Some (VStr currentId)) ->
  exists newVersion s' n,
    createNewVersion table currentId updates performedBy performedByStaff
      ipAddress userAgent metadata_ now fresh stamp s = (Ok newVersion, s')
    /\ newVersion !! "is_current" = Some (VBool true)
    /\ forall fuel, (n <= fuel)%nat ->
         getCurrentVersion fuel table currentId s' = Some (Some newVersion).
Proof.
  intros Hne Hk Hhead.
  destruct createNewVersion_table as (s' & Hrun & Htab & _).
  pose proof (after_keyed currentId updates now fresh _ current Hfresh Hne
                Hk) as Hk'.
  destruct (new_version_is_successor currentId fresh now updates current)
    as (Hid & Hprev & _ & _ & Hcur & _).
  destruct (find_is_current_version _ _ _ Hcurrent) as (Hin & Hcid & _).
  set (newVersion :=
         stored_row (new_version_values current updates currentId now) fresh)
    in *.
  set (rows' := List.map (retire_where currentId now) (get_table s table)
                ++ [newVersion]) in *.
  assert (In (retire_where currentId now current) rows') as Hin'.
  { apply in_or_app. left. by apply in_map. }
  assert (resolves rows' (retire_where currentId now current) newVersion)
    as Hres.
  { apply (resolves_advance _ _ newVersion newVersion).
    - apply retire_where_not_current. by left.
    - rewrite retire_where_id, Hcid. unfold rows'.
      rewrite find_app_first.
      destruct (List.find _ (List.map _ _)) as [y|] eqn:E.
      + exfalso. apply find_some in E as [Hy Hp].
        apply in_map_iff in Hy as (y0 & <- & Hy0).
        apply bool_decide_eq_true in Hp.
        rewrite retire_where_previous in Hp. by apply (Hhead y0).
      + cbn [List.find col_is]. unfold col_eq.
        by rewrite Hprev, bool_decide_eq_true_2.
    - by apply resolves_current. }
  destruct (current_loop_resolves _ _ _ Hk' Hres Hin') as [n Hn].
  exists newVersion, s', n. split; [exact Hrun|]. split; [exact Hcur|].
  intros fuel Hfuel. unfold getCurrentVersion. rewrite Htab.
  rewrite <- Hcid, <- (retire_where_id currentId now current).
  by apply Hn.
Qed.

(** X6. After a successful [createNewVersion], the history read from the new
    version is the history that was read from the retired id, each row as the
    retirement left it, and the new version on top: one row more. This holds
    when the generated id is not empty and no row of the table names it as its
    predecessor. *)
Theorem createNewVersion_then_getEntityHistory (fuel : nat)
    (before : list row) :
  fresh <> "" ->
  (forall r, In r (get_table s table) ->
     r !! "previous_version_id" <> Some (VStr fresh)) ->
  getEntityHistory fuel table currentId s = Some before ->
  exists newVersion s' after,
    createNewVersion table currentId updates performedBy performedByStaff
      ipAddress userAgent metadata_ now fresh stamp s = (Ok newVersion, s')
    /\ getEntityHistory (S fuel) table fresh s' = Some after
    /\ Permutation after
         (newVersion :: List.map (retire_where currentId now) before)
    /\ newest_first after
    /\ length after = S (length before).
Proof.
  intros Hne Hdangling Hbefore.
  destruct createNewVersion_table as (s' & Hrun & Htab & _).
  unfold getEntityHistory in Hbefore.
  destruct (history_loop fuel (get_table s table) (Some (VStr currentId)) [])
    as [visited|] eqn:Hloop; [|done].
  injection Hbefore as <-.
  apply history_loop_Some in Hloop as (l & Hw & -> & Hlen).
  cbn [app] in *.
  pose proof (after_walk_new currentId updates now fresh _ current Hcurrent
                Hfresh l Hne Hdangling Hw) as Hw'.
  rewrite <- Htab in Hw'.
  eexists _, s', _. split; [exact Hrun|].
  split.
  { apply (getEntityHistory_walk _ _ _ _ _ Hw').
    cbn [length]. rewrite length_map. lia. }
  assert (Permutation
            (sort_with (fun a b => valid_from b - valid_from a)
               (stored_row (new_version_values current updates currentId now)
                  fresh :: List.map (retire_where currentId now) l))
            (stored_row (new_version_values current updates currentId now)
               fresh
             :: List.map (retire_where currentId now)
                  (sort_with (fun a b => valid_from b - valid_from a) l)))
    as Hperm.
  { rewrite sort_with_perm. constructor. apply Permutation_map.
    symmetry. apply sort_with_perm. }
  split; [exact Hperm|]. split; [apply (sort_with_desc valid_from)|].
  rewrite (Permutation_length Hperm). cbn [length]. by rewrite length_map.
Qed.

(** X3. [createNewVersion] keeps invariant I1: when the rows [L] of the table
    form a lineage whose head is the current row with the given id, then after
    a successful call the new version followed by the rows of [L], the old
    head retired, form a lineage of the table again. This holds when the
    generated id is not empty and no row names it as its predecessor. *)
Theorem createNewVersion_keeps_lineage (L t : list row) :
  fresh <> "" ->
  (forall r, In r (get_table s table) ->
     r !! "previous_version_id" <> Some (VStr fresh)) ->
  lineage (get_table s table) L ->
  L = current :: t ->
  exists newVersion s',
    createNewVersion table currentId updates performedBy performedByStaff
      ipAddress userAgent metadata_ now fresh stamp s = (Ok newVersion, s')
    /\ lineage (get_table s' table)
         (newVersion :: List.map (retire_where currentId now) L).
Proof.
  intros Hne Hdangling (Hchain & Hnd & (h & t0 & HL0 & _ & Htail) & Hclosed)
    HL.
  rewrite HL in HL0. injection HL0 as <- <-.
  destruct createNewVersion_table as (s' & Hrun & Htab & _).
  destruct (new_version_is_successor currentId fresh now updates current)
    as (Hid & Hprev & _ & _ & Hcur & _).
  destruct (find_is_current_version _ _ _ Hcurrent) as (Hin & Hcid & _).
  eexists _, s'. split; [exact Hrun|]. rewrite Htab.
  set (rows := get_table s table) in *.
  set (newVersion :=
         stored_row (new_version_values current updates currentId now) fresh)
    in *.
  assert (forall r, In r L -> In r rows) as HLrows.
  { intros r Hr. destruct (chain_stored _ _ Hchain r Hr) as (i & _ & _ & Hf).
    by apply find_some in Hf as [? _]. }
  split; [|split; [|split]].
  - pose proof (chain_after currentId updates now fresh rows current L Hfresh
                  Hchain) as Hafter.
    rewrite HL in Hafter |- *. cbn [List.map] in Hafter |- *.
    apply chain_cons; [|by rewrite retire_where_id, Hcid|exact Hafter].
    exists fresh. split; [done|]. split; [exact Hid|].
    apply (after_find_new currentId updates now fresh rows current Hfresh).
  - rewrite fmap_cons. apply NoDup_cons. split.
    + intros Hi. apply list_elem_of_fmap in Hi as (r & Hr & Hin').
      apply list_elem_of_In, in_map_iff in Hin' as (r0 & <- & Hr0).
      rewrite retire_where_row_id in Hr.
      destruct (chain_stored _ _ Hchain r0 Hr0) as (i & _ & Hid0 & _).
      apply (has_id_false _ _ _ Hfresh (HLrows r0 Hr0)).
      unfold row_id in Hr. rewrite Hid, Hid0 in Hr. rewrite Hid0.
      by subst i.
    + assert (row_id <$> List.map (retire_where currentId now) L
              = row_id <$> L) as ->; [|done].
      clear. induction L as [|r l IH]; [done|].
      cbn [List.map]. rewrite !fmap_cons, IH. f_equal.
      apply retire_where_row_id.
  - exists newVersion, (List.map (retire_where currentId now) L).
    split; [done|]. split; [exact Hcur|].
    intros r Hr. apply in_map_iff in Hr as (r0 & <- & Hr0).
    apply retire_where_not_current. rewrite HL in Hr0.
    destruct Hr0 as [<-|Hr0]; [by left|right; by apply Htail].
  - intros r r' Hr' Hr Hlink.
    apply in_app_or in Hr as [Hr|[<-|[]]]; [|by left].
    apply in_map_iff in Hr as (r0 & <- & Hr0).
    rewrite retire_where_previous in Hlink.
    destruct Hr' as [<-|Hr'].
    + exfalso. rewrite Hid in Hlink. by apply (Hdangling r0).
    + apply in_map_iff in Hr' as (r0' & <- & Hr0').
      rewrite retire_where_id in Hlink.
      right. apply in_map. by apply (Hclosed r0 r0').
Qed.
End CreateNewVersionInLineage.

(** ** Entity types, empty updates and versioning columns *)


Section CreateNewVersionEdges.
Variables (table currentId : string).
Variables (performedBy performedByStaff ipAddress userAgent : option string).
Variable metadata_ : option jsobj.
Variables (now : Z) (fresh : string) (stamp : Z).
Variables (s : store) (current : row).
Hypothesis Hcurrent :
  List.find (is_current_version currentId) (get_table s table) = Some current.
Hypothesis Hfresh : has_id (get_table s table) (VStr fresh) = false.

(** X7. [createNewVersion] does not look whether anything changes: with no
    updates at all it still retires the current row and adds a new version
    that differs from it in the versioning columns only, and it logs an update
    with an empty list of changed fields and empty snapshots. *)
Theorem createNewVersion_without_updates :
  exists newVersion e s',
    createNewVersion table currentId [] performedBy performedByStaff
      ipAddress userAgent metadata_ now fresh stamp s = (Ok newVersion, s')
    /\ (forall k, k ∉ managed_fields -> newVersion !! k = current !! k)
    /\ newVersion !! "id" = Some (VStr fresh)
    /\ get_table s' table
       = List.map (retire_where currentId now) (get_table s table)
         ++ [newVersion]
    /\ audit_logs s' = audit_logs s ++ [e]
    /\ action (audit_data e) = AUpdate
    /\ changed_fields (audit_data e) = Some []
    /\ old_values (audit_data e) = Some ∅
    /\ new_values (audit_data e) = Some ∅.
Proof.
  destruct (createNewVersion_table table currentId [] performedBy
              performedByStaff ipAddress userAgent metadata_ now fresh stamp
              s current Hcurrent Hfresh) as (s' & Hrun & Htab & Haud).
  destruct (new_version_is_successor currentId fresh now [] current)
    as (Hid & _ & _ & _ & _ & _ & _ & Hrest).
  eexists _, _, s'. split; [exact Hrun|].
  split. { intros k Hk. by rewrite (Hrest k Hk). }
  split; [exact Hid|]. split; [exact Htab|]. split; [exact Haud|].
  repeat split.
Qed.

(** X8. The versioning columns are not the caller's to set: two calls whose
    updates agree on every other column store the same new version, while each
    logs its own updates, the ignored ones included, as changed fields. *)
Theorem createNewVersion_ignores_managed_updates (updates1 updates2 : entries) :
  (forall k, k ∉ managed_fields -> get updates1 k = get updates2 k) ->
  exists newVersion e1 e2 s1 s2,
    createNewVersion table currentId updates1 performedBy performedByStaff
      ipAddress userAgent metadata_ now fresh stamp s = (Ok newVersion, s1)
    /\ createNewVersion table currentId updates2 performedBy performedByStaff
         ipAddress userAgent metadata_ now fresh stamp s = (Ok newVersion, s2)
    /\ get_table s1 table = get_table s2 table
    /\ audit_logs s1 = audit_logs s ++ [e1]
    /\ audit_logs s2 = audit_logs s ++ [e2]
    /\ changed_fields (audit_data e1) = Some (keys updates1)
    /\ changed_fields (audit_data e2) = Some (keys updates2).
Proof.
  intros Hagree.
  destruct (createNewVersion_table table currentId updates1 performedBy
              performedByStaff ipAddress userAgent metadata_ now fresh stamp
              s current Hcurrent Hfresh) as (s1 & Hrun1 & Htab1 & Haud1).
  destruct (createNewVersion_table table currentId updates2 performedBy
              performedByStaff ipAddress userAgent metadata_ now fresh stamp
              s current Hcurrent Hfresh) as (s2 & Hrun2 & Htab2 & Haud2).
  assert (stored_row (new_version_values current updates1 currentId now) fresh
          = stored_row (new_version_values current updates2 currentId now)
              fresh) as Hsame.
  { destruct (new_version_is_successor currentId fresh now updates1 current)
      as (A1 & A2 & A3 & A4 & A5 & A6 & A7 & A8).
    destruct (new_version_is_successor currentId fresh now updates2 current)
      as (B1 & B2 & B3 & B4 & B5 & B6 & B7 & B8).
    apply map_eq. intros k.
    destruct (decide (k ∈ managed_fields)) as [Hk|Hk].
    - unfold managed_fields in Hk.
      repeat (apply elem_of_cons in Hk as [->|Hk]; [congruence|]).
      by apply elem_of_nil in Hk.
    - by rewrite (A8 k Hk), (B8 k Hk), (Hagree k Hk). }
  eexists _, _, _, s1, s2. split; [exact Hrun1|].
  split; [rewrite Hsame; exact Hrun2|].
  split; [by rewrite Htab1, Htab2, Hsame|].
  split; [exact Haud1|]. split; [exact Haud2|]. split; reflexivity.
Qed.
End CreateNewVersionEdges.


(** ** What the readers of a chain return *)

(** X9. Whenever [getEntityHistory] returns, it returns rows of the table,
    newest first; for an id that is empty or names no row it returns the empty
    history, not an error. *)
Theorem getEntityHistory_result (table entityId : string) (s : store) :
  (forall fuel result,
     getEntityHistory fuel table entityId s = Some result ->
     newest_first result /\ forall r, In r result -> In r (get_table s table))
  /\ ((entityId = ""
       \/ List.find (col_eq "id" (VStr entityId)) (get_table s table) = None) ->
      forall fuel, getEntityHistory (S fuel) table entityId s = Some []).
Proof.
  split.
  - intros fuel result Hrun. unfold getEntityHistory in Hrun.
    destruct (history_loop fuel _ _ _) as [visited|] eqn:Hloop; [|done].
    injection Hrun as <-. split; [apply (sort_with_desc valid_from)|].
    intros r Hr. apply (Permutation_in _ (sort_with_perm _ _)) in Hr.
    apply history_loop_Some in Hloop as (l & Hw & -> & _).
    by apply (path_incl _ _ _ (walk_path _ _ _ Hw)).
  - intros Hnone fuel. unfold getEntityHistory. cbn [history_loop].
    destruct Hnone as [->|Hnone]; [done|].
    destruct (truthy (Some (VStr entityId))); [|done].
    change (col_is "id" (Some (VStr entityId)))
      with (col_eq "id" (VStr entityId)).
    by rewrite Hnone.
Qed.

Lemma resolves_result (rows : list row) (v h : row) :
  resolves rows v h -> In v rows ->
  In h rows
  /\ (h !! "is_current" = Some (VBool true)
      \/ (h !! "is_current" = Some (VBool false)
          /\ List.find (col_is "previous_version_id" (h !! "id")) rows = None)).
Proof.
  induction 1 as [v Hc|v Hc Hf|v newer h Hc Hf _ IH]; intros Hin.
  - split; [done|by left].
  - split; [done|by right].
  - apply IH. by apply find_some in Hf as [? _].
Qed.

(** X10. On a table keyed by uuid, what [getCurrentVersion] returns is a row
    of the table that is current or that no row names as its predecessor; on
    the empty id it returns null whatever the table holds. *)
Theorem getCurrentVersion_result (table originalId : string) (s : store) :
  (keyed (get_table s table) ->
   forall fuel h,
     getCurrentVersion fuel table originalId s = Some (Some h) ->
     In h (get_table s table)
     /\ (h !! "is_current" = Some (VBool true)
         \/ (h !! "is_current" = Some (VBool false)
             /\ forall r, In r (get_table s table) ->
                  r !! "previous_version_id" <> h !! "id")))
  /\ forall fuel, getCurrentVersion (S fuel) table "" s = Some None.
Proof.
  split; [|done].
  intros Hk fuel h Hrun. unfold getCurrentVersion in Hrun.
  apply (current_loop_Some _ fuel Hk) in Hrun as (v & Hf & Hres).
  apply find_some in Hf as [Hin _].
  destruct (resolves_result _ _ _ Hres Hin) as [Hh [Hc|[Hc Hnone]]].
  - split; [done|by left].
  - split; [done|]. right. split; [done|].
    intros r Hr Hprev. apply (find_none _ _ Hnone) in Hr.
    destruct (proj1 Hk h Hh) as [(i & _ & Hid) _].
    rewrite Hid in Hr, Hprev. cbn [col_is] in Hr. unfold col_eq in Hr.
    by rewrite Hprev, bool_decide_eq_true_2 in Hr.
Qed.

(** ** The properties above on the sample data *)

Lemma getOrganizationAuditLogs_complete_witness :
  In early_entry
    (audit_row <$> getOrganizationAuditLogs "org-1" None None (Some "staff")
                     None None ledger_store).
Proof.
  apply (getOrganizationAuditLogs_complete "org-1" None None (Some "staff")
           None None ledger_store).
  - by_eval.
  - by left.
  - reflexivity.
  - by intros t [= <-].
  - intros a Ha. discriminate Ha.
Defined.

Lemma audit_queries_leave_staff_actor_unresolved_witness :
  performed_by_staff (audit_data staff_entry) = Some "v1"
  /\ related staffed_ledger "staff" (Some "v1") = Some jane
  /\ performedByUser (with_performer_columns staffed_ledger staff_entry) = None
  /\ performedByStaffMember (with_performer_columns staffed_ledger staff_entry)
     = None.
Proof.
  split; [reflexivity|]. split; [by_eval|].
  apply (audit_queries_leave_staff_actor_unresolved staffed_ledger);
    [|reflexivity].
  right. exists "shift_assignment", "as-1", None.
  unfold getAuditLogsForEntity.
  apply list_elem_of_In, list_elem_of_fmap. exists staff_entry.
  split; [reflexivity|]. by_eval.
Defined.

Lemma logAuditEvent_then_getAuditLogsForEntity_witness :
  exists e s',
    logAuditEvent (Some "org-1") "staff" "v1" AUpdate (Some "u1") None None
      None None None None None 200 ledger_store = (Ok tt, s')
    /\ head (audit_row <$> getAuditLogsForEntity "staff" "v1" None s') = Some e
    /\ audit_created_at e = 200.
Proof.
  destruct (logAuditEvent_then_getAuditLogsForEntity (Some "org-1") "staff"
              "v1" AUpdate (Some "u1") None None None None None None None 200
              None ledger_store)
    as (e & s' & Hrun & _ & Hstamp & _ & _ & _ & Hhead & _).
  - intros e [<-|[]] _ _. by_eval.
  - discriminate.
  - by exists e, s'.
Defined.

Lemma staff_columns_differ : NoDup (col_name <$> table_columns staff).
Proof. by_eval. Qed.

Lemma ann_values_complete (values : jsobj) :
  values = ann_values \/ values = ann_as_v1 ->
  forall c, c ∈ table_columns staff -> col_not_null c = true ->
    column_value values "v9" 1500 c <> VNull.
Proof.
  intros [-> | ->];
    apply (proj1 (Forall_forall
                    (fun c => col_not_null c = true ->
                              column_value _ "v9" 1500 c <> VNull)
                    (table_columns staff))); by_eval.
Qed.

Lemma ann_id_is_free (i : value) :
  returned_row staff ann_values "v9" 1500 !! "id" = Some i ->
  has_id (get_table (staff_store [jane]) (table_name staff)) i = false.
Proof.
  assert (returned_row staff ann_values "v9" 1500 !! "id" = Some (VStr "v9"))
    as -> by by_eval.
  intros [= <-]. by_eval.
Qed.

Lemma createWithAudit_creates_witness :
  exists created e s',
    createWithAudit staff ann_values "staff" (Some "u1") None None None None
      "v9" 1500 1501 (staff_store [jane]) = (Ok created, s')
    /\ created !! "name" = Some (VStr "Ann")
    /\ created !! "id" = Some (VStr "v9")
    /\ created !! "phone" = Some VNull
    /\ created !! "is_current" = Some (VBool true)
    /\ created !! "valid_from" = Some (VTime 1500)
    /\ get_table s' "staff" = get_table (staff_store [jane]) "staff" ++ [created]
    /\ audit_logs s' = audit_logs (staff_store [jane]) ++ [e]
    /\ new_values (audit_data e) = Some (as_object created).
Proof.
  destruct (createWithAudit_creates staff ann_values "staff" (Some "u1")
              None None None None "v9" 1500 1501 (staff_store [jane])
              staff_columns_differ (ann_values_complete _ (or_introl eq_refl))
              ann_id_is_free)
    as (created & e & s' & Hrun & Hgiven & Hdef & _ & Htab & Haud & _ & _
        & _ & _ & _ & Hnew & _).
  exists created, e, s'. split; [exact Hrun|].
  split; [apply (Hgiven (Column "name" true NoDefault)); by_eval|].
  split; [apply (Hdef (Column "id" true DefaultRandom)); [by_eval|left; by_eval]|].
  split; [apply (Hdef (Column "phone" false NoDefault));
            [by_eval|right; by_eval]|].
  split; [apply (Hdef (Column "is_current" true (DefaultValue (VBool true))));
            [by_eval|left; by_eval]|].
  split; [apply (Hdef (Column "valid_from" true DefaultNow));
            [by_eval|left; by_eval]|].
  exact (conj Htab (conj Haud Hnew)).
Defined.

Lemma ann_as_v1_id :
  returned_row staff ann_as_v1 "v9" 1500 !! "id" = Some (VStr "v1").
Proof. by_eval. Qed.

Lemma createWithAudit_duplicate_key_witness :
  exists s',
    createWithAudit staff ann_as_v1 "staff" None None None None None "v9" 1500
      1501 (staff_store [jane])
    = (Err (UniqueViolation "staff" "id"), s')
    /\ tables s' = tables (staff_store [jane])
    /\ audit_logs s' = audit_logs (staff_store [jane]).
Proof.
  destruct (createWithAudit_duplicate_key staff ann_as_v1 "staff" None None
              None None None "v9" 1500 1501 (staff_store [jane]) (VStr "v1")
              ann_as_v1_id)
    as (err & s' & Hrun & Htab & Haud & _ & _ & Herr); [by_eval|].
  rewrite (Herr (ann_values_complete _ (or_intror eq_refl))) in Hrun.
  exists s'. exact (conj Hrun (conj Htab Haud)).
Defined.

Lemma jane_found_by_id :
  List.find (col_eq "id" (VStr "v1")) (get_table (staff_store [jane]) "staff")
  = Some jane.
Proof. by_eval. Qed.

Lemma nobody_is_v7 (r : row) :
  In r (get_table (staff_store [jane]) "staff") -> r !! "id" <> Some (VStr "v7").
Proof.
  change (get_table (staff_store [jane]) "staff") with [jane].
  intros [<-|[]]. by_eval.
Qed.

Lemma updateWithAudit_not_found_witness :
  exists s',
    updateWithAudit "staff" "v7" rename_only "staff" None None None None None
      2000 2001 (staff_store [jane])
    = (Err (JsError "Record not found"), s')
    /\ tables s' = tables (staff_store [jane])
    /\ audit_logs s' = audit_logs (staff_store [jane]).
Proof.
  destruct (updateWithAudit_not_found "staff" "v7" rename_only "staff" None
              None None None None 2000 2001 (staff_store [jane]) nobody_is_v7)
    as (s' & Hrun & Htab & Haud & _).
  by exists s'.
Defined.

Lemma updateWithAudit_updates_in_place_witness :
  exists updated e s',
    updateWithAudit "staff" "v1" rename_only "staff" None None None None None
      2000 2001 (staff_store [jane]) = (Ok updated, s')
    /\ updated !! "updated_at" = Some (VTime 2000)
    /\ length (get_table s' "staff") = length (get_table (staff_store [jane])
                                                 "staff")
    /\ audit_logs s' = audit_logs (staff_store [jane]) ++ [e]
    /\ is_update_entry "v1" jane rename_only (audit_data e).
Proof.
  destruct (updateWithAudit_updates_in_place "staff" "v1" rename_only "staff"
              None None None None None 2000 2001 (staff_store [jane]) jane
              jane_found_by_id)
    as (updated & e & s' & Hrun & Hat & _ & _ & _ & _ & Hlen & Haud & He & _);
    [by_eval|].
  by exists updated, e, s'.
Defined.

Lemma deleteWithAudit_not_found_witness :
  exists s',
    deleteWithAudit delete_rows "staff" "v7" "staff" None None None None None
      2001 (staff_store [jane])
    = (Err (JsError "Record not found"), s')
    /\ tables s' = tables (staff_store [jane])
    /\ audit_logs s' = audit_logs (staff_store [jane]).
Proof.
  destruct (deleteWithAudit_not_found delete_rows "staff" "v7" "staff" None
              None None None None 2001 (staff_store [jane]) nobody_is_v7)
    as (s' & Hrun & Htab & Haud & _).
  by exists s'.
Defined.

Lemma deleteWithAudit_logs_then_deletes_witness :
  exists s',
    deleteWithAudit delete_rows "staff" "v1" "staff" None None None None None
      2001 (staff_store [jane]) = (Ok jane, s').
Proof.
  destruct (deleteWithAudit_logs_then_deletes delete_rows "staff" "v1" "staff"
              None None None None None 2001 (staff_store [jane]) jane
              jane_found_by_id)
    as (e & logged & _ & _ & _ & _ & _ & _ & Hok & _).
  eexists. apply Hok. reflexivity.
Defined.

Lemma deleteWithAudit_removes_row_witness :
  exists e s',
    deleteWithAudit delete_rows "staff" "v1" "staff" None None None None None
      2001 (staff_store [jane]) = (Ok jane, s')
    /\ List.find (col_eq "id" (VStr "v1")) (get_table s' "staff") = None
    /\ audit_logs s' = audit_logs (staff_store [jane]) ++ [e]
    /\ old_values (audit_data e) = Some (as_object jane).
Proof.
  destruct (deleteWithAudit_removes_row "staff" "v1" "staff" None None None
              None None 2001 (staff_store [jane]) jane jane_found_by_id)
    as (e & s' & Hrun & Hgone & _ & Haud & _ & _ & Hold & _).
  by exists e, s'.
Defined.

Lemma updateAssignmentStatus_not_found_witness :
  updateAssignmentStatus "as-7" Accepted None None (Some "v1") None None None
    2000 2000 2001 2001 invitation_store
  = (Err (JsError "Assignment not found"), invitation_store).
Proof.
  apply updateAssignmentStatus_not_found. by intros a [<-|[]].
Defined.

Lemma updateAssignmentStatus_frame_witness :
  exists updated s',
    updateAssignmentStatus "as-1" Accepted None None (Some "v1") None None None
      2000 2000 2001 2001 invitation_store = (Ok (Some updated), s')
    /\ length (shift_assignments s') = length (shift_assignments invitation_store)
    /\ a_response_message updated = a_response_message invitation
    /\ a_responded_at updated = Some 2000.
Proof.
  destruct (updateAssignmentStatus_frame "as-1" Accepted None None (Some "v1")
              None None None 2000 2000 2001 2001 invitation_store invitation
              invitation_found)
    as (updated & s' & Hrun & Hlen & _ & _ & _ & _ & _ & _ & _ & _ & Hmsg
        & Hat & _); [discriminate|].
  by exists updated, s'.
Defined.

Lemma updateAssignmentStatus_then_history_witness :
  exists r s',
    updateAssignmentStatus "as-1" Accepted (Some "Available!") None (Some "v1")
      None None None 2000 2000 2001 2001 invitation_store = (Ok r, s')
    /\ length (getAssignmentHistory "as-1" s')
       = S (length (getAssignmentHistory "as-1" invitation_store))
    /\ acceptedCount (getAssignmentStatistics "as-1" s')
       = (acceptedCount (getAssignmentStatistics "as-1" invitation_store) + 1)%nat.
Proof.
  destruct (updateAssignmentStatus_then_history "as-1" Accepted
              (Some "Available!") None (Some "v1") None None None 2000 2000
              2001 2001 invitation_store invitation (fun _ => "")
              invitation_found)
    as (r & l & s' & Hrun & _ & _ & _ & _ & Hlen & _ & _ & Hacc & _);
    [discriminate|].
  by exists r, s'.
Defined.

Lemma getCurrentVersion_lineage_head_witness :
  exists n, forall fuel, (n <= fuel)%nat ->
    getCurrentVersion fuel "staff" (row_id jane_v1)
      (staff_store [jane_v1; jane_v2]) = Some (Some jane_v2).
Proof.
  destruct (getCurrentVersion_lineage_head "staff"
              (staff_store [jane_v1; jane_v2]) [jane_v2; jane_v1] [jane_v2] []
              jane_v1 jane_versions_keyed jane_versions_lineage eq_refl)
    as (h & t & n & HL & _ & Hn).
  injection HL as <- _. by exists n.
Defined.

Lemma jane_keyed : keyed (get_table (staff_store [jane]) "staff").
Proof.
  change (get_table (staff_store [jane]) "staff") with [jane].
  split; [|by_eval].
  intros r [<-|[]].
  split; [exists "v1"; split; [done|by_eval]|exists true; by_eval].
Qed.

Lemma jane_lineage : lineage (get_table (staff_store [jane]) "staff") [jane].
Proof.
  change (get_table (staff_store [jane]) "staff") with [jane].
  split; [|split; [|split]].
  - apply chain_root; [|by_eval].
    exists "v1". split; [done|]. split; by_eval.
  - by_eval.
  - exists jane, []. split; [reflexivity|]. split; [by_eval|].
    by intros r [].
  - by intros r r' _ [<-|[]] _; left.
Qed.

Lemma nobody_follows (i : string) :
  i = "v1" \/ i = "v2" ->
  forall r, In r (get_table (staff_store [jane]) "staff") ->
    r !! "previous_version_id" <> Some (VStr i).
Proof.
  change (get_table (staff_store [jane]) "staff") with [jane].
  intros [-> | ->] r [<-|[]]; by_eval.
Qed.

Lemma createNewVersion_keeps_keyed_witness :
  exists newVersion s',
    createNewVersion "staff" "v1" rename_only None None None None None 2000
      "v2" 2001 (staff_store [jane]) = (Ok newVersion, s')
    /\ keyed (get_table s' "staff").
Proof.
  apply (createNewVersion_keeps_keyed "staff" "v1" rename_only None None None
           None None 2000 "v2" 2001 (staff_store [jane]) jane jane_is_current
           jane_v2_is_fresh); [discriminate|exact jane_keyed].
Defined.

Lemma createNewVersion_stale_id_fails_witness :
  exists newVersion s' s'',
    createNewVersion "staff" "v1" rename_only None None None None None 2000
      "v2" 2001 (staff_store [jane]) = (Ok newVersion, s')
    /\ createNewVersion "staff" "v1" rename_only None None None None None 3000
         "v3" 3001 s'
       = (Err (JsError "Current version not found"), s'').
Proof.
  destruct (createNewVersion_stale_id_fails "staff" "v1" rename_only None None
              None None None 2000 "v2" 2001 (staff_store [jane]) jane
              jane_is_current jane_v2_is_fresh)
    as (newVersion & s' & Hrun & Hstale).
  destruct (Hstale rename_only None None None None None 3000 "v3" 3001)
    as (s'' & Hrun2 & _).
  exists newVersion, s', s''. exact (conj Hrun Hrun2).
Defined.

Lemma createNewVersion_then_getCurrentVersion_witness :
  exists newVersion s' n,
    createNewVersion "staff" "v1" rename_only None None None None None 2000
      "v2" 2001 (staff_store [jane]) = (Ok newVersion, s')
    /\ forall fuel, (n <= fuel)%nat ->
         getCurrentVersion fuel "staff" "v1" s' = Some (Some newVersion).
Proof.
  destruct (createNewVersion_then_getCurrentVersion "staff" "v1" rename_only
              None None None None None 2000 "v2" 2001 (staff_store [jane])
              jane jane_is_current jane_v2_is_fresh)
    as (newVersion & s' & n & Hrun & _ & Hn);
    [discriminate|exact jane_keyed|apply nobody_follows; by left|].
  exists newVersion, s', n. exact (conj Hrun Hn).
Defined.

Lemma jane_history :
  getEntityHistory 2 "staff" "v1" (staff_store [jane]) = Some [jane].
Proof. by_eval. Qed.

Lemma createNewVersion_then_getEntityHistory_witness :
  exists newVersion s' after,
    createNewVersion "staff" "v1" rename_only None None None None None 2000
      "v2" 2001 (staff_store [jane]) = (Ok newVersion, s')
    /\ getEntityHistory 3 "staff" "v2" s' = Some after
    /\ length after = 2%nat.
Proof.
  destruct (createNewVersion_then_getEntityHistory "staff" "v1" rename_only
              None None None None None 2000 "v2" 2001 (staff_store [jane])
              jane jane_is_current jane_v2_is_fresh 2 [jane])
    as (newVersion & s' & after & Hrun & Hhist & _ & _ & Hlen);
    [discriminate|apply nobody_follows; by right|exact jane_history|].
  exists newVersion, s', after. exact (conj Hrun (conj Hhist Hlen)).
Defined.

Lemma createNewVersion_keeps_lineage_witness :
  exists newVersion s',
    createNewVersion "staff" "v1" rename_only None None None None None 2000
      "v2" 2001 (staff_store [jane]) = (Ok newVersion, s')
    /\ lineage (get_table s' "staff")
         [newVersion; retire_where "v1" 2000 jane].
Proof.
  apply (createNewVersion_keeps_lineage "staff" "v1" rename_only None None
           None None None 2000 "v2" 2001 (staff_store [jane]) jane
           jane_is_current jane_v2_is_fresh [jane] []);
    [discriminate|apply nobody_follows; by right|exact jane_lineage
    |reflexivity].
Defined.

Lemma createNewVersion_without_updates_witness :
  exists newVersion e s',
    createNewVersion "staff" "v1" [] None None None None None 2000 "v2" 2001
      (staff_store [jane]) = (Ok newVersion, s')
    /\ newVersion !! "name" = jane !! "name"
    /\ audit_logs s' = audit_logs (staff_store [jane]) ++ [e]
    /\ changed_fields (audit_data e) = Some [].
Proof.
  destruct (createNewVersion_without_updates "staff" "v1" None None None None
              None 2000 "v2" 2001 (staff_store [jane]) jane jane_is_current
              jane_v2_is_fresh)
    as (newVersion & e & s' & Hrun & Hsame & _ & _ & Haud & _ & Hch & _).
  exists newVersion, e, s'. split; [exact Hrun|].
  split; [apply Hsame; by_eval|]. by split.
Defined.

Lemma rename_agrees (k : string) :
  k ∉ managed_fields -> get rename_and_retire k = get rename_only k.
Proof.
  intros Hk. unfold get, assign, rename_and_retire, rename_only.
  cbn [foldl fst snd]. rewrite lookup_insert_ne; [done|].
  intros <-. apply Hk. by_eval.
Qed.

Lemma createNewVersion_ignores_managed_updates_witness :
  exists newVersion e1 s1 s2,
    createNewVersion "staff" "v1" rename_and_retire None None None None None
      2000 "v2" 2001 (staff_store [jane]) = (Ok newVersion, s1)
    /\ createNewVersion "staff" "v1" rename_only None None None None None
         2000 "v2" 2001 (staff_store [jane]) = (Ok newVersion, s2)
    /\ audit_logs s1 = audit_logs (staff_store [jane]) ++ [e1]
    /\ changed_fields (audit_data e1) = Some ["name"; "is_current"].
Proof.
  destruct (createNewVersion_ignores_managed_updates "staff" "v1" None None
              None None None 2000 "v2" 2001 (staff_store [jane]) jane
              jane_is_current jane_v2_is_fresh rename_and_retire rename_only
              rename_agrees)
    as (newVersion & e1 & e2 & s1 & s2 & H1 & H2 & _ & Ha1 & _ & Hc1 & _).
  exists newVersion, e1, s1, s2. exact (conj H1 (conj H2 (conj Ha1 Hc1))).
Defined.

Lemma jane_v1_is_taken :
  has_id (get_table (staff_store [jane]) "staff") (VStr "v1") = true.
Proof. by_eval. Qed.

Lemma createNewVersion_rolls_back_witness :
  createNewVersion "staff" "v1" rename_only None None None None None 2000 "v1"
    2001 (staff_store [jane])
  = (Err (UniqueViolation "staff" "id"), begin_tx (staff_store [jane]))
  /\ tables (begin_tx (staff_store [jane])) = tables (staff_store [jane])
  /\ audit_logs (begin_tx (staff_store [jane])) = [].
Proof.
  split; [|split; reflexivity].
  apply (createNewVersion_rolls_back "staff" "v1" rename_only None None None
           None None 2000 "v1" 2001 (staff_store [jane]) jane jane_is_current
           jane_v1_is_taken).
Defined.


Lemma jane_versions_history :
  getEntityHistory 3 "staff" "v2" (staff_store [jane_v1; jane_v2])
  = Some [jane_v2; jane_v1].
Proof. by_eval. Qed.

Lemma getEntityHistory_result_witness :
  newest_first [jane_v2; jane_v1]
  /\ getEntityHistory 1 "staff" "v7" (staff_store [jane]) = Some [].
Proof.
  split.
  - exact (proj1 (proj1 (getEntityHistory_result "staff" "v2"
                           (staff_store [jane_v1; jane_v2]))
                    3%nat [jane_v2; jane_v1] jane_versions_history)).
  - apply (proj2 (getEntityHistory_result "staff" "v7" (staff_store [jane]))).
    right. by_eval.
Defined.

Lemma jane_versions_current :
  getCurrentVersion 2 "staff" "v1" (staff_store [jane_v1; jane_v2])
  = Some (Some jane_v2).
Proof. by_eval. Qed.

Lemma getCurrentVersion_result_witness :
  In jane_v2 (get_table (staff_store [jane_v1; jane_v2]) "staff")
  /\ getCurrentVersion 1 "staff" "" (staff_store [jane]) = Some None.
Proof.
  split.
  - exact (proj1 (proj1 (getCurrentVersion_result "staff" "v1"
                           (staff_store [jane_v1; jane_v2]))
                    jane_versions_keyed 2%nat jane_v2 jane_versions_current)).
  - exact (proj2 (getCurrentVersion_result "staff" "v1" (staff_store [jane]))
             0%nat).
Defined.
